(** * EC2LatentBuildSlave

    A shallow embedding of [master/buildbot/buildslave/ec2.py]: the latent
    build slave that starts and stops EC2 instances on demand, together with
    the properties of its life-cycle controller.

    Conventions of the embedding.
    - The module is Python 2.  Strings are [string], integers are [Z], the
      spot prices are IEEE binary64 numbers ([float], as CPython's [float]).
    - [self] is a record [Self]; its attributes are threaded through a state
      and exception monad [M] together with the state of the EC2 service and
      a clock.  A raised exception keeps the mutations made before it.
    - Every call that reaches boto is recorded, in order, in the list of
      [Call]s a computation returns; the answers come from an arbitrary
      deterministic service [conn_reply].
    - [while] loops that wait for the service take a fuel argument and stop
      with [Diverge] when it is used up.
    - [log.msg] lines only format text and are left out.
    - A Python [dict] with string keys is a finite map [Dict.t]: no order,
      one value per key. *)

From Stdlib Require Import ZArith List String Ascii Bool Lia.
From Stdlib Require Import PrimFloat Uint63 SpecFloat FloatOps FloatAxioms.
From Stdlib Require Import Permutation Sorted.
From Stdlib Require Import FMapList FMapFacts OrderedTypeEx.
From ExtLib Require Import Structures.Monad Structures.MonadExc.
Import ListNotations.
Import MonadNotation.

Set Warnings "-inexact-float".
Local Open Scope string_scope.
Local Open Scope list_scope.
Local Open Scope monad_scope.

(** ** Module constants *)

Definition PENDING : string := "pending".
Definition RUNNING : string := "running".
Definition SHUTTINGDOWN : string := "shutting-down".
Definition TERMINATED : string := "terminated".
Definition SPOT_REQUEST_PENDING_STATES : list string :=
  ["pending-evaluation"; "pending-fulfillment"].
Definition FULFILLED : string := "fulfilled".
Definition PRICE_TOO_LOW : string := "price-too-low".
Definition VOLUME_AVAILABLE : string := "available".

(** ** Python values and built-ins used by the module *)

Module Py.

(** [x in seq] for a tuple or list of strings. *)
Definition str_in (x : string) (seq : list string) : bool :=
  existsb (String.eqb x) seq.

(** [sub in s] for two strings: the substring test. *)
Fixpoint substr_in (sub s : string) : bool :=
  String.prefix sub s ||
  match s with
  | EmptyString => false
  | String _ s' => substr_in sub s'
  end.

(** Truth value of an optional string: [None] and [''] are false. *)
Definition truthy (s : option string) : bool :=
  match s with
  | None => false
  | Some EmptyString => false
  | Some _ => true
  end.

Definition is_not_None {A} (x : option A) : bool :=
  match x with Some _ => true | None => false end.

(** [seq[-1]]. *)
Fixpoint last {A} (l : list A) : option A :=
  match l with
  | [] => None
  | [x] => Some x
  | _ :: l' => last l'
  end.

(** ['%02d' % n] for a non-negative [n]. *)
Definition digit (n : Z) : ascii := ascii_of_N (48 + Z.to_N n).

Fixpoint decimal (fuel : nat) (n : Z) (acc : string) : string :=
  match fuel with
  | O => acc
  | S fuel' =>
      let acc' := String (digit (n mod 10)) acc in
      if (n / 10 =? 0)%Z then acc' else decimal fuel' (n / 10) acc'
  end.

Definition fmt_02d (n : Z) : string :=
  let s := decimal (S (Z.to_nat (Z.log2 n))) n "" in
  if (String.length s <? 2)%nat then ("0" ++ s)%string else s.

(** [float(n)] for a machine integer [0 <= n < 2^63]. *)
Definition float_of_int (n : Z) : float := PrimFloat.of_uint63 (Uint63.of_Z n).

End Py.

(** ** The objects boto hands back *)

Record EC2ResponseError := {
  error_code : string;
  body : string
}.

Inductive Exn :=
| ValueError (msg : string)
| LatentBuildSlaveFailedToSubstantiate (args : list string)
| EC2Error (e : EC2ResponseError)
| IndexError
| TypeError
| KeyError (key : string)
| AttributeError
| AssertionError (msg : string)
| IOError
| UnboundLocalError (var : string)
| re_error.

(** An AMI.  [image_pyid] is the identity of the Python object, [id(image)]:
    boto's [Image] defines no comparison, so Python 2 orders two images by
    it when every field before them in a tuple is equal. *)
Record Image := {
  image_id : string;
  image_location : string;
  image_state : string;
  image_pyid : Z
}.

Record Instance := {
  instance_id : string;
  instance_state : string;
  public_dns_name : string
}.

(** What a refresh of an instance reports. *)
Record InstanceStatus := {
  reported_state : string;
  reported_dns : string
}.

Definition refreshed (i : Instance) (st : InstanceStatus) : Instance :=
  {| instance_id := instance_id i;
     instance_state := reported_state st;
     public_dns_name := reported_dns st |}.

Record Reservation := {
  reservation_id : string;
  instances : list Instance
}.

(** A spot request; [status_code] is [request.status.code]. *)
Record SpotInstanceRequest := {
  request_id : string;
  status_code : string;
  request_instance_id : option string
}.

Record SpotPriceHistory := {
  price_instance_type : string;
  price : float
}.

Record Volume := {
  volume_id : string;
  volume_status : string
}.

Record Address := {
  public_ip : string
}.

Record ConsoleOutput := {
  output_text : string
}.

Inductive DeviceProperty :=
| PropBool (b : bool)
| PropInt (n : Z)
| PropStr (s : string).

(** Dicts with string keys. *)
Module Dict := FMapList.Make String_as_OT.
Module DictFacts := FMapFacts.WFacts_fun String_as_OT Dict.
Module DictProps := FMapFacts.WProperties_fun String_as_OT Dict.

(** The [block_device_map] argument: a dict from device names to the dict
    of the properties of the device. *)
Definition MappingDefinitions := Dict.t (Dict.t DeviceProperty).

(** A [boto.ec2.blockdevicemapping.BlockDeviceType], by the keyword
    arguments it was built from. *)
Record BlockDeviceType := {
  bdt_kwargs : Dict.t DeviceProperty
}.

(** boto's [BlockDeviceMapping], a dict from device names to
    [BlockDeviceType]s. *)
Definition BlockDeviceMapping := Dict.t BlockDeviceType.

(** The keyword arguments shared by [image.run] and
    [conn.request_spot_instances]. *)
Record LaunchParams := {
  lp_key_name : string;
  lp_security_groups : option (list string);
  lp_instance_type : string;
  lp_user_data : option string;
  lp_placement : option string;
  lp_subnet_id : option string;
  lp_security_group_ids : option (list string);
  lp_block_device_map : option BlockDeviceMapping
}.

(** ** The calls made on boto, and what each returns *)

Inductive Call :=
| regions (identifier secret_identifier : option string)
| connect_to_region (region : string) (identifier secret_identifier : option string)
| connect_ec2 (identifier secret_identifier : option string)
| get_all_key_pairs (keypair_name : string)
| create_key_pair (keypair_name : string)
| get_all_security_groups (security_name : string)
| create_security_group (security_name description : string)
| conn_get_image (ami : string)
| get_all_images (owners : option (list Z))
| get_all_addresses (addresses : list string)
| image_run (image : string) (params : LaunchParams)
| get_spot_price_history (start_time : Z) (product_description : string)
                         (availability_zone : option string)
| request_spot_instances (target_price : float) (image : option string)
                         (params : LaunchParams)
| get_all_spot_instance_requests (request_ids : list string)
| get_all_instances (instance_ids : list (option string))
| instance_update (instance : string)
| instance_terminate (instance : string)
| instance_get_console_output (instance : string)
| instance_use_ip (instance : string) (ip : Address)
| disassociate_address (ip : string)
| create_tags (instance : string) (tags : list (string * string))
| create_volume (size : Z) (zone : string)
| get_all_volumes (volume_ids : list string)
| attach_volume (volume instance device : string)
| get_instance_attribute (instance attribute : string)
| modify_instance_attribute (instance attribute : string) (value : list string).

Definition Reply (c : Call) : Type :=
  match c with
  | regions _ _ => list string
  | connect_to_region _ _ _ => unit
  | connect_ec2 _ _ => unit
  | get_all_key_pairs _ => list string
  | create_key_pair _ => unit
  | get_all_security_groups _ => list string
  | create_security_group _ _ => unit
  | conn_get_image _ => option Image
  | get_all_images _ => list Image
  | get_all_addresses _ => list Address
  | image_run _ _ => Reservation
  | get_spot_price_history _ _ _ => list SpotPriceHistory
  | request_spot_instances _ _ _ => list SpotInstanceRequest
  | get_all_spot_instance_requests _ => list SpotInstanceRequest
  | get_all_instances _ => list Reservation
  | instance_update _ => InstanceStatus
  | instance_terminate _ => InstanceStatus
  | instance_get_console_output _ => ConsoleOutput
  | instance_use_ip _ _ => bool
  | disassociate_address _ => bool
  | create_tags _ _ => bool
  | create_volume _ _ => Volume
  | get_all_volumes _ => list Volume
  | attach_volume _ _ _ => bool
  | get_instance_attribute _ _ => list string
  | modify_instance_attribute _ _ _ => bool
  end.

(** The two calls that launch capacity. *)
Definition is_launch (c : Call) : bool :=
  match c with
  | image_run _ _ => true
  | request_spot_instances _ _ _ => true
  | _ => false
  end.

(** ** The attributes of an [EC2LatentBuildSlave] *)

Record Self := {
  ami : option string;
  valid_ami_owners : option (list Z);
  valid_ami_location_regex : option string;
  instance_type : string;
  keypair_name : string;
  security_name : option string;
  user_data : option string;
  spot_instance : bool;
  max_spot_price : float;
  volumes : list (string * string);
  price_multiplier : float;
  delete_vol_term : bool;
  create_volumes : list (string * Z * string);
  placement : option string;
  elastic_ip : option Address;
  subnet_id : option string;
  security_group_ids : option (list string);
  classic_security_groups : option (list string);
  tags : list (string * string);
  block_device_map : option BlockDeviceMapping;
  image : option Image;
  instance : option Instance;
  output : option ConsoleOutput;
  _poll_resolution : Z;
  _poll_retry : Z
}.

Definition set_instance (v : option Instance) (o : Self) : Self :=
  {| ami := ami o; valid_ami_owners := valid_ami_owners o;
     valid_ami_location_regex := valid_ami_location_regex o;
     instance_type := instance_type o; keypair_name := keypair_name o;
     security_name := security_name o; user_data := user_data o;
     spot_instance := spot_instance o; max_spot_price := max_spot_price o;
     volumes := volumes o; price_multiplier := price_multiplier o;
     delete_vol_term := delete_vol_term o; create_volumes := create_volumes o;
     placement := placement o; elastic_ip := elastic_ip o;
     subnet_id := subnet_id o; security_group_ids := security_group_ids o;
     classic_security_groups := classic_security_groups o; tags := tags o;
     block_device_map := block_device_map o; image := image o;
     instance := v; output := output o;
     _poll_resolution := _poll_resolution o; _poll_retry := _poll_retry o |}.

Definition set_output (v : option ConsoleOutput) (o : Self) : Self :=
  {| ami := ami o; valid_ami_owners := valid_ami_owners o;
     valid_ami_location_regex := valid_ami_location_regex o;
     instance_type := instance_type o; keypair_name := keypair_name o;
     security_name := security_name o; user_data := user_data o;
     spot_instance := spot_instance o; max_spot_price := max_spot_price o;
     volumes := volumes o; price_multiplier := price_multiplier o;
     delete_vol_term := delete_vol_term o; create_volumes := create_volumes o;
     placement := placement o; elastic_ip := elastic_ip o;
     subnet_id := subnet_id o; security_group_ids := security_group_ids o;
     classic_security_groups := classic_security_groups o; tags := tags o;
     block_device_map := block_device_map o; image := image o;
     instance := instance o; output := v;
     _poll_resolution := _poll_resolution o; _poll_retry := _poll_retry o |}.

Definition set_image (v : option Image) (o : Self) : Self :=
  {| ami := ami o; valid_ami_owners := valid_ami_owners o;
     valid_ami_location_regex := valid_ami_location_regex o;
     instance_type := instance_type o; keypair_name := keypair_name o;
     security_name := security_name o; user_data := user_data o;
     spot_instance := spot_instance o; max_spot_price := max_spot_price o;
     volumes := volumes o; price_multiplier := price_multiplier o;
     delete_vol_term := delete_vol_term o; create_volumes := create_volumes o;
     placement := placement o; elastic_ip := elastic_ip o;
     subnet_id := subnet_id o; security_group_ids := security_group_ids o;
     classic_security_groups := classic_security_groups o; tags := tags o;
     block_device_map := block_device_map o; image := v;
     instance := instance o; output := output o;
     _poll_resolution := _poll_resolution o; _poll_retry := _poll_retry o |}.

Definition set_block_device_map (v : option BlockDeviceMapping) (o : Self) : Self :=
  {| ami := ami o; valid_ami_owners := valid_ami_owners o;
     valid_ami_location_regex := valid_ami_location_regex o;
     instance_type := instance_type o; keypair_name := keypair_name o;
     security_name := security_name o; user_data := user_data o;
     spot_instance := spot_instance o; max_spot_price := max_spot_price o;
     volumes := volumes o; price_multiplier := price_multiplier o;
     delete_vol_term := delete_vol_term o; create_volumes := create_volumes o;
     placement := placement o; elastic_ip := elastic_ip o;
     subnet_id := subnet_id o; security_group_ids := security_group_ids o;
     classic_security_groups := classic_security_groups o; tags := tags o;
     block_device_map := v; image := image o;
     instance := instance o; output := output o;
     _poll_resolution := _poll_resolution o; _poll_retry := _poll_retry o |}.

(** The launch keywords, read off [self] the same way at both call sites. *)
Definition launch_params (o : Self) : LaunchParams :=
  {| lp_key_name := keypair_name o;
     lp_security_groups := classic_security_groups o;
     lp_instance_type := instance_type o;
     lp_user_data := user_data o;
     lp_placement := placement o;
     lp_subnet_id := subnet_id o;
     lp_security_group_ids := security_group_ids o;
     lp_block_device_map := block_device_map o |}.

(** ** Ordering of candidate tuples

    [get_image] sorts Python lists [[int_sort, alpha_sort, location, id,
    image]] (or a slice of them) with the built-in comparison of Python 2.
    A candidate is kept here as the list of its leading scalar fields and
    the image that closes it. *)

Module Order.

Inductive value :=
| None_
| Int (n : Z)
| Str (s : string).

(** Python 2 [cmp] on the scalars that occur: [None] is below everything,
    numbers are below strings, strings compare bytewise. *)
Definition cmp (a b : value) : comparison :=
  match a, b with
  | None_, None_ => Eq
  | None_, _ => Lt
  | _, None_ => Gt
  | Int x, Int y => Z.compare x y
  | Int _, Str _ => Lt
  | Str _, Int _ => Gt
  | Str x, Str y => String.compare x y
  end.

(** Sequences compare lexicographically; a proper prefix is smaller. *)
Fixpoint cmp_list (a b : list value) : comparison :=
  match a, b with
  | [], [] => Eq
  | [], _ :: _ => Lt
  | _ :: _, [] => Gt
  | x :: a', y :: b' =>
      match cmp x y with
      | Eq => cmp_list a' b'
      | c => c
      end
  end.

Definition candidate := (list value * Image)%type.

Definition cmp_candidate (a b : candidate) : comparison :=
  match cmp_list (fst a) (fst b) with
  | Eq => Z.compare (image_pyid (snd a)) (image_pyid (snd b))
  | c => c
  end.

Definition le (a b : candidate) : bool :=
  match cmp_candidate a b with
  | Gt => false
  | _ => true
  end.

(** [list.sort()]: a stable ascending sort. *)
Fixpoint insert (x : candidate) (l : list candidate) : list candidate :=
  match l with
  | [] => [x]
  | y :: l' => if le x y then x :: y :: l' else y :: insert x l'
  end.

Fixpoint sort (l : list candidate) : list candidate :=
  match l with
  | [] => []
  | x :: l' => insert x (sort l')
  end.

(** [candidate[level:]]; the image is the fifth element and [level <= 2]. *)
Definition slice (level : nat) (c : candidate) : candidate :=
  (skipn level (fst c), snd c).

End Order.

(** ** Pure helpers of the constructor *)

Fixpoint ends_with_slash (s : string) : bool :=
  match s with
  | EmptyString => false
  | String c EmptyString => Ascii.eqb c "/"%char
  | String _ s' => ends_with_slash s'
  end.

(** [os.path.join(a, b)] for a relative [b]. *)
Definition path_join (a b : string) : string :=
  match a with
  | EmptyString => b
  | _ => if ends_with_slash a then (a ++ b)%string else (a ++ "/" ++ b)%string
  end.

(** ** Deferreds *)

(** The work [threads.deferToThread] hands to the thread pool. *)
Inductive Task :=
| task_request_spot_instance
| task_start_instance
| task_stop_instance (instance : Instance) (fast : bool).

Inductive Deferred :=
| succeed_None
| deferToThread (t : Task).

(** What a task returns when it does not raise. *)
Inductive Result :=
| result_list (l : list string)
| result_tuple (t : option string * option string * option string)
| result_None.

(** ** Constructor arguments *)

(** [valid_ami_owners] as the caller may pass it: one integer, or an
    iterable whose elements may or may not be integers. *)
Inductive OwnerElement :=
| owner_int (n : Z)
| owner_other.

Inductive OwnersArg :=
| owners_int (n : Z)
| owners_iterable (l : list OwnerElement).

(** [valid_ami_location_regex] as the caller may pass it. *)
Inductive RegexArg :=
| regex_basestring (s : string)
| regex_other.

Record Config := {
  cfg_instance_type : string;
  cfg_ami : option string;
  cfg_valid_ami_owners : option OwnersArg;
  cfg_valid_ami_location_regex : option RegexArg;
  cfg_elastic_ip : option string;
  cfg_identifier : option string;
  cfg_secret_identifier : option string;
  cfg_aws_id_file_path : option string;
  cfg_user_data : option string;
  cfg_region : option string;
  cfg_keypair_name : option string;
  cfg_security_name : option string;
  cfg_subnet_id : option string;
  cfg_security_group_ids : option (list string);
  cfg_spot_instance : bool;
  cfg_max_spot_price : float;
  cfg_volumes : list (string * string);
  cfg_placement : option string;
  cfg_price_multiplier : float;
  cfg_tags : list (string * string);
  cfg_delete_vol_term : bool;
  cfg_create_volumes : list (string * Z * string);
  cfg_block_device_map : option MappingDefinitions
}.

(** The process environment the constructor reads for the deprecated
    credentials file. *)
Record Os := {
  environ_HOME : option string;
  path_exists : string -> bool;
  read_aws_id : string -> option (string * string)
}.

(** What [match.group(1)] gives: [IndexError] when the pattern has no first
    group, else the captured text or [None]. *)
Inductive Group :=
| no_such_group
| group (v : option string).

(** ** The controller *)

(** What the module runs against.
    - [Service] and [conn_reply]: the EC2 service behind [self.conn], any
      deterministic machine that answers a call with an [EC2ResponseError]
      or a reply of the call's type.
    - [re_compiles] and [re_match]: the [re] module, whether a pattern
      compiles and [re.compile(pattern).match(text)] as the outcome of
      [group(1)] on the match ([None] when the text does not match).
    - [py_int]: [int(text)] on a string, [None] standing for [ValueError].
    - [BlockDeviceType_takes]: whether the constructor of boto's
      [BlockDeviceType] takes a keyword argument of that name; a call with
      any other keyword raises [TypeError]. *)
Class Platform := {
  Service : Type;
  conn_reply : forall c : Call, Service -> (EC2ResponseError + Reply c) * Service;
  re_compiles : string -> bool;
  re_match : string -> string -> option Group;
  py_int : string -> option Z;
  BlockDeviceType_takes : string -> bool
}.

Inductive Outcome (A : Type) :=
| Return (a : A)
| Raise (e : Exn)
| Diverge.
Arguments Return {A} a.
Arguments Raise {A} e.
Arguments Diverge {A}.

Section Controller.

Context {platform : Platform}.

Record State := {
  self : Self;
  conn : Service;
  now : Z
}.

Definition M (A : Type) : Type := State -> Outcome A * State * list Call.

Definition unit_M {A} (a : A) : M A := fun s => (Return a, s, []).

Definition bind_M {A B} (m : M A) (k : A -> M B) : M B := fun s =>
  match m s with
  | (Return a, s1, t1) => let '(o, s2, t2) := k a s1 in (o, s2, t1 ++ t2)
  | (Raise e, s1, t1) => (Raise e, s1, t1)
  | (Diverge, s1, t1) => (Diverge, s1, t1)
  end.

#[global] Instance Monad_M : Monad M := {| ret := @unit_M; bind := @bind_M |}.

Definition raise {A} (e : Exn) : M A := fun s => (Raise e, s, []).

Definition diverge {A} : M A := fun s => (Diverge, s, []).

(** [try: m  except boto.exception.EC2ResponseError, e: handler e]. *)
Definition try_except {A} (m : M A) (handler : EC2ResponseError -> M A) : M A :=
  fun s =>
    match m s with
    | (Raise (EC2Error e), s1, t1) =>
        let '(o, s2, t2) := handler e s1 in (o, s2, t1 ++ t2)
    | r => r
    end.

Definition get_self : M Self := fun s => (Return (self s), s, []).

Definition modify_self (f : Self -> Self) : M unit := fun s =>
  (Return tt, {| self := f (self s); conn := conn s; now := now s |}, []).

Definition call (c : Call) : M (Reply c) := fun s =>
  let '(r, svc) := conn_reply c (conn s) in
  (match r with inl e => Raise (EC2Error e) | inr v => Return v end,
   {| self := self s; conn := svc; now := now s |},
   [c]).

(** [time.sleep(interval)] and [int(time.time())]. *)
Definition sleep (interval : Z) : M unit := fun s =>
  (Return tt, {| self := self s; conn := conn s; now := (now s + interval)%Z |}, []).

Definition time_time : M Z := fun s => (Return (now s), s, []).

(** [seq[0]]. *)
Definition item0 {A} (l : list A) : M A :=
  match l with
  | [] => raise IndexError
  | x :: _ => ret x
  end.

(** [self.instance], an [AttributeError] on what follows when it is [None]. *)
Definition the_instance : M Instance :=
  o <- get_self ;;
  match instance o with
  | Some i => ret i
  | None => raise AttributeError
  end.

(** [self.instance.update()]. *)
Definition update_self_instance : M unit :=
  i <- the_instance ;;
  st <- call (instance_update (instance_id i)) ;;
  modify_self (set_instance (Some (refreshed i st))).

(** *** get_image *)

(** The loop of [get_image] over the images listed, with its two
    variables [level] and [options]. *)
Fixpoint scan_images (pattern : string) (images : list Image) (level : nat)
         (options : list Order.candidate) : Exn + (nat * list Order.candidate) :=
  match images with
  | [] => inr (level, options)
  | image :: rest =>
      if negb (image_state image =? "available") then
        scan_images pattern rest level options
      else
        match re_match pattern (image_location image) with
        | None => scan_images pattern rest level options
        | Some m =>
            let tail := [Order.Str (image_location image); Order.Str (image_id image)] in
            if (level <? 2)%nat then
              match m with
              | no_such_group =>
                  scan_images pattern rest 2
                    (options ++ [(Order.None_ :: Order.None_ :: tail, image)])
              | group alpha_sort =>
                  let alpha :=
                    match alpha_sort with
                    | Some a => Order.Str a
                    | None => Order.None_
                    end in
                  if (level =? 0)%nat then
                    match alpha_sort with
                    | None => inl TypeError
                    | Some a =>
                        match py_int a with
                        | Some int_sort =>
                            scan_images pattern rest level
                              (options ++ [(Order.Int int_sort :: alpha :: tail, image)])
                        | None =>
                            scan_images pattern rest 1
                              (options ++ [(Order.None_ :: alpha :: tail, image)])
                        end
                    end
                  else
                    scan_images pattern rest level
                      (options ++ [(Order.None_ :: alpha :: tail, image)])
              end
            else
              scan_images pattern rest level
                (options ++ [(Order.None_ :: Order.None_ :: tail, image)])
        end
  end.

(** The candidate list [get_image] sorts, for a listing [images]. *)
Definition candidates (regex : option string) (images : list Image)
  : Exn + list Order.candidate :=
  match regex with
  | Some (String c p) =>
      let pattern := String c p in
      match scan_images pattern images 0 [] with
      | inl e => inl e
      | inr (level, options) =>
          inr (match level with
               | O => options
               | _ => map (Order.slice level) options
               end)
      end
  | _ =>
      inr (map (fun image =>
                  ([Order.Str (image_location image); Order.Str (image_id image)],
                   image)) images)
  end.

(** [options.sort()], then [options[-1][-1]] or the [ValueError]. *)
Definition choose (options : list Order.candidate) : Exn + Image :=
  match Py.last (Order.sort options) with
  | None => inl (ValueError "no available images match constraints")
  | Some c => inr (snd c)
  end.

Definition get_image : M Image :=
  o <- get_self ;;
  match image o with
  | Some img => ret img
  | None =>
      (if Py.truthy (valid_ami_location_regex o) &&
          negb (re_compiles (match valid_ami_location_regex o with
                             | Some p => p
                             | None => ""
                             end))
       then raise re_error else ret tt) ;;
      images <- call (get_all_images (valid_ami_owners o)) ;;
      match candidates (valid_ami_location_regex o) images with
      | inl e => raise e
      | inr options =>
          match choose options with
          | inl e => raise e
          | inr img => ret img
          end
      end
  end.

(** *** Volumes *)

Definition _handle_delete_on_term : M unit :=
  o <- get_self ;;
  if negb (delete_vol_term o) then ret tt
  else
    i <- the_instance ;;
    block_map <- call (get_instance_attribute (instance_id i) "blockDeviceMapping") ;;
    let del_on_term := map (fun devname => (devname ++ "=true")%string) block_map in
    match del_on_term with
    | [] => ret tt
    | _ =>
        _ <- call (modify_instance_attribute (instance_id i) "blockDeviceMapping"
                                             del_on_term) ;;
        ret tt
    end.

(** The [while vol.status not in (VOLUME_AVAILABLE)] loop; the
    parenthesised name is a string, so [in] is the substring test. *)
Fixpoint wait_for_volume (fuel : nat) (interval : Z) (new_vol vol : Volume) : M Volume :=
  if negb (Py.substr_in (volume_status vol) VOLUME_AVAILABLE) then
    match fuel with
    | O => diverge
    | S fuel' =>
        sleep interval ;;
        vols <- call (get_all_volumes [volume_id new_vol]) ;;
        vol' <- item0 vols ;;
        wait_for_volume fuel' interval new_vol vol'
    end
  else ret vol.

Fixpoint _create_volumes_loop (fuel : nat) (todo : list (string * Z * string)) : M unit :=
  match todo with
  | [] => ret tt
  | (device_node, volume_size, region) :: rest =>
      new_vol <- call (create_volume volume_size region) ;;
      o <- get_self ;;
      let interval := _poll_resolution o in
      vols <- call (get_all_volumes [volume_id new_vol]) ;;
      vol0 <- item0 vols ;;
      vol <- wait_for_volume fuel interval new_vol vol0 ;;
      i <- the_instance ;;
      _ <- call (attach_volume (volume_id vol) (instance_id i) device_node) ;;
      _create_volumes_loop fuel rest
  end.

Definition _create_volumes (fuel : nat) : M unit :=
  o <- get_self ;;
  _create_volumes_loop fuel (create_volumes o).

Fixpoint _attach_volumes_loop (todo : list (string * string)) : M unit :=
  match todo with
  | [] => ret tt
  | (vol, device_node) :: rest =>
      i <- the_instance ;;
      _ <- call (attach_volume vol (instance_id i) device_node) ;;
      _attach_volumes_loop rest
  end.

Definition _attach_volumes : M unit :=
  o <- get_self ;;
  _attach_volumes_loop (volumes o).

Definition _handle_volumes (fuel : nat) : M unit :=
  o <- get_self ;;
  (if (0 <? List.length (create_volumes o))%nat then _create_volumes fuel else ret tt) ;;
  _handle_delete_on_term ;;
  (if (0 <? List.length (volumes o))%nat then _attach_volumes else ret tt) ;;
  i <- the_instance ;;
  _ <- call (get_instance_attribute (instance_id i) "blockDeviceMapping") ;;
  ret tt.

(** *** _wait_for_instance *)

(** The [while self.instance.state == PENDING] loop; it returns
    [duration]. *)
Fixpoint wait_while_pending (fuel : nat) (interval duration : Z) : M Z :=
  i <- the_instance ;;
  if instance_state i =? PENDING then
    match fuel with
    | O => diverge
    | S fuel' =>
        sleep interval ;;
        let duration := (duration + interval)%Z in
        try_except update_self_instance
          (fun e =>
             if error_code e =? "InvalidInstanceID.NotFound" then ret tt
             else raise (EC2Error e)) ;;
        wait_while_pending fuel' interval duration
    end
  else ret duration.

(** [image] is whatever the caller passes; only its [id] is read. *)
Definition _wait_for_instance (fuel : nat) (image_dot_id : string)
  : M (option string * option string * option string) :=
  o <- get_self ;;
  let interval := _poll_resolution o in
  duration <- wait_while_pending fuel interval 0 ;;
  i <- the_instance ;;
  if instance_state i =? RUNNING then
    out <- call (instance_get_console_output (instance_id i)) ;;
    modify_self (set_output (Some out)) ;;
    let minutes := (duration / 60)%Z in
    let seconds := (duration mod 60)%Z in
    (match elastic_ip o with
     | Some ip => _ <- call (instance_use_ip (instance_id i) ip) ;; ret tt
     | None => ret tt
     end) ;;
    let start_time :=
      (Py.fmt_02d (minutes / 60) ++ ":" ++ Py.fmt_02d (minutes mod 60) ++ ":" ++
       Py.fmt_02d seconds)%string in
    _handle_volumes fuel ;;
    (if (0 <? List.length (tags o))%nat
     then _ <- call (create_tags (instance_id i) (tags o)) ;; ret tt
     else ret tt) ;;
    ret (Some (instance_id i), Some image_dot_id, Some start_time)
  else ret (None, None, None).

(** *** _start_instance *)

Definition _start_instance (fuel : nat) : M Result :=
  image <- get_image ;;
  o <- get_self ;;
  reservation <- call (image_run (image_id image) (launch_params o)) ;;
  i <- item0 (instances reservation) ;;
  modify_self (set_instance (Some i)) ;;
  r <- _wait_for_instance fuel (reservation_id reservation) ;;
  match r with
  | (Some instance_id, Some image_id, Some start_time) =>
      ret (result_list [instance_id; image_id; start_time])
  | _ =>
      i <- the_instance ;;
      raise (LatentBuildSlaveFailedToSubstantiate [instance_id i; instance_state i])
  end.

(** *** _wait_for_request *)

(** The first loop, [while attempts < self._poll_retry].  It leaves
    [request] and [request_status] bound only when a query succeeded. *)
Fixpoint find_request (fuel : nat) (interval attempts : Z)
         (reservation : SpotInstanceRequest) : M (option SpotInstanceRequest) :=
  o <- get_self ;;
  if (attempts <? _poll_retry o)%Z then
    match fuel with
    | O => diverge
    | S fuel' =>
        found <- try_except
                   (requests <- call (get_all_spot_instance_requests
                                        [request_id reservation]) ;;
                    request <- item0 requests ;;
                    ret (Some request))
                   (fun e =>
                      if error_code e =? "InvalidSpotInstanceRequestID.NotFound"
                      then sleep interval ;; ret None
                      else raise (EC2Error e)) ;;
        match found with
        | Some request => ret (Some request)
        | None => find_request fuel' interval (attempts + 1) reservation
        end
    end
  else ret None.

(** The second loop, [while request_status in SPOT_REQUEST_PENDING_STATES];
    [request_status] is [status_code request] throughout. *)
Fixpoint wait_while_request_pending (fuel : nat) (interval duration : Z)
         (request : SpotInstanceRequest) : M (SpotInstanceRequest * Z) :=
  if Py.str_in (status_code request) SPOT_REQUEST_PENDING_STATES then
    match fuel with
    | O => diverge
    | S fuel' =>
        sleep interval ;;
        let duration := (duration + interval)%Z in
        request' <- try_except
                      (requests <- call (get_all_spot_instance_requests
                                           [request_id request]) ;;
                       item0 requests)
                      (fun e =>
                         if error_code e =? "InvalidSpotInstanceRequestID.NotFound"
                         then ret request
                         else raise (EC2Error e)) ;;
        wait_while_request_pending fuel' interval duration request'
    end
  else ret (request, duration).

Definition _wait_for_request (fuel : nat) (reservation : SpotInstanceRequest)
  : M SpotInstanceRequest :=
  o <- get_self ;;
  let interval := _poll_resolution o in
  bound <- find_request fuel interval 0 reservation ;;
  match bound with
  | None => raise (UnboundLocalError "request_status")
  | Some request0 =>
      '(request, duration) <- wait_while_request_pending fuel interval 0 request0 ;;
      if status_code request =? FULFILLED then ret request
      else if status_code request =? PRICE_TOO_LOW then
        raise (LatentBuildSlaveFailedToSubstantiate
                 [request_id request; status_code request])
      else
        raise (LatentBuildSlaveFailedToSubstantiate
                 [request_id request; status_code request])
  end.

(** *** _request_spot_instance *)

(** The [for price in spot_prices] loop with its two accumulators. *)
Fixpoint sum_prices (wanted : string) (spot_prices : list SpotPriceHistory)
         (price_sum : float) (price_count : Z) : float * Z :=
  match spot_prices with
  | [] => (price_sum, price_count)
  | p :: rest =>
      if price_instance_type p =? wanted
      then sum_prices wanted rest (price_sum + price p)%float (price_count + 1)%Z
      else sum_prices wanted rest price_sum price_count
  end.

Definition target_price (o : Self) (spot_prices : list SpotPriceHistory) : float :=
  let '(price_sum, price_count) := sum_prices (instance_type o) spot_prices 0%float 0%Z in
  if (price_count =? 0)%Z then 0.02%float
  else ((price_sum / Py.float_of_int price_count) * price_multiplier o)%float.

Definition _request_spot_instance (fuel : nat) : M Result :=
  t <- time_time ;;
  let spot_history_starttime := (t - 86400)%Z in
  o <- get_self ;;
  spot_prices <- call (get_spot_price_history spot_history_starttime
                         "Linux/UNIX (Amazon VPC)" (placement o)) ;;
  let target := target_price o spot_prices in
  if (max_spot_price o <? target)%float then
    raise (LatentBuildSlaveFailedToSubstantiate [])
  else
    reservations <- call (request_spot_instances target (ami o) (launch_params o)) ;;
    reservation <- item0 reservations ;;
    request <- _wait_for_request fuel reservation ;;
    let instance_id := request_instance_id request in
    reservations <- call (get_all_instances [instance_id]) ;;
    r0 <- item0 reservations ;;
    i <- item0 (instances r0) ;;
    modify_self (set_instance (Some i)) ;;
    image <- get_image ;;
    r <- _wait_for_instance fuel (image_id image) ;;
    ret (result_tuple r).

(** *** _stop_instance, stop_instance, start_instance *)

(** The [while instance.state not in goal] loop on the local [instance]. *)
Fixpoint wait_until_goal (fuel : nat) (interval : Z) (goal : list string)
         (instance : Instance) : M Instance :=
  if negb (Py.str_in (instance_state instance) goal) then
    match fuel with
    | O => diverge
    | S fuel' =>
        sleep interval ;;
        st <- call (instance_update (instance_id instance)) ;;
        wait_until_goal fuel' interval goal (refreshed instance st)
    end
  else ret instance.

Definition _stop_instance (fuel : nat) (instance : Instance) (fast : bool) : M unit :=
  o <- get_self ;;
  (match elastic_ip o with
   | Some ip => _ <- call (disassociate_address (public_ip ip)) ;; ret tt
   | None => ret tt
   end) ;;
  updated <- try_except
               (st <- call (instance_update (instance_id instance)) ;;
                ret (Some (refreshed instance st)))
               (fun e =>
                  if error_code e =? "InvalidInstanceID.NotFound" then ret None
                  else raise (EC2Error e)) ;;
  match updated with
  | None => ret tt
  | Some instance =>
      instance <- (if negb (Py.str_in (instance_state instance)
                                      [SHUTTINGDOWN; TERMINATED])
                   then st <- call (instance_terminate (instance_id instance)) ;;
                        ret (refreshed instance st)
                   else ret instance) ;;
      let interval := _poll_resolution o in
      '(goal, instance) <-
        (if fast : bool
         then st <- call (instance_update (instance_id instance)) ;;
              ret ([SHUTTINGDOWN; TERMINATED], refreshed instance st)
         else ret ([TERMINATED], instance)) ;;
      _ <- wait_until_goal fuel interval goal instance ;;
      ret tt
  end.

Definition stop_instance (fast : bool) : M Deferred :=
  o <- get_self ;;
  match instance o with
  | None => ret succeed_None
  | Some instance =>
      modify_self (fun o => set_instance None (set_output None o)) ;;
      ret (deferToThread (task_stop_instance instance fast))
  end.

Definition start_instance : M Deferred :=
  o <- get_self ;;
  if Py.is_not_None (instance o) then raise (ValueError "instance active")
  else if spot_instance o then ret (deferToThread task_request_spot_instance)
  else ret (deferToThread task_start_instance).

(** The thread pool running a task handed to [deferToThread]. *)
Definition run_task (fuel : nat) (t : Task) : M Result :=
  match t with
  | task_request_spot_instance => _request_spot_instance fuel
  | task_start_instance => _start_instance fuel
  | task_stop_instance instance fast =>
      _stop_instance fuel instance fast ;; ret result_None
  end.

(** The result a fired [Deferred] carries. *)
Definition fire (fuel : nat) (d : Deferred) : M Result :=
  match d with
  | succeed_None => ret result_None
  | deferToThread t => run_task fuel t
  end.

(** *** create_block_device_mapping *)

(** [modified_device_properties]: a copy of the properties of one device,
    with [delete_on_termination] set to [True] when they do not say it. *)
Definition modified_device_properties (device_properties : Dict.t DeviceProperty)
  : Dict.t DeviceProperty :=
  if Dict.mem "delete_on_termination" device_properties
  then device_properties
  else Dict.add "delete_on_termination" (PropBool true) device_properties.

(** [BlockDeviceType] called with the keywords [kwargs]: [TypeError] for a keyword the constructor
    does not take. *)
Definition new_BlockDeviceType (kwargs : Dict.t DeviceProperty)
  : Exn + BlockDeviceType :=
  if forallb BlockDeviceType_takes (map fst (Dict.elements kwargs))
  then inr {| bdt_kwargs := kwargs |}
  else inl TypeError.

(** The loop [for device_name, device_properties in ...iteritems()] over the
    items in the order they come; [result] is a dict, and the exception of
    the first device that is refused ends the loop. *)
Definition build_mapping (items : list (string * Dict.t DeviceProperty))
  : Exn + BlockDeviceMapping :=
  fold_left
    (fun acc item =>
       match acc with
       | inl e => inl e
       | inr result =>
           match new_BlockDeviceType (modified_device_properties (snd item)) with
           | inl e => inl e
           | inr device => inr (Dict.add (fst item) device result)
           end
       end)
    items (inr (Dict.empty BlockDeviceType)).

(** [iteritems()] gives the items of the dict in an order of its own;
    [Dict.elements] stands for it. *)
Definition create_block_device_mapping (mapping_definitions : option MappingDefinitions)
  : Exn + option BlockDeviceMapping :=
  match mapping_definitions with
  | None => inr None
  | Some defs =>
      if Dict.is_empty defs then inr None
      else
        match build_mapping (Dict.elements defs) with
        | inl e => inl e
        | inr result => inr (Some result)
        end
  end.

(** *** __init__ *)

(** The class attributes ([instance = image = None], [_poll_resolution],
    [_poll_retry]); the instance attributes hold placeholders until
    [__init__] assigns them. *)
Definition EC2LatentBuildSlave_class : Self :=
  {| ami := None; valid_ami_owners := None; valid_ami_location_regex := None;
     instance_type := ""; keypair_name := ""; security_name := None;
     user_data := None; spot_instance := false; max_spot_price := 0%float;
     volumes := []; price_multiplier := 0%float; delete_vol_term := false;
     create_volumes := []; placement := None; elastic_ip := None;
     subnet_id := None; security_group_ids := None;
     classic_security_groups := None; tags := []; block_device_map := None;
     image := None; instance := None; output := None;
     _poll_resolution := 5; _poll_retry := 10 |}.

(** The loop over the elements of [valid_ami_owners]. *)
Fixpoint owner_ints (l : list OwnerElement) : option (list Z) :=
  match l with
  | [] => Some []
  | owner_int n :: rest =>
      match owner_ints rest with
      | Some ns => Some (n :: ns)
      | None => None
      end
  | owner_other :: _ => None
  end.

(** Lines 111-127: the attributes copied from the arguments. *)
Definition assign_arguments (cfg : Config) (owners : option (list Z))
           (regex : option string) (keypair security : option string) (o : Self) : Self :=
  {| ami := cfg_ami cfg;
     valid_ami_owners := owners;
     valid_ami_location_regex := regex;
     instance_type := cfg_instance_type cfg;
     keypair_name := match keypair with Some k => k | None => "" end;
     security_name := security;
     user_data := cfg_user_data cfg;
     spot_instance := cfg_spot_instance cfg;
     max_spot_price := cfg_max_spot_price cfg;
     volumes := cfg_volumes cfg;
     price_multiplier := cfg_price_multiplier cfg;
     delete_vol_term := cfg_delete_vol_term cfg;
     create_volumes := cfg_create_volumes cfg;
     placement := match cfg_placement cfg, cfg_region cfg with
                  | Some placement, Some region => Some (region ++ placement)%string
                  | _, _ => None
                  end;
     elastic_ip := elastic_ip o; subnet_id := subnet_id o;
     security_group_ids := security_group_ids o;
     classic_security_groups := classic_security_groups o; tags := tags o;
     block_device_map := block_device_map o; image := image o;
     instance := instance o; output := output o;
     _poll_resolution := _poll_resolution o; _poll_retry := _poll_retry o |}.

(** Lines 228-232. *)
Definition assign_rest (cfg : Config) (ip : option Address) (o : Self) : Self :=
  {| ami := ami o; valid_ami_owners := valid_ami_owners o;
     valid_ami_location_regex := valid_ami_location_regex o;
     instance_type := instance_type o; keypair_name := keypair_name o;
     security_name := security_name o; user_data := user_data o;
     spot_instance := spot_instance o; max_spot_price := max_spot_price o;
     volumes := volumes o; price_multiplier := price_multiplier o;
     delete_vol_term := delete_vol_term o; create_volumes := create_volumes o;
     placement := placement o;
     elastic_ip := ip;
     subnet_id := cfg_subnet_id cfg;
     security_group_ids := cfg_security_group_ids cfg;
     classic_security_groups :=
       (if Py.truthy (security_name o)
        then match security_name o with Some n => Some [n] | None => None end
        else None);
     tags := cfg_tags cfg;
     block_device_map := block_device_map o;
     image := image o; instance := instance o; output := output o;
     _poll_resolution := _poll_resolution o; _poll_retry := _poll_retry o |}.

(** Lines 128-147: the identifier and secret the connection is made with. *)
Definition credentials (cfg : Config) (os : Os) : Exn + (option string * option string) :=
  match cfg_identifier cfg with
  | None =>
      match cfg_secret_identifier cfg with
      | Some _ =>
          inl (AssertionError "supply both or neither of identifier, secret_identifier")
      | None =>
          let found :=
            match cfg_aws_id_file_path cfg with
            | Some p => inr (Some p)
            | None =>
                match environ_HOME os with
                | None => inl (KeyError "HOME")
                | Some home =>
                    let default_path := path_join (path_join home ".ec2") "aws_id" in
                    if path_exists os default_path then inr (Some default_path)
                    else inr None
                end
            end in
          match found with
          | inl e => inl e
          | inr aws_id_file_path =>
              if Py.truthy aws_id_file_path then
                match aws_id_file_path with
                | Some p =>
                    match read_aws_id os p with
                    | Some (identifier, secret_identifier) =>
                        inr (Some identifier, Some secret_identifier)
                    | None => inl IOError
                    end
                | None => inr (None, None)
                end
              else inr (None, None)
          end
      end
  | Some identifier =>
      match cfg_aws_id_file_path cfg with
      | Some _ =>
          inl (AssertionError
                 "if you supply the identifier and secret_identifier, do not specify the aws_id_file_path")
      | None =>
          match cfg_secret_identifier cfg with
          | None =>
              inl (AssertionError
                     "supply both or neither of identifier, secret_identifier")
          | Some secret_identifier => inr (Some identifier, Some secret_identifier)
          end
      end
  end.

Definition of_sum {A} (r : Exn + A) : M A :=
  match r with
  | inl e => raise e
  | inr a => ret a
  end.

(** [AbstractLatentBuildSlave.__init__] belongs to another module; it
    stores the generic slave settings and touches none of the attributes
    below, so the body starts at line 78. *)
Definition __init__ (cfg : Config) (os : Os) : M unit :=
  (if Py.truthy (cfg_security_name cfg) && Py.truthy (cfg_subnet_id cfg)
   then raise (ValueError
                 "security_name (EC2 classic security groups) is not supported in a VPC.  Use security_group_ids instead.")
   else ret tt) ;;
  (if negb (xorb (Py.is_not_None (cfg_ami cfg))
                 (Py.is_not_None (cfg_valid_ami_owners cfg) ||
                  Py.is_not_None (cfg_valid_ami_location_regex cfg)))
   then raise (ValueError
                 "You must provide either a specific ami, or one or both of valid_ami_location_regex and valid_ami_owners")
   else ret tt) ;;
  owners <- (match cfg_valid_ami_owners cfg with
             | None => ret None
             | Some (owners_int n) => ret (Some [n])
             | Some (owners_iterable l) =>
                 match owner_ints l with
                 | Some ns => ret (Some ns)
                 | None => raise (ValueError
                                    "valid_ami_owners should be int or iterable of ints")
                 end
             end) ;;
  regex <- (match cfg_valid_ami_location_regex cfg with
            | None => ret None
            | Some regex_other =>
                raise (ValueError "valid_ami_location_regex should be a string")
            | Some (regex_basestring p) =>
                if re_compiles p then ret (Some p) else raise re_error
            end) ;;
  let keypair :=
    match cfg_keypair_name cfg with
    | None => "latent_buildbot_slave"
    | Some k => k
    end in
  let security :=
    match cfg_security_name cfg with
    | None => if negb (Py.truthy (cfg_subnet_id cfg))
              then Some "latent_buildbot_slave" else None
    | Some n => Some n
    end in
  modify_self (assign_arguments cfg owners regex (Some keypair) security) ;;
  '(identifier, secret_identifier) <- of_sum (credentials cfg os) ;;
  (match cfg_region cfg with
   | Some region =>
       rs <- call (regions identifier secret_identifier) ;;
       if existsb (String.eqb region) rs
       then call (connect_to_region region identifier secret_identifier)
       else raise (ValueError "The specified region does not exist")
   | None => call (connect_ec2 identifier secret_identifier)
   end) ;;
  try_except
    (key_pairs <- call (get_all_key_pairs keypair) ;;
     _ <- item0 key_pairs ;;
     ret tt)
    (fun e =>
       if negb (Py.substr_in "InvalidKeyPair.NotFound" (body e))
       then raise (EC2Error e)
       else call (create_key_pair keypair)) ;;
  (if Py.truthy security then
     let name := match security with Some n => n | None => "" end in
     try_except
       (groups <- call (get_all_security_groups name) ;;
        _ <- item0 groups ;;
        ret tt)
       (fun e =>
          if Py.substr_in "InvalidGroup.NotFound" (body e)
          then call (create_security_group
                       name "Authorization to access the buildbot instance.")
          else raise (EC2Error e))
   else ret tt) ;;
  (match cfg_ami cfg with
   | Some a =>
       img <- call (conn_get_image a) ;;
       modify_self (set_image img)
   | None =>
       _ <- get_image ;;
       ret tt
   end) ;;
  ip <- (match cfg_elastic_ip cfg with
         | Some a =>
             addresses <- call (get_all_addresses [a]) ;;
             ip <- item0 addresses ;;
             ret (Some ip)
         | None => ret None
         end) ;;
  modify_self (assign_rest cfg ip) ;;
  block_device_map <- of_sum (create_block_device_mapping (cfg_block_device_map cfg)) ;;
  modify_self (set_block_device_map block_device_map).

(** [EC2LatentBuildSlave(...)]: the object, or the exception the
    constructor raised, with the calls made on the way. *)
Definition EC2LatentBuildSlave (cfg : Config) (os : Os) (svc : Service) (t : Z)
  : Outcome Self * Service * list Call :=
  let '(r, s, calls) :=
    __init__ cfg os {| self := EC2LatentBuildSlave_class; conn := svc; now := t |} in
  (match r with
   | Return _ => Return (self s)
   | Raise e => Raise e
   | Diverge => Diverge
   end, conn s, calls).

End Controller.

(** The three components of a run. *)
Definition outcome_of {S A : Type} (r : Outcome A * S * list Call) : Outcome A :=
  fst (fst r).
Definition state_of {S A : Type} (r : Outcome A * S * list Call) : S :=
  snd (fst r).
Definition calls_of {S A : Type} (r : Outcome A * S * list Call) : list Call :=
  snd r.

Definition with_conn {platform : Platform} (s : State) (svc : Service) : State :=
  {| self := self s; conn := svc; now := now s |}.

Definition with_self {platform : Platform} (s : State) (o : Self) : State :=
  {| self := o; conn := conn s; now := now s |}.

(** ** The specification's wording, for comparison with the code *)

Module Spec.

(** The prices of the history entries for the configured instance type. *)
Definition matching_prices (wanted : string) (history : list SpotPriceHistory)
  : list float :=
  map price (filter (fun p => price_instance_type p =? wanted) history).

(** The arithmetic mean of a list of binary64 numbers, summed from the left. *)
Definition mean (l : list float) : float :=
  (fold_left PrimFloat.add l 0 / Py.float_of_int (Z.of_nat (List.length l)))%float.

(** "If no price history exists, use a fixed low fallback bid; otherwise
    average x price-multiplier." *)
Definition target_bid (wanted : string) (multiplier : float)
           (history : list SpotPriceHistory) : float :=
  match matching_prices wanted history with
  | [] => 0.02%float
  | prices => (mean prices * multiplier)%float
  end.

(** "Exactly one of {explicit image reference} or {image-selection
    constraints (owner list, location pattern)} is set." *)
Definition explicit_image (cfg : Config) : bool :=
  Py.is_not_None (cfg_ami cfg).

Definition selection_constraints (cfg : Config) : bool :=
  Py.is_not_None (cfg_valid_ami_owners cfg) ||
  Py.is_not_None (cfg_valid_ami_location_regex cfg).

Definition exactly_one (cfg : Config) : bool :=
  xorb (explicit_image cfg) (selection_constraints cfg).

(** "Ascending sort by (numeric key if present, else alpha key, else raw
    location, identifier)": of a candidate that carries both a numeric and an
    alpha key, the ordering named by the specification keeps the numeric one
    only. *)
Definition claimed_key (c : Order.candidate) : list Order.value :=
  match fst c with
  | [Order.Int n; _; location; id] => [Order.Int n; location; id]
  | key => key
  end.

(** The level one candidate asks for by the shape of its first capture
    group: 2 without a group, 1 for text that is no integer, else 0. *)
Definition shape_level {platform : Platform} (g : Group) : nat :=
  match g with
  | no_such_group => 2
  | group (Some a) =>
      match py_int a with
      | Some _ => 0
      | None => 1
      end
  | group None => 0
  end.

(** The capture-group outcomes of the images that pass the two filters of
    [get_image], in listing order. *)
Fixpoint matched_groups {platform : Platform} (pattern : string) (images : list Image)
  : list Group :=
  match images with
  | [] => []
  | image :: rest =>
      if negb (image_state image =? "available") then matched_groups pattern rest
      else
        match re_match pattern (image_location image) with
        | None => matched_groups pattern rest
        | Some g => g :: matched_groups pattern rest
        end
  end.

(** The candidate set: with a location pattern, the listed images that are
    available and whose location matches it; otherwise every listed
    image. *)
Definition eligible {platform : Platform} (regex : option string) (image : Image)
  : bool :=
  match regex with
  | Some (String c p) =>
      (image_state image =? "available")
      && Py.is_not_None (re_match (String c p) (image_location image))
  | _ => true
  end.

(** The level the candidates are sorted at: the highest any candidate
    requires, and 2 without a pattern. *)
Definition sort_level {platform : Platform} (regex : option string)
           (images : list Image) : nat :=
  match regex with
  | Some (String c p) =>
      list_max (map shape_level (matched_groups (String c p) images))
  | _ => 2
  end.

(** The text the first group captured in the location of an image, and the
    integer it denotes. *)
Definition captured_text {platform : Platform} (regex : option string)
           (image : Image) : Order.value :=
  match regex with
  | Some pattern =>
      match re_match pattern (image_location image) with
      | Some (group (Some a)) => Order.Str a
      | _ => Order.None_
      end
  | None => Order.None_
  end.

Definition numeric_key {platform : Platform} (regex : option string)
           (image : Image) : Order.value :=
  match regex with
  | Some pattern =>
      match re_match pattern (image_location image) with
      | Some (group (Some a)) =>
          match py_int a with
          | Some n => Order.Int n
          | None => Order.None_
          end
      | _ => Order.None_
      end
  | None => Order.None_
  end.

(** The fields a candidate is compared on: (numeric key, captured text,
    location, identifier) at level 0, (captured text, location, identifier)
    at level 1, (location, identifier) at level 2. *)
Definition sort_fields {platform : Platform} (regex : option string) (level : nat)
           (image : Image) : list Order.value :=
  let tail := [Order.Str (image_location image); Order.Str (image_id image)] in
  match level with
  | 0 => numeric_key regex image :: captured_text regex image :: tail
  | 1 => captured_text regex image :: tail
  | _ => tail
  end.

End Spec.

(** ** Concrete platforms for the examples *)

Module Examples.

(** A reply of the right type for every call: empty listings, [True]. *)
Definition default_reply (c : Call) : Reply c :=
  match c as c' return Reply c' with
  | regions _ _ => []
  | connect_to_region _ _ _ => tt
  | connect_ec2 _ _ => tt
  | get_all_key_pairs k => [k]
  | create_key_pair _ => tt
  | get_all_security_groups g => [g]
  | create_security_group _ _ => tt
  | conn_get_image _ => None
  | get_all_images _ => []
  | get_all_addresses _ => []
  | image_run _ _ => {| reservation_id := "r-0"; instances := [] |}
  | get_spot_price_history _ _ _ => []
  | request_spot_instances _ _ _ => []
  | get_all_spot_instance_requests _ => []
  | get_all_instances _ => []
  | instance_update _ => {| reported_state := TERMINATED; reported_dns := "" |}
  | instance_terminate _ => {| reported_state := TERMINATED; reported_dns := "" |}
  | instance_get_console_output _ => {| output_text := "" |}
  | instance_use_ip _ _ => true
  | disassociate_address _ => true
  | create_tags _ _ => true
  | create_volume _ _ => {| volume_id := "vol-0"; volume_status := "available" |}
  | get_all_volumes _ => []
  | attach_volume _ _ _ => true
  | get_instance_attribute _ _ => []
  | modify_instance_attribute _ _ _ => true
  end.

Definition is_digit (c : ascii) : bool :=
  ((48 <=? N_of_ascii c) && (N_of_ascii c <=? 57))%N.

Fixpoint digits_value (s : string) (acc : Z) : option Z :=
  match s with
  | EmptyString => Some acc
  | String c s' =>
      if is_digit c then digits_value s' (10 * acc + Z.of_N (N_of_ascii c) - 48)%Z
      else None
  end.

(** [int(text)] on the texts of the examples: a non-empty run of decimal
    digits has its value, anything else raises [ValueError]. *)
Definition int_of_digits (s : string) : option Z :=
  match s with
  | EmptyString => None
  | _ => digits_value s 0
  end.

Fixpoint leading_digits (s : string) : string :=
  match s with
  | EmptyString => EmptyString
  | String c s' => if is_digit c then String c (leading_digits s') else EmptyString
  end.

Definition newline : ascii := ascii_of_N 10.

Fixpoint until_newline (s : string) : string :=
  match s with
  | EmptyString => EmptyString
  | String c s' => if Ascii.eqb c newline then EmptyString else String c (until_newline s')
  end.

(** [re.compile(pattern).match(text)] for the two patterns of the examples:
    [.-(\d+)], one character, a dash and a captured run of digits, and
    [.-(.+)], one character, a dash and the captured non-empty rest of the
    line. *)
Definition match_pattern (pattern text : string) : option Group :=
  match text with
  | String c0 (String "-" rest) =>
      if Ascii.eqb c0 newline then None
      else if pattern =? ".-(\d+)" then
        match leading_digits rest with
        | EmptyString => None
        | ds => Some (group (Some ds))
        end
      else if pattern =? ".-(.+)" then
        match until_newline rest with
        | EmptyString => None
        | text => Some (group (Some text))
        end
      else None
  | _ => None
  end.

(** The keywords of [BlockDeviceType.__init__] in boto 2. *)
Definition takes_keyword (name : string) : bool :=
  Py.str_in name
    ["connection"; "ephemeral_name"; "no_device"; "volume_id"; "snapshot_id";
     "status"; "attach_time"; "delete_on_termination"; "size"; "volume_type";
     "iops"; "encrypted"].

(** A stateless service: every call is answered by [reply]. *)
Definition stateless (reply : forall c : Call, EC2ResponseError + Reply c) : Platform :=
  {| Service := unit;
     conn_reply := fun c svc => (reply c, svc);
     re_compiles := fun _ => true;
     re_match := match_pattern;
     py_int := int_of_digits;
     BlockDeviceType_takes := takes_keyword |}.

(** Its only state. *)
Definition svc (reply : forall c : Call, EC2ResponseError + Reply c)
  : @Service (stateless reply) := tt.

Definition quiet_reply (c : Call) : EC2ResponseError + Reply c :=
  inr (default_reply c).

Definition quiet : Platform := stateless quiet_reply.

(** A controller configured with an explicit image, as [__init__] leaves it. *)
Definition ami_1 : Image :=
  {| image_id := "ami-1"; image_location := "owner/image-1";
     image_state := "available"; image_pyid := 1 |}.

Definition slave (spot : bool) : Self :=
  {| ami := Some "ami-1"; valid_ami_owners := None; valid_ami_location_regex := None;
     instance_type := "m1.large"; keypair_name := "latent_buildbot_slave";
     security_name := Some "latent_buildbot_slave"; user_data := None;
     spot_instance := spot; max_spot_price := 1.6; volumes := [];
     price_multiplier := 1.2; delete_vol_term := true; create_volumes := [];
     placement := None; elastic_ip := None; subnet_id := None;
     security_group_ids := None;
     classic_security_groups := Some ["latent_buildbot_slave"]; tags := [];
     block_device_map := None; image := Some ami_1; instance := None;
     output := None; _poll_resolution := 5; _poll_retry := 10 |}.

Definition i_1 (state : string) : Instance :=
  {| instance_id := "i-1"; instance_state := state; public_dns_name := "" |}.

Definition idle (platform : Platform) (svc : @Service platform) (spot : bool) : State :=
  {| self := slave spot; conn := svc; now := 1000000 |}.

Definition busy (platform : Platform) (svc : @Service platform) (spot : bool) : State :=
  {| self := set_instance (Some (i_1 RUNNING)) (slave spot); conn := svc; now := 1000000 |}.

(** A spot request that is fulfilled with a pending instance, reported
    terminated at the first refresh. *)
Definition sir_1 (code : string) (i : option string) : SpotInstanceRequest :=
  {| request_id := "sir-1"; status_code := code; request_instance_id := i |}.

Definition fulfilled_then_terminated (c : Call) : EC2ResponseError + Reply c :=
  match c as c' return EC2ResponseError + Reply c' with
  | request_spot_instances _ _ _ => inr [sir_1 "pending-evaluation" None]
  | get_all_spot_instance_requests _ => inr [sir_1 FULFILLED (Some "i-1")]
  | get_all_instances _ =>
      inr [{| reservation_id := "r-1"; instances := [i_1 PENDING] |}]
  | instance_update _ => inr {| reported_state := TERMINATED; reported_dns := "" |}
  | c' => inr (default_reply c')
  end.

(** An on-demand launch whose pending instance is reported terminated at
    the first refresh. *)
Definition launched_then_terminated (c : Call) : EC2ResponseError + Reply c :=
  match c as c' return EC2ResponseError + Reply c' with
  | image_run _ _ => inr {| reservation_id := "r-1"; instances := [i_1 PENDING] |}
  | instance_update _ => inr {| reported_state := TERMINATED; reported_dns := "" |}
  | c' => inr (default_reply c')
  end.

(** A spot request the service never shows. *)
Definition not_found : EC2ResponseError :=
  {| error_code := "InvalidSpotInstanceRequestID.NotFound"; body := "" |}.

Definition request_never_visible (c : Call) : EC2ResponseError + Reply c :=
  match c as c' return EC2ResponseError + Reply c' with
  | request_spot_instances _ _ _ => inr [sir_1 "pending-evaluation" None]
  | get_all_spot_instance_requests _ => inl not_found
  | c' => inr (default_reply c')
  end.

(** Price histories. *)
Definition history (prices : list float) (c : Call) : EC2ResponseError + Reply c :=
  match c as c' return EC2ResponseError + Reply c' with
  | get_spot_price_history _ _ _ =>
      inr (map (fun p => {| price_instance_type := "m1.large"; price := p |}) prices
           ++ [{| price_instance_type := "t1.micro"; price := 9 |}])
  | c' => inr (default_reply c')
  end.

(** Image listings. *)
Definition listing (images : list Image) (c : Call) : EC2ResponseError + Reply c :=
  match c as c' return EC2ResponseError + Reply c' with
  | get_all_images _ => inr images
  | c' => inr (default_reply c')
  end.

Definition available (id location : string) (pyid : Z) : Image :=
  {| image_id := id; image_location := location; image_state := "available";
     image_pyid := pyid |}.

Definition selecting (pattern : string) (spot : bool) : Self :=
  {| ami := None; valid_ami_owners := Some [42%Z];
     valid_ami_location_regex := Some pattern;
     instance_type := "m1.large"; keypair_name := "latent_buildbot_slave";
     security_name := Some "latent_buildbot_slave"; user_data := None;
     spot_instance := spot; max_spot_price := 1.6; volumes := [];
     price_multiplier := 1.2; delete_vol_term := true; create_volumes := [];
     placement := None; elastic_ip := None; subnet_id := None;
     security_group_ids := None;
     classic_security_groups := Some ["latent_buildbot_slave"]; tags := [];
     block_device_map := None; image := None; instance := None;
     output := None; _poll_resolution := 5; _poll_retry := 10 |}.

(** Two images whose captured digits denote the same number. *)
Definition image_a : Image := available "ami-a" "a-1" 1.
Definition image_b : Image := available "ami-b" "b-01" 2.

(** Two images of which only the first has a numeric capture. *)
Definition image_numeric : Image := available "ami-n" "x-1" 1.
Definition image_textual : Image := available "ami-t" "x-abc" 2.

(** Constructor arguments that name an image and constraints at once. *)
Definition both_set : Config :=
  {| cfg_instance_type := "m1.large"; cfg_ami := Some "ami-1";
     cfg_valid_ami_owners := Some (owners_int 42); cfg_valid_ami_location_regex := None;
     cfg_elastic_ip := None; cfg_identifier := Some "id";
     cfg_secret_identifier := Some "secret"; cfg_aws_id_file_path := None;
     cfg_user_data := None; cfg_region := None; cfg_keypair_name := None;
     cfg_security_name := None; cfg_subnet_id := None; cfg_security_group_ids := None;
     cfg_spot_instance := true; cfg_max_spot_price := 1.6; cfg_volumes := [];
     cfg_placement := None; cfg_price_multiplier := 1.2; cfg_tags := [];
     cfg_delete_vol_term := true; cfg_create_volumes := [];
     cfg_block_device_map := None |}.

(** Constructor arguments with constraints only. *)
Definition constraints_only : Config :=
  {| cfg_instance_type := "m1.large"; cfg_ami := None;
     cfg_valid_ami_owners := Some (owners_int 42);
     cfg_valid_ami_location_regex := Some (regex_basestring ".-(\d+)");
     cfg_elastic_ip := None; cfg_identifier := Some "id";
     cfg_secret_identifier := Some "secret"; cfg_aws_id_file_path := None;
     cfg_user_data := None; cfg_region := None; cfg_keypair_name := None;
     cfg_security_name := None; cfg_subnet_id := None; cfg_security_group_ids := None;
     cfg_spot_instance := true; cfg_max_spot_price := 1.6; cfg_volumes := [];
     cfg_placement := None; cfg_price_multiplier := 1.2; cfg_tags := [];
     cfg_delete_vol_term := true; cfg_create_volumes := [];
     cfg_block_device_map := None |}.

(** A service for a controller built from constraints: two images match,
    and a spot request is fulfilled with an instance that runs. *)
Definition selection_then_spot (c : Call) : EC2ResponseError + Reply c :=
  match c as c' return EC2ResponseError + Reply c' with
  | get_all_images _ => inr [image_a; image_b]
  | request_spot_instances _ _ _ => inr [sir_1 "pending-evaluation" None]
  | get_all_spot_instance_requests _ => inr [sir_1 FULFILLED (Some "i-1")]
  | get_all_instances _ =>
      inr [{| reservation_id := "r-1"; instances := [i_1 RUNNING] |}]
  | c' => inr (default_reply c')
  end.

Definition no_files : Os :=
  {| environ_HOME := Some "/home/buildbot";
     path_exists := fun _ => false;
     read_aws_id := fun _ => None |}.

(** Constructor arguments by the fields the examples vary. *)
Definition config (ami : option string) (owners : option OwnersArg)
           (regex : option RegexArg) (security subnet region : option string)
           (identifier secret file : option string)
           (map : option MappingDefinitions) : Config :=
  {| cfg_instance_type := "m1.large"; cfg_ami := ami;
     cfg_valid_ami_owners := owners; cfg_valid_ami_location_regex := regex;
     cfg_elastic_ip := None; cfg_identifier := identifier;
     cfg_secret_identifier := secret; cfg_aws_id_file_path := file;
     cfg_user_data := None; cfg_region := region; cfg_keypair_name := None;
     cfg_security_name := security; cfg_subnet_id := subnet;
     cfg_security_group_ids := None;
     cfg_spot_instance := false; cfg_max_spot_price := 1.6; cfg_volumes := [];
     cfg_placement := None; cfg_price_multiplier := 1.2; cfg_tags := [];
     cfg_delete_vol_term := true; cfg_create_volumes := [];
     cfg_block_device_map := map |}.

(** A block-device map with one device that says nothing about deletion
    and one that forbids it. *)
Definition two_devices : MappingDefinitions :=
  Dict.add "/dev/sdb" (Dict.add "size" (PropInt 10) (Dict.empty _))
    (Dict.add "/dev/sdc"
       (Dict.add "delete_on_termination" (PropBool false)
          (Dict.add "size" (PropInt 20) (Dict.empty _)))
       (Dict.empty _)).

(** A device with a property [BlockDeviceType] does not take. *)
Definition misspelt_device : MappingDefinitions :=
  Dict.add "/dev/sdb" (Dict.add "sise" (PropInt 10) (Dict.empty _)) (Dict.empty _).

(** Three images whose captures are the numbers 1, 2 and 10. *)
Definition image_1 : Image := available "ami-1" "x-1" 1.
Definition image_2 : Image := available "ami-2" "x-2" 2.
Definition image_10 : Image := available "ami-10" "x-10" 3.

(** [re.compile(pattern).match(text)] for the pattern [.-(\d+)?], one
    character, a dash and an optional captured run of digits: without a
    digit after the dash the text matches and the group is [None]. *)
Definition match_optional (pattern text : string) : option Group :=
  match text with
  | String c0 (String "-" rest) =>
      if Ascii.eqb c0 newline then None
      else if pattern =? ".-(\d+)?" then
        match leading_digits rest with
        | EmptyString => Some (group None)
        | ds => Some (group (Some ds))
        end
      else None
  | _ => None
  end.

Definition optional_group : Platform :=
  {| Service := unit;
     conn_reply := fun c svc => (quiet_reply c, svc);
     re_compiles := fun _ => true;
     re_match := match_optional;
     py_int := int_of_digits;
     BlockDeviceType_takes := takes_keyword |}.

Definition image_plain : Image := available "ami-p" "x-plain" 4.

(** [re.compile(pattern).match(text)] for the pattern [x-([a-z]+)?]: after
    [x-] an optional captured run of lower-case letters. *)
Definition is_lower (c : ascii) : bool :=
  (97 <=? nat_of_ascii c)%nat && (nat_of_ascii c <=? 122)%nat.

Fixpoint leading_letters (s : string) : string :=
  match s with
  | String c s' => if is_lower c then String c (leading_letters s') else EmptyString
  | EmptyString => EmptyString
  end.

Definition match_letters (pattern text : string) : option Group :=
  match text with
  | String "x" (String "-" rest) =>
      if pattern =? "x-([a-z]+)?" then
        match leading_letters rest with
        | EmptyString => Some (group None)
        | ls => Some (group (Some ls))
        end
      else None
  | _ => None
  end.

(** A service that lists [images], with that matcher. *)
Definition optional_letters (images : list Image) : Platform :=
  {| Service := unit;
     conn_reply := fun c svc => (listing images c, svc);
     re_compiles := fun _ => true;
     re_match := match_letters;
     py_int := int_of_digits;
     BlockDeviceType_takes := takes_keyword |}.

Definition letters_svc (images : list Image) : @Service (optional_letters images) := tt.

(** Services for the teardown: the refresh of the instance is refused,
    finds no instance, or reports it shutting down. *)
Definition auth_failure : EC2ResponseError :=
  {| error_code := "AuthFailure"; body := "" |}.

Definition instance_not_found : EC2ResponseError :=
  {| error_code := "InvalidInstanceID.NotFound"; body := "" |}.

Definition refresh_refused (c : Call) : EC2ResponseError + Reply c :=
  match c as c' return EC2ResponseError + Reply c' with
  | instance_update _ => inl auth_failure
  | c' => inr (default_reply c')
  end.

Definition instance_vanished (c : Call) : EC2ResponseError + Reply c :=
  match c as c' return EC2ResponseError + Reply c' with
  | instance_update _ => inl instance_not_found
  | c' => inr (default_reply c')
  end.

Definition shutting_down (c : Call) : EC2ResponseError + Reply c :=
  match c as c' return EC2ResponseError + Reply c' with
  | instance_update _ => inr {| reported_state := SHUTTINGDOWN; reported_dns := "" |}
  | c' => inr (default_reply c')
  end.

(** A controller with an elastic address. *)
Definition slave_with_ip : Self :=
  {| ami := Some "ami-1"; valid_ami_owners := None; valid_ami_location_regex := None;
     instance_type := "m1.large"; keypair_name := "latent_buildbot_slave";
     security_name := Some "latent_buildbot_slave"; user_data := None;
     spot_instance := false; max_spot_price := 1.6; volumes := [];
     price_multiplier := 1.2; delete_vol_term := true; create_volumes := [];
     placement := None; elastic_ip := Some {| public_ip := "203.0.113.7" |};
     subnet_id := None; security_group_ids := None;
     classic_security_groups := Some ["latent_buildbot_slave"]; tags := [];
     block_device_map := None; image := Some ami_1; instance := None;
     output := None; _poll_resolution := 5; _poll_retry := 10 |}.

(** An on-demand launch whose pending instance is reported running at the
    first refresh. *)
Definition launched_then_running (c : Call) : EC2ResponseError + Reply c :=
  match c as c' return EC2ResponseError + Reply c' with
  | image_run _ _ => inr {| reservation_id := "r-1"; instances := [i_1 PENDING] |}
  | instance_update _ => inr {| reported_state := RUNNING; reported_dns := "" |}
  | c' => inr (default_reply c')
  end.

(** A controller that owns [i-1], still pending. *)
Definition waiting (platform : Platform) (svc : @Service platform) : State :=
  {| self := set_instance (Some (i_1 PENDING)) (slave false); conn := svc;
     now := 1000000 |}.


(** A controller with two volumes to attach, that owns [i-1]. *)
Definition slave_with_volumes : Self :=
  {| ami := Some "ami-1"; valid_ami_owners := None; valid_ami_location_regex := None;
     instance_type := "m1.large"; keypair_name := "latent_buildbot_slave";
     security_name := Some "latent_buildbot_slave"; user_data := None;
     spot_instance := false; max_spot_price := 1.6;
     volumes := [("vol-1", "/dev/sdf"); ("vol-2", "/dev/sdg")];
     price_multiplier := 1.2; delete_vol_term := true; create_volumes := [];
     placement := None; elastic_ip := None;
     subnet_id := None; security_group_ids := None;
     classic_security_groups := Some ["latent_buildbot_slave"]; tags := [];
     block_device_map := None; image := Some ami_1;
     instance := Some (i_1 RUNNING);
     output := None; _poll_resolution := 5; _poll_retry := 10 |}.

Definition attaching (platform : Platform) (svc : @Service platform) : State :=
  {| self := slave_with_volumes; conn := svc; now := 1000000 |}.

(** Arguments with a subnet id and no group name, and the controller the
    constructor builds from them against [quiet]. *)
Definition vpc_config : Config :=
  config (Some "ami-1") None None None (Some "subnet-1") None
         (Some "id") (Some "secret") None None.

Definition slave_in_vpc : Self :=
  {| ami := Some "ami-1"; valid_ami_owners := None; valid_ami_location_regex := None;
     instance_type := "m1.large"; keypair_name := "latent_buildbot_slave";
     security_name := None; user_data := None;
     spot_instance := false; max_spot_price := 1.6; volumes := [];
     price_multiplier := 1.2; delete_vol_term := true; create_volumes := [];
     placement := None; elastic_ip := None;
     subnet_id := Some "subnet-1"; security_group_ids := None;
     classic_security_groups := None; tags := [];
     block_device_map := None; image := None; instance := None;
     output := None; _poll_resolution := 5; _poll_retry := 10 |}.

End Examples.

(** ** Relations every step of a computation keeps *)

(** [respects Rl m]: from any state, the final state and the calls of [m]
    are related to the initial state by [Rl], whatever the outcome. *)
Definition respects {platform : Platform}
           (Rl : State -> State -> list Call -> Prop) {A : Type} (m : M A) : Prop :=
  forall s, Rl s (state_of (m s)) (calls_of (m s)).

(** Relations that hold of no step and compose along [bind]. *)
Class Compositional {platform : Platform}
      (Rl : State -> State -> list Call -> Prop) : Prop := {
  rl_refl : forall s, Rl s s [];
  rl_trans : forall s1 s2 s3 t1 t2,
      Rl s1 s2 t1 -> Rl s2 s3 t2 -> Rl s1 s3 (t1 ++ t2)
}.

(** No call launches capacity. *)
Definition no_launch {platform : Platform} (_ _ : State) (t : list Call) : Prop :=
  Forall (fun c => is_launch c = false) t.

(** No attribute of [self] is written. *)
Definition same_self {platform : Platform} (s s' : State) (_ : list Call) : Prop :=
  self s' = self s.

(** [self.ami] is not written. *)
Definition same_ami {platform : Platform} (s s' : State) (_ : list Call) : Prop :=
  ami (self s') = ami (self s).

(** ** Further notions the properties are stated with *)

(** The [dns] property (lines 296-300). *)
Definition dns (o : Self) : option string :=
  match instance o with
  | None => None
  | Some i => Some (public_dns_name i)
  end.

Definition is_terminate (c : Call) : bool :=
  match c with
  | instance_terminate _ => true
  | _ => false
  end.

(** What the checks of lines 89-104 leave of [valid_ami_owners] and of
    [valid_ami_location_regex], [None] when the check raises. *)
Definition accepted_owners (a : option OwnersArg) : option (option (list Z)) :=
  match a with
  | None => Some None
  | Some (owners_int n) => Some (Some [n])
  | Some (owners_iterable l) =>
      match owner_ints l with
      | Some ns => Some (Some ns)
      | None => None
      end
  end.

Definition accepted_regex {platform : Platform} (a : option RegexArg)
  : option (option string) :=
  match a with
  | None => Some None
  | Some regex_other => None
  | Some (regex_basestring p) => if re_compiles p then Some (Some p) else None
  end.

(** The arguments pass the checks of lines 78-104. *)
Definition arguments_accepted {platform : Platform} (cfg : Config)
           (owners : option (list Z)) (regex : option string) : Prop :=
  (Py.truthy (cfg_security_name cfg) && Py.truthy (cfg_subnet_id cfg)) = false
  /\ Spec.exactly_one cfg = true
  /\ accepted_owners (cfg_valid_ami_owners cfg) = Some owners
  /\ accepted_regex (cfg_valid_ami_location_regex cfg) = Some regex.

(** The attributes the life cycle turns on. *)
Definition handle_of (o : Self) : option Instance * option ConsoleOutput * Z * Z :=
  (instance o, output o, _poll_resolution o, _poll_retry o).

(** The handle and the polling parameters are not written. *)
Definition same_handle {platform : Platform} (s s' : State) (_ : list Call) : Prop :=
  handle_of (self s') = handle_of (self s).

(** The instance owned keeps its id, and none is dropped or adopted. *)
Definition same_instance_id {platform : Platform} (s s' : State) (_ : list Call)
  : Prop :=
  option_map instance_id (instance (self s')) = option_map instance_id (instance (self s)).

(** No call terminates an instance. *)
Definition no_terminate {platform : Platform} (_ _ : State) (t : list Call) : Prop :=
  Forall (fun c => is_terminate c = false) t.

(** [raises_only P m]: an exception that leaves [m] satisfies [P]. *)
Definition raises_only {platform : Platform} (P : Exn -> Prop) {A : Type} (m : M A)
  : Prop :=
  forall s e, outcome_of (m s) = Raise e -> P e.

(** The exceptions that come from boto or from indexing its replies. *)
Definition from_service (e : Exn) : Prop :=
  match e with
  | EC2Error _ => True
  | IndexError => True
  | _ => False
  end.

Definition is_EC2Error (e : Exn) : Prop :=
  match e with
  | EC2Error _ => True
  | _ => False
  end.

(** Anything but [LatentBuildSlaveFailedToSubstantiate]. *)
Definition no_substantiation_failure (e : Exn) : Prop :=
  match e with
  | LatentBuildSlaveFailedToSubstantiate _ => False
  | _ => True
  end.

(** The calls that return an instance or are made on one. *)
Definition is_instance_call (c : Call) : bool :=
  match c with
  | image_run _ _ => true
  | get_all_instances _ => true
  | instance_update _ => true
  | instance_terminate _ => true
  | instance_get_console_output _ => true
  | instance_use_ip _ _ => true
  | create_tags _ _ => true
  | attach_volume _ _ _ => true
  | get_instance_attribute _ _ => true
  | modify_instance_attribute _ _ _ => true
  | _ => false
  end.

Definition no_instance_call {platform : Platform} (_ _ : State) (t : list Call)
  : Prop :=
  Forall (fun c => is_instance_call c = false) t.


(** The calls on classic security groups. *)
Definition is_group_call (c : Call) : bool :=
  match c with
  | get_all_security_groups _ => true
  | create_security_group _ _ => true
  | _ => false
  end.

Definition no_group_call {platform : Platform} (_ _ : State) (t : list Call) : Prop :=
  Forall (fun c => is_group_call c = false) t.

(** [self.security_name] is not written. *)
Definition same_security_name {platform : Platform} (s s' : State) (_ : list Call)
  : Prop :=
  security_name (self s') = security_name (self s).

(** As [from_service], with the [AttributeError] of a [self.instance] that
    is [None]. *)
Definition from_service_or_no_instance (e : Exn) : Prop :=
  match e with
  | EC2Error _ => True
  | IndexError => True
  | AttributeError => True
  | _ => False
  end.

(** * Properties *)

(** ** Running the monad *)

Section Running.

Context {platform : Platform}.

Lemma run_bind {A B} (m : M A) (k : A -> M B) (s : State) :
  bind m k s =
  match m s with
  | (Return a, s1, t1) => let '(o, s2, t2) := k a s1 in (o, s2, t1 ++ t2)
  | (Raise e, s1, t1) => (Raise e, s1, t1)
  | (Diverge, s1, t1) => (Diverge, s1, t1)
  end.
Proof. reflexivity. Qed.

Lemma run_bind_Return {A B} (m : M A) (k : A -> M B) (s s1 : State) a t1 :
  m s = (Return a, s1, t1) ->
  bind m k s = (outcome_of (k a s1), state_of (k a s1), t1 ++ calls_of (k a s1)).
Proof.
  intros H. rewrite run_bind, H.
  destruct (k a s1) as [[o s2] t2]. reflexivity.
Qed.

Lemma run_bind_Raise {A B} (m : M A) (k : A -> M B) (s s1 : State) e t1 :
  m s = (Raise e, s1, t1) -> bind m k s = (Raise e, s1, t1).
Proof. intros H. rewrite run_bind, H. reflexivity. Qed.

Lemma run_call (c : Call) (s : State) :
  call c s =
  (match fst (conn_reply c (conn s)) with
   | inl e => Raise (EC2Error e)
   | inr v => Return v
   end,
   with_conn s (snd (conn_reply c (conn s))),
   [c]).
Proof. unfold call. destruct (conn_reply c (conn s)). reflexivity. Qed.

Lemma triple_eta {A} (r : Outcome A * State * list Call) :
  r = (outcome_of r, state_of r, calls_of r).
Proof. destruct r as [[o s] t]. reflexivity. Qed.

(** A [bind] returns only if its first part returned. *)
Lemma bind_Return_inv {A B} (m : M A) (k : A -> M B) (s s2 : State) b t :
  bind m k s = (Return b, s2, t) ->
  exists a s1 t1 t2,
    m s = (Return a, s1, t1) /\ k a s1 = (Return b, s2, t2) /\ t = t1 ++ t2.
Proof.
  rewrite run_bind. destruct (m s) as [[[a | e |] s1] t1]; try discriminate.
  destruct (k a s1) as [[o s2'] t2] eqn:Hk. intros H. inversion H; subst.
  exists a, s1, t1, t2. auto.
Qed.

Lemma run_bind_pure {A B} (m : M A) (k : A -> M B) (s : State) a :
  m s = (Return a, s, []) -> bind m k s = k a s.
Proof.
  intros H. rewrite run_bind, H. destruct (k a s) as [[o s2] t2]. reflexivity.
Qed.

Lemma run_bind_call {B} (c : Call) (k : Reply c -> M B) (s : State) :
  bind (call c) k s =
  match fst (conn_reply c (conn s)) with
  | inl e => (Raise (EC2Error e), with_conn s (snd (conn_reply c (conn s))), [c])
  | inr v =>
      let r := k v (with_conn s (snd (conn_reply c (conn s)))) in
      (outcome_of r, state_of r, c :: calls_of r)
  end.
Proof.
  rewrite run_bind, run_call.
  destruct (fst (conn_reply c (conn s))) as [e | v]; [reflexivity |].
  destruct (k v _) as [[o s2] t2]. reflexivity.
Qed.

End Running.

(** ** Composition of the relations *)

Section Respects.

Context {platform : Platform}.
Variable Rl : State -> State -> list Call -> Prop.
Context {Rl_comp : Compositional Rl}.

Lemma respects_ret {A} (a : A) : respects Rl (ret a).
Proof. intros s. apply rl_refl. Qed.

Lemma respects_raise {A} (e : Exn) : respects Rl (@raise _ A e).
Proof. intros s. apply rl_refl. Qed.

Lemma respects_diverge {A} : respects Rl (@diverge _ A).
Proof. intros s. apply rl_refl. Qed.

Lemma respects_get_self : respects Rl get_self.
Proof. intros s. apply rl_refl. Qed.

Lemma respects_time_time : respects Rl time_time.
Proof. intros s. apply rl_refl. Qed.

Lemma respects_bind {A B} (m : M A) (k : A -> M B) :
  respects Rl m -> (forall a, respects Rl (k a)) -> respects Rl (bind m k).
Proof.
  intros Hm Hk s. specialize (Hm s). rewrite run_bind.
  destruct (m s) as [[[a | e |] s1] t1]; cbn in *; trivial.
  specialize (Hk a s1). destruct (k a s1) as [[o s2] t2]; cbn in *.
  eapply rl_trans; eassumption.
Qed.

Lemma respects_try_except {A} (m : M A) (h : EC2ResponseError -> M A) :
  respects Rl m -> (forall e, respects Rl (h e)) -> respects Rl (try_except m h).
Proof.
  intros Hm Hh s. specialize (Hm s). unfold try_except.
  destruct (m s) as [[[a | e |] s1] t1]; cbn in *; trivial.
  destruct e; cbn; trivial.
  specialize (Hh e s1). destruct (h e s1) as [[o s2] t2]; cbn in *.
  eapply rl_trans; eassumption.
Qed.

Lemma respects_item0 {A} (l : list A) : respects Rl (item0 l).
Proof. destruct l; [apply respects_raise | apply respects_ret]. Qed.

Lemma respects_of_sum {A} (r : Exn + A) : respects Rl (of_sum r).
Proof. destruct r; [apply respects_raise | apply respects_ret]. Qed.

Lemma respects_the_instance : respects Rl the_instance.
Proof.
  apply respects_bind; [apply respects_get_self | intros o].
  destruct (instance o); [apply respects_ret | apply respects_raise].
Qed.

End Respects.

(** ** The three relations compose, and the primitive steps keep them *)

Section Primitives.

Context {platform : Platform}.

#[global] Instance no_launch_compositional : Compositional no_launch.
Proof.
  split; unfold no_launch.
  - constructor.
  - intros. apply Forall_app. auto.
Qed.

#[global] Instance same_self_compositional : Compositional same_self.
Proof. split; unfold same_self; [reflexivity | intros; congruence]. Qed.

#[global] Instance same_ami_compositional : Compositional same_ami.
Proof. split; unfold same_ami; [reflexivity | intros; congruence]. Qed.

Lemma call_no_launch (c : Call) :
  is_launch c = false -> respects no_launch (call c).
Proof.
  intros H s. rewrite run_call. unfold no_launch, calls_of. cbn. auto.
Qed.

Lemma modify_no_launch (f : Self -> Self) : respects no_launch (modify_self f).
Proof. intros s. constructor. Qed.

Lemma sleep_no_launch (dt : Z) : respects no_launch (sleep dt).
Proof. intros s. constructor. Qed.

Lemma call_same_self (c : Call) : respects same_self (call c).
Proof. intros s. rewrite run_call. reflexivity. Qed.

Lemma sleep_same_self (dt : Z) : respects same_self (sleep dt).
Proof. intros s. reflexivity. Qed.

Lemma call_same_ami (c : Call) : respects same_ami (call c).
Proof. intros s. rewrite run_call. reflexivity. Qed.

Lemma sleep_same_ami (dt : Z) : respects same_ami (sleep dt).
Proof. intros s. reflexivity. Qed.

Lemma modify_same_ami (f : Self -> Self) :
  (forall o, ami (f o) = ami o) -> respects same_ami (modify_self f).
Proof. intros H s. unfold same_ami. cbn. apply H. Qed.

End Primitives.

(** Running one step of a computation whose first part makes no call and
    leaves the state alone. *)
Ltac run_pure :=
  match goal with
  | |- context [bind ?m ?k ?s] => erewrite (run_bind_pure m k s) by reflexivity
  end.

(** One structural step of a [respects] goal; the procedures already
    treated are taken from the hint database. *)
Create HintDb respects.

Ltac rl_apply L := apply L; [ exact _ | .. ].

Ltac respects_step :=
  first
    [ assumption
    | solve [ auto 1 with respects nocore ]
    | progress cbv zeta
    | rl_apply respects_ret
    | rl_apply respects_raise
    | rl_apply respects_diverge
    | rl_apply respects_get_self
    | rl_apply respects_time_time
    | rl_apply respects_item0
    | rl_apply respects_of_sum
    | rl_apply respects_the_instance
    | match goal with
      | |- respects no_launch (call ?c) => exact (call_no_launch c eq_refl)
      | |- respects same_self (call ?c) => exact (call_same_self c)
      | |- respects same_ami (call ?c) => exact (call_same_ami c)
      end
    | apply modify_no_launch
    | apply sleep_no_launch
    | apply sleep_same_self
    | apply sleep_same_ami
    | apply modify_same_ami; reflexivity
    | rl_apply respects_bind; [ | intros ]
    | rl_apply respects_try_except; [ | intros ]
    | match goal with
      | |- respects _ (match ?x with _ => _ end) => destruct x
      | |- respects _ (if ?b then _ else _) => destruct b
      end ].

Ltac respects_auto := repeat respects_step.

(** ** No procedure behind a launch launches again *)

Section NoLaunch.

Context {platform : Platform}.

Lemma update_self_instance_no_launch : respects no_launch update_self_instance.
Proof. unfold update_self_instance. respects_auto. Qed.
#[local] Hint Resolve update_self_instance_no_launch : respects.

Lemma get_image_no_launch : respects no_launch get_image.
Proof. unfold get_image. respects_auto. Qed.
#[local] Hint Resolve get_image_no_launch : respects.

Lemma _handle_delete_on_term_no_launch : respects no_launch _handle_delete_on_term.
Proof. unfold _handle_delete_on_term. respects_auto. Qed.
#[local] Hint Resolve _handle_delete_on_term_no_launch : respects.

Lemma wait_for_volume_no_launch fuel interval new_vol vol :
  respects no_launch (wait_for_volume fuel interval new_vol vol).
Proof.
  revert vol. induction fuel as [| fuel IH]; intros vol; cbn [wait_for_volume];
    respects_auto.
Qed.
#[local] Hint Resolve wait_for_volume_no_launch : respects.

Lemma _create_volumes_loop_no_launch fuel todo :
  respects no_launch (_create_volumes_loop fuel todo).
Proof.
  induction todo as [| [[device_node volume_size] region] todo IH];
    cbn [_create_volumes_loop]; respects_auto.
Qed.
#[local] Hint Resolve _create_volumes_loop_no_launch : respects.

Lemma _attach_volumes_loop_no_launch todo :
  respects no_launch (_attach_volumes_loop todo).
Proof.
  induction todo as [| [vol device_node] todo IH];
    cbn [_attach_volumes_loop]; respects_auto.
Qed.
#[local] Hint Resolve _attach_volumes_loop_no_launch : respects.

Lemma _handle_volumes_no_launch fuel : respects no_launch (_handle_volumes fuel).
Proof.
  unfold _handle_volumes, _create_volumes, _attach_volumes. respects_auto.
Qed.
#[local] Hint Resolve _handle_volumes_no_launch : respects.

Lemma wait_while_pending_no_launch fuel interval duration :
  respects no_launch (wait_while_pending fuel interval duration).
Proof.
  revert duration. induction fuel as [| fuel IH]; intros duration;
    cbn [wait_while_pending]; respects_auto.
Qed.
#[local] Hint Resolve wait_while_pending_no_launch : respects.

Lemma _wait_for_instance_no_launch fuel image_dot_id :
  respects no_launch (_wait_for_instance fuel image_dot_id).
Proof. unfold _wait_for_instance. respects_auto. Qed.
#[local] Hint Resolve _wait_for_instance_no_launch : respects.

Lemma find_request_no_launch fuel interval attempts reservation :
  respects no_launch (find_request fuel interval attempts reservation).
Proof.
  revert attempts. induction fuel as [| fuel IH]; intros attempts;
    cbn [find_request]; respects_auto.
Qed.
#[local] Hint Resolve find_request_no_launch : respects.

Lemma wait_while_request_pending_no_launch fuel interval duration request :
  respects no_launch (wait_while_request_pending fuel interval duration request).
Proof.
  revert duration request. induction fuel as [| fuel IH]; intros duration request;
    cbn [wait_while_request_pending]; respects_auto.
Qed.
#[local] Hint Resolve wait_while_request_pending_no_launch : respects.

Lemma _wait_for_request_no_launch fuel reservation :
  respects no_launch (_wait_for_request fuel reservation).
Proof. unfold _wait_for_request. respects_auto. Qed.
#[local] Hint Resolve _wait_for_request_no_launch : respects.


(** What follows the spot request in [_request_spot_instance]. *)
Lemma after_spot_request_no_launch fuel (reservations : list SpotInstanceRequest) :
  respects no_launch
    (reservation <- item0 reservations ;;
     request <- _wait_for_request fuel reservation ;;
     let instance_id := request_instance_id request in
     reservations <- call (get_all_instances [instance_id]) ;;
     r0 <- item0 reservations ;;
     i <- item0 (instances r0) ;;
     modify_self (set_instance (Some i)) ;;
     image <- get_image ;;
     r <- _wait_for_instance fuel (image_id image) ;;
     ret (result_tuple r)).
Proof. respects_auto. Qed.

(** The run of [_request_spot_instance], up to and including the request. *)
Lemma _request_spot_instance_run fuel (s : State) :
  let c1 := get_spot_price_history (now s - 86400) "Linux/UNIX (Amazon VPC)"
                                   (placement (self s)) in
  let s1 := with_conn s (snd (conn_reply c1 (conn s))) in
  match fst (conn_reply c1 (conn s)) with
  | inl e => _request_spot_instance fuel s = (Raise (EC2Error e), s1, [c1])
  | inr spot_prices =>
      let target := target_price (self s) spot_prices in
      if (max_spot_price (self s) <? target)%float
      then _request_spot_instance fuel s =
           (Raise (LatentBuildSlaveFailedToSubstantiate []), s1, [c1])
      else exists rest,
          calls_of (_request_spot_instance fuel s) =
          c1 :: request_spot_instances target (ami (self s)) (launch_params (self s))
             :: rest
          /\ Forall (fun c => is_launch c = false) rest
  end.
Proof.
  intros c1 s1. unfold _request_spot_instance.
  rewrite (run_bind_pure time_time _ s (now s) eq_refl).
  rewrite (run_bind_pure get_self _ s (self s) eq_refl).
  rewrite run_bind_call. fold c1. fold s1.
  destruct (fst (conn_reply c1 (conn s))) as [e | spot_prices]; [reflexivity |].
  cbv zeta.
  destruct (max_spot_price (self s) <? target_price (self s) spot_prices)%float.
  - reflexivity.
  - rewrite run_bind_call. unfold calls_of at 1. cbn [snd].
    destruct (fst (conn_reply (request_spot_instances _ _ _) (conn s1))) as [e | v].
    + exists []. split; [reflexivity | constructor].
    + eexists. split; [reflexivity |].
      apply (after_spot_request_no_launch fuel v).
Qed.

End NoLaunch.

(** ** The spot bid *)

Section SpotBid.

Context {platform : Platform}.

(** A bid equal to the ceiling does not exceed it. *)
Lemma equal_does_not_exceed (bid ceiling : float) :
  (bid =? ceiling)%float = true -> (ceiling <? bid)%float = false.
Proof.
  rewrite FloatAxioms.eqb_spec, FloatAxioms.ltb_spec.
  unfold SpecFloat.SFeqb, SpecFloat.SFltb, SpecFloat.SFcompare.
  destruct (Prim2SF bid) as [[|] | [|] | | [|] m1 e1];
    destruct (Prim2SF ceiling) as [[|] | [|] | | [|] m2 e2];
    try discriminate; try reflexivity.
  - change (PosDef.Pos.compare_cont Eq m2 m1) with (Pos.compare m2 m1).
    change (PosDef.Pos.compare_cont Eq m1 m2) with (Pos.compare m1 m2).
    rewrite (Z.compare_antisym e1 e2), (Pos.compare_antisym m1 m2).
    destruct (e1 ?= e2)%Z; try discriminate; cbn.
    destruct (m1 ?= m2)%positive; try discriminate; reflexivity.
  - change (PosDef.Pos.compare_cont Eq m2 m1) with (Pos.compare m2 m1).
    change (PosDef.Pos.compare_cont Eq m1 m2) with (Pos.compare m1 m2).
    rewrite (Z.compare_antisym e1 e2), (Pos.compare_antisym m1 m2).
    destruct (e1 ?= e2)%Z; try discriminate; cbn.
    destruct (m1 ?= m2)%positive; try discriminate; reflexivity.
Qed.

(** The loop adds up the matching prices from the left and counts them. *)
Lemma sum_prices_matching wanted history price_sum price_count :
  sum_prices wanted history price_sum price_count =
  (fold_left PrimFloat.add (Spec.matching_prices wanted history) price_sum,
   (price_count + Z.of_nat (List.length (Spec.matching_prices wanted history)))%Z).
Proof.
  revert price_sum price_count.
  induction history as [| p history IH]; intros price_sum price_count;
    unfold Spec.matching_prices in *; cbn [sum_prices filter map fold_left List.length].
  - rewrite Z.add_0_r. reflexivity.
  - destruct (price_instance_type p =? wanted);
      cbn [map fold_left List.length]; rewrite IH; [| reflexivity].
    f_equal. lia.
Qed.

Lemma target_price_spec (o : Self) (history : list SpotPriceHistory) :
  target_price o history =
  Spec.target_bid (instance_type o) (price_multiplier o) history.
Proof.
  unfold target_price, Spec.target_bid, Spec.mean.
  rewrite sum_prices_matching.
  destruct (Spec.matching_prices (instance_type o) history) as [| p ps];
    [reflexivity |].
  cbn [List.length]. rewrite Z.add_0_l.
  destruct (Z.of_nat (S (List.length ps)) =? 0)%Z eqn:E; [| reflexivity].
  apply Z.eqb_eq in E. lia.
Qed.

(** C2.  On the spot path, once the service has answered the price-history
    query with [spot_prices]: the bid is exactly 0.02 when no entry is for
    the configured instance type, and otherwise the mean of the matching
    prices times the price multiplier; a bid strictly above
    [max_spot_price] raises [LatentBuildSlaveFailedToSubstantiate] with the
    history query as the only call made; a bid that is not above it, in
    particular one equal to it, is followed by the spot request at that
    bid, and nothing after it launches again. *)
Theorem spot_bid_and_ceiling (fuel : nat) (s : State)
        (spot_prices : list SpotPriceHistory) (svc : Service) :
  conn_reply (get_spot_price_history (now s - 86400) "Linux/UNIX (Amazon VPC)"
                                     (placement (self s))) (conn s)
  = (inr spot_prices, svc) ->
  (Spec.matching_prices (instance_type (self s)) spot_prices = [] ->
   target_price (self s) spot_prices = 0.02%float)
  /\ (Spec.matching_prices (instance_type (self s)) spot_prices <> [] ->
      target_price (self s) spot_prices =
      (Spec.mean (Spec.matching_prices (instance_type (self s)) spot_prices)
       * price_multiplier (self s))%float)
  /\ ((max_spot_price (self s) <? target_price (self s) spot_prices)%float = true ->
      _request_spot_instance fuel s =
      (Raise (LatentBuildSlaveFailedToSubstantiate []), with_conn s svc,
       [get_spot_price_history (now s - 86400) "Linux/UNIX (Amazon VPC)"
                               (placement (self s))]))
  /\ ((max_spot_price (self s) <? target_price (self s) spot_prices)%float = false
      \/ (target_price (self s) spot_prices =? max_spot_price (self s))%float = true ->
      exists rest,
        calls_of (_request_spot_instance fuel s) =
        get_spot_price_history (now s - 86400) "Linux/UNIX (Amazon VPC)"
                               (placement (self s))
        :: request_spot_instances (target_price (self s) spot_prices)
                                  (ami (self s)) (launch_params (self s))
        :: rest
        /\ Forall (fun c => is_launch c = false) rest).
Proof.
  intros Hreply.
  pose proof (_request_spot_instance_run fuel s) as Hrun.
  cbv zeta in Hrun. rewrite Hreply in Hrun. cbn [fst snd] in Hrun.
  repeat split.
  - intros E. rewrite target_price_spec. unfold Spec.target_bid.
    rewrite E. reflexivity.
  - intros E. rewrite target_price_spec. unfold Spec.target_bid.
    destruct (Spec.matching_prices _ _); [congruence | reflexivity].
  - intros E. rewrite E in Hrun. exact Hrun.
  - intros E.
    assert (E' : (max_spot_price (self s) <? target_price (self s) spot_prices)%float
                 = false)
      by (destruct E as [E | E]; [exact E | apply equal_does_not_exceed, E]).
    rewrite E' in Hrun. exact Hrun.
Qed.

End SpotBid.

(** A history of 1.0 and 2.0 for the instance type gives the bid
    1.5 * 1.2, above the ceiling 1.6: the request is not made. *)
Lemma spot_bid_and_ceiling_witness :
  @conn_reply (Examples.stateless (Examples.history [1%float; 2%float]))
    (get_spot_price_history (1000000 - 86400) "Linux/UNIX (Amazon VPC)" None)
    (Examples.svc _)
  = (inr [ {| price_instance_type := "m1.large"; price := 1 |};
           {| price_instance_type := "m1.large"; price := 2 |};
           {| price_instance_type := "t1.micro"; price := 9 |} ], Examples.svc _)
  /\ _request_spot_instance 10
       (Examples.idle (Examples.stateless (Examples.history [1%float; 2%float]))
                      (Examples.svc _) true)
     = (Raise (LatentBuildSlaveFailedToSubstantiate []),
        Examples.idle (Examples.stateless (Examples.history [1%float; 2%float]))
                      (Examples.svc _) true,
        [get_spot_price_history (1000000 - 86400) "Linux/UNIX (Amazon VPC)" None]).
Proof.
  split; [reflexivity |].
  apply (proj1 (proj2 (proj2
           (spot_bid_and_ceiling
              (platform := Examples.stateless (Examples.history [1%float; 2%float]))
              10 (Examples.idle _ (Examples.svc _) true) _ (Examples.svc _) eq_refl)))).
  vm_compute. reflexivity.
Defined.

(** A bid at the fallback that equals the ceiling is requested. *)
Example bid_equal_to_ceiling_is_requested :
  calls_of
    (_request_spot_instance 10
       (with_self (Examples.idle Examples.quiet (Examples.svc _) true)
          {| ami := Some "ami-1"; valid_ami_owners := None;
             valid_ami_location_regex := None;
             instance_type := "m1.large"; keypair_name := "k";
             security_name := None; user_data := None;
             spot_instance := true; max_spot_price := 0.02; volumes := [];
             price_multiplier := 1.2; delete_vol_term := true; create_volumes := [];
             placement := None; elastic_ip := None; subnet_id := None;
             security_group_ids := None; classic_security_groups := None;
             tags := []; block_device_map := None; image := Some Examples.ami_1;
             instance := None; output := None;
             _poll_resolution := 5; _poll_retry := 10 |}))
  = [ get_spot_price_history (1000000 - 86400) "Linux/UNIX (Amazon VPC)" None;
      request_spot_instances 0.02 (Some "ami-1")
        {| lp_key_name := "k"; lp_security_groups := None;
           lp_instance_type := "m1.large"; lp_user_data := None;
           lp_placement := None; lp_subnet_id := None;
           lp_security_group_ids := None; lp_block_device_map := None |} ].
Proof. vm_compute. reflexivity. Qed.

(** ** The image passed to the spot request *)

Section SpotImage.

Context {platform : Platform}.

Lemma get_image_same_ami : respects same_ami get_image.
Proof. unfold get_image. respects_auto. Qed.
#[local] Hint Resolve get_image_same_ami : respects.

(** [__init__] writes [self.ami] once, from its argument. *)
Lemma __init___ami (cfg : Config) (os : Os) (s s' : State) (calls : list Call) :
  __init__ cfg os s = (Return tt, s', calls) -> ami (self s') = cfg_ami cfg.
Proof.
  unfold __init__. intros H.
  apply bind_Return_inv in H. destruct H as (_ & s1 & t1 & t1' & _ & H & _).
  apply bind_Return_inv in H. destruct H as (_ & s2 & t2 & t2' & _ & H & _).
  apply bind_Return_inv in H. destruct H as (owners & s3 & t3 & t3' & _ & H & _).
  apply bind_Return_inv in H. destruct H as (regex & s4 & t4 & t4' & _ & H & _).
  cbv zeta in H.
  apply bind_Return_inv in H. destruct H as ([] & s5 & t5 & t5' & Hset & H & _).
  unfold modify_self in Hset. inversion Hset; subst s5 t5; clear Hset.
  match type of H with
  | ?rest _ = _ =>
      assert (Hrest : respects same_ami rest) by respects_auto;
      specialize (Hrest (with_self s4 (assign_arguments cfg owners regex
                           (Some match cfg_keypair_name cfg with
                                 | Some k => k
                                 | None => "latent_buildbot_slave"
                                 end)
                           match cfg_security_name cfg with
                           | Some n => Some n
                           | None => if negb (Py.truthy (cfg_subnet_id cfg))
                                     then Some "latent_buildbot_slave" else None
                           end (self s4))))
  end.
  unfold with_self in Hrest. rewrite H in Hrest. exact Hrest.
Qed.

(** C9.  On the spot path the image handed to [request_spot_instances] is
    [self.ami]: the calls are the price-history query alone, or that query,
    then the one spot request carrying [self.ami], then calls that launch
    nothing (the image lookup of [get_image] is among these, after the
    request).  [self.ami] is the [ami] argument of the constructor, so a
    controller built from selection constraints requests with [None]. *)
Theorem spot_request_image_is_ami (fuel : nat) (s : State)
        (cfg : Config) (os : Os) (svc : Service) (t t' : Z) :
  (calls_of (_request_spot_instance fuel s) =
   [get_spot_price_history (now s - 86400) "Linux/UNIX (Amazon VPC)"
                           (placement (self s))]
   \/ exists target rest,
       calls_of (_request_spot_instance fuel s) =
       get_spot_price_history (now s - 86400) "Linux/UNIX (Amazon VPC)"
                              (placement (self s))
       :: request_spot_instances target (ami (self s)) (launch_params (self s))
       :: rest
       /\ Forall (fun c => is_launch c = false) rest)
  /\ (forall price img params,
         In (request_spot_instances price img params)
            (calls_of (_request_spot_instance fuel s)) ->
         img = ami (self s))
  /\ (forall o,
         outcome_of (EC2LatentBuildSlave cfg os svc t) = Return o ->
         ami o = cfg_ami cfg
         /\ (cfg_ami cfg = None ->
             forall price img params,
               In (request_spot_instances price img params)
                  (calls_of (_request_spot_instance fuel
                               {| self := o;
                                  conn := state_of (EC2LatentBuildSlave cfg os svc t);
                                  now := t' |})) ->
               img = None)).
Proof.
  assert (Hshape : forall s0 : State,
             calls_of (_request_spot_instance fuel s0) =
             [get_spot_price_history (now s0 - 86400) "Linux/UNIX (Amazon VPC)"
                                     (placement (self s0))]
             \/ exists target rest,
                 calls_of (_request_spot_instance fuel s0) =
                 get_spot_price_history (now s0 - 86400) "Linux/UNIX (Amazon VPC)"
                                        (placement (self s0))
                 :: request_spot_instances target (ami (self s0))
                                           (launch_params (self s0))
                 :: rest
                 /\ Forall (fun c => is_launch c = false) rest).
  { intros s0. pose proof (_request_spot_instance_run fuel s0) as Hrun.
    cbv zeta in Hrun.
    destruct (fst (conn_reply _ (conn s0))) as [e | spot_prices].
    - left. rewrite Hrun. reflexivity.
    - destruct (max_spot_price (self s0) <? _)%float.
      + left. rewrite Hrun. reflexivity.
      + right. destruct Hrun as (rest & Hcalls & Hrest). eauto. }
  assert (Himg : forall (s0 : State) price img params,
             In (request_spot_instances price img params)
                (calls_of (_request_spot_instance fuel s0)) ->
             img = ami (self s0)).
  { intros s0 price img params Hin.
    destruct (Hshape s0) as [E | (target & rest & E & Hrest)]; rewrite E in Hin.
    - destruct Hin as [Hin | []]. discriminate.
    - destruct Hin as [Hin | [Hin | Hin]]; [discriminate | congruence |].
      rewrite Forall_forall in Hrest. apply Hrest in Hin. discriminate. }
  split; [apply Hshape |]. split; [apply Himg |].
  intros o Ho.
  assert (Hami : ami o = cfg_ami cfg).
  { unfold EC2LatentBuildSlave, outcome_of in Ho.
    destruct (__init__ cfg os _) as [[[[] | e |] s1] calls] eqn:Hinit;
      cbn in Ho; try discriminate.
    inversion Ho; subst o. eapply __init___ami. exact Hinit. }
  split; [exact Hami |].
  intros Hnone price img params Hin. apply Himg in Hin. cbn in Hin. congruence.
Qed.

End SpotImage.

(** A controller built from an owner and a pattern, then started on the
    spot path: the request carries no image, and the listing of images
    comes after it. *)
Lemma spot_request_image_is_ami_witness :
  outcome_of (EC2LatentBuildSlave (platform := Examples.stateless Examples.selection_then_spot)
                Examples.constraints_only Examples.no_files (Examples.svc _) 0)
  = Return (Examples.selecting ".-(\d+)" true)
  /\ ami (Examples.selecting ".-(\d+)" true) = None
  /\ calls_of (_request_spot_instance 10
                 {| self := Examples.selecting ".-(\d+)" true;
                    conn := Examples.svc Examples.selection_then_spot;
                    now := 1000000 |})
     = [ get_spot_price_history (1000000 - 86400) "Linux/UNIX (Amazon VPC)" None;
         request_spot_instances 0.02 None
           (launch_params (Examples.selecting ".-(\d+)" true));
         get_all_spot_instance_requests ["sir-1"];
         get_all_instances [Some "i-1"];
         get_all_images (Some [42%Z]);
         instance_get_console_output "i-1";
         get_instance_attribute "i-1" "blockDeviceMapping";
         get_instance_attribute "i-1" "blockDeviceMapping" ].
Proof.
  split; [vm_compute; reflexivity |].
  split; [| vm_compute; reflexivity].
  apply (proj2 (proj2
           (spot_request_image_is_ami
              (platform := Examples.stateless Examples.selection_then_spot)
              10 (Examples.idle _ (Examples.svc _) true)
              Examples.constraints_only Examples.no_files (Examples.svc _) 0 0))
           (Examples.selecting ".-(\d+)" true)).
  vm_compute. reflexivity.
Defined.

(** ** start_instance and stop_instance *)

Section StartStop.

Context {platform : Platform}.

(** C1.  With an instance already owned, [start_instance] raises
    [ValueError('instance active')] at once: the state is untouched, no call
    is made on the service, and no [Deferred] (hence no task for the thread
    pool) comes back. *)
Theorem start_instance_while_active (s : State) :
  instance (self s) <> None ->
  start_instance s = (Raise (ValueError "instance active"), s, []).
Proof.
  intros H. unfold start_instance.
  rewrite (run_bind_pure get_self _ s (self s) eq_refl).
  destruct (instance (self s)); [reflexivity | congruence].
Qed.

(** C5.  Without an instance, [stop_instance] returns
    [defer.succeed(None)]: the state is untouched and no call is made, and
    firing that Deferred yields [None] without a call either. *)
Theorem stop_instance_without_instance (fast : bool) (fuel : nat) (s : State) :
  instance (self s) = None ->
  stop_instance fast s = (Return succeed_None, s, [])
  /\ fire fuel succeed_None s = (Return result_None, s, []).
Proof.
  intros H. split; [| reflexivity].
  unfold stop_instance.
  rewrite (run_bind_pure get_self _ s (self s) eq_refl), H. reflexivity.
Qed.

Lemma wait_until_goal_same_self fuel interval goal i :
  respects same_self (wait_until_goal fuel interval goal i).
Proof.
  revert i. induction fuel as [| fuel IH]; intros i; cbn [wait_until_goal];
    respects_auto.
Qed.
#[local] Hint Resolve wait_until_goal_same_self : respects.

(** The teardown reads [self] and never writes it. *)
Lemma _stop_instance_same_self fuel i fast :
  respects same_self (_stop_instance fuel i fast).
Proof. unfold _stop_instance. respects_auto. Qed.

(** C10.  With an instance [i] owned, [stop_instance] clears
    [self.instance] and [self.output] before it returns the Deferred of the
    teardown, and writes nothing else: putting the two old values back gives
    the old object.  The teardown, however it ends (return, exception or
    still waiting), leaves every attribute as it finds it, so the two stay
    cleared; and [start_instance] is accepted right after [stop_instance]
    returns. *)
Theorem stop_instance_clears_before_teardown (fast : bool) (s : State) (i : Instance) :
  instance (self s) = Some i ->
  stop_instance fast s =
  (Return (deferToThread (task_stop_instance i fast)),
   with_self s (set_instance None (set_output None (self s))),
   [])
  /\ instance (self (state_of (stop_instance fast s))) = None
  /\ output (self (state_of (stop_instance fast s))) = None
  /\ set_instance (instance (self s))
       (set_output (output (self s)) (self (state_of (stop_instance fast s))))
     = self s
  /\ (forall fuel (s1 : State),
         self (state_of (_stop_instance fuel i fast s1)) = self s1)
  /\ (forall fuel svc' t',
         let s1 := {| self := self (state_of (stop_instance fast s));
                      conn := svc'; now := t' |} in
         instance (self (state_of (run_task fuel (task_stop_instance i fast) s1)))
         = None
         /\ output (self (state_of (run_task fuel (task_stop_instance i fast) s1)))
            = None)
  /\ outcome_of (start_instance (state_of (stop_instance fast s))) =
     Return (deferToThread (if spot_instance (self s)
                            then task_request_spot_instance
                            else task_start_instance)).
Proof.
  intros H.
  assert (E : stop_instance fast s =
              (Return (deferToThread (task_stop_instance i fast)),
               with_self s (set_instance None (set_output None (self s))), [])).
  { unfold stop_instance.
    rewrite (run_bind_pure get_self _ s (self s) eq_refl), H. reflexivity. }
  rewrite E. cbn [state_of fst snd with_self self].
  split; [reflexivity |]. split; [reflexivity |]. split; [reflexivity |].
  split; [destruct (self s); reflexivity |].
  split; [intros fuel s1; apply (_stop_instance_same_self fuel i fast s1) |].
  split.
  - intros fuel svc' t'. cbv zeta. cbn [run_task].
    match goal with
    | |- context [bind (_stop_instance fuel i fast) ?k ?s1] =>
        assert (Hk : respects same_self (bind (_stop_instance fuel i fast) k))
          by (rl_apply respects_bind;
              [apply _stop_instance_same_self | intros; respects_auto]);
        specialize (Hk s1); unfold same_self in Hk; rewrite Hk
    end.
    split; reflexivity.
  - unfold start_instance, outcome_of.
    rewrite run_bind. cbn. destruct (spot_instance (self s)); reflexivity.
Qed.

End StartStop.

Lemma start_instance_while_active_witness :
  instance (self (Examples.busy Examples.quiet (Examples.svc _) false)) <> None
  /\ start_instance (Examples.busy Examples.quiet (Examples.svc _) false)
     = (Raise (ValueError "instance active"),
        Examples.busy Examples.quiet (Examples.svc _) false, []).
Proof.
  split; [discriminate |].
  apply (start_instance_while_active (platform := Examples.quiet)). discriminate.
Defined.

Lemma stop_instance_without_instance_witness :
  instance (self (Examples.idle Examples.quiet (Examples.svc _) false)) = None
  /\ stop_instance true (Examples.idle Examples.quiet (Examples.svc _) false)
     = (Return succeed_None, Examples.idle Examples.quiet (Examples.svc _) false, []).
Proof.
  split; [reflexivity |].
  apply (stop_instance_without_instance (platform := Examples.quiet) true 0).
  reflexivity.
Defined.

Lemma stop_instance_clears_before_teardown_witness :
  instance (self (Examples.busy Examples.quiet (Examples.svc _) false))
  = Some (Examples.i_1 RUNNING)
  /\ stop_instance true (Examples.busy Examples.quiet (Examples.svc _) false)
     = (Return (deferToThread (task_stop_instance (Examples.i_1 RUNNING) true)),
        Examples.idle Examples.quiet (Examples.svc _) false, []).
Proof.
  split; [reflexivity |].
  apply (stop_instance_clears_before_teardown (platform := Examples.quiet) true
           (Examples.busy Examples.quiet (Examples.svc _) false)
           (Examples.i_1 RUNNING) eq_refl).
Defined.

(** ** The constructor *)

Section Construction.

Context {platform : Platform}.

(** C6.  The constructor accepts its arguments only if exactly one of an
    explicit [ami] and the selection constraints ([valid_ami_owners] or
    [valid_ami_location_regex]) is given.  With both, or with neither, it
    raises [ValueError] before any call is made on the service, so nothing
    is launched and no object exists to launch from. *)
Theorem constructor_wants_exactly_one (cfg : Config) (os : Os) (svc : Service) (t : Z) :
  (Spec.exactly_one cfg = false ->
   exists msg,
     EC2LatentBuildSlave cfg os svc t = (Raise (ValueError msg), svc, []))
  /\ (forall o,
         outcome_of (EC2LatentBuildSlave cfg os svc t) = Return o ->
         Spec.exactly_one cfg = true).
Proof.
  assert (Hfail : Spec.exactly_one cfg = false ->
                  exists msg,
                    EC2LatentBuildSlave cfg os svc t =
                    (Raise (ValueError msg), svc, [])).
  { intros E. unfold EC2LatentBuildSlave, __init__.
    unfold Spec.exactly_one, Spec.explicit_image, Spec.selection_constraints in E.
    destruct (Py.truthy (cfg_security_name cfg) && Py.truthy (cfg_subnet_id cfg)).
    - eexists. erewrite run_bind_Raise by reflexivity. reflexivity.
    - erewrite run_bind_pure by reflexivity. rewrite E. cbn [negb].
      eexists. erewrite run_bind_Raise by reflexivity. reflexivity. }
  split; [exact Hfail |].
  intros o Ho. destruct (Spec.exactly_one cfg); [reflexivity |].
  destruct (Hfail eq_refl) as [msg E]. rewrite E in Ho. discriminate.
Qed.

End Construction.

(** An [ami] together with [valid_ami_owners] is refused. *)
Lemma constructor_wants_exactly_one_witness :
  Spec.exactly_one Examples.both_set = false
  /\ exists msg,
      EC2LatentBuildSlave (platform := Examples.quiet)
        Examples.both_set Examples.no_files (Examples.svc _) 0
      = (Raise (ValueError msg), Examples.svc _, []).
Proof.
  split; [reflexivity |].
  apply (proj1 (constructor_wants_exactly_one (platform := Examples.quiet)
                  Examples.both_set Examples.no_files (Examples.svc _) 0)).
  reflexivity.
Defined.

(** ** An instance that never runs *)

Section NeverRunning.

Context {platform : Platform}.

(** With an instance that is neither pending nor running,
    [_wait_for_instance] returns [(None, None, None)] at once. *)
Lemma _wait_for_instance_not_running fuel image_dot_id (s : State) (i : Instance) :
  instance (self s) = Some i ->
  (instance_state i =? PENDING) = false ->
  (instance_state i =? RUNNING) = false ->
  _wait_for_instance fuel image_dot_id s = (Return (None, None, None), s, []).
Proof.
  intros Hi Hp Hr. unfold _wait_for_instance.
  rewrite (run_bind_pure get_self _ s (self s) eq_refl). cbv zeta.
  assert (Hthe : the_instance s = (Return i, s, [])).
  { unfold the_instance.
    rewrite (run_bind_pure get_self _ s (self s) eq_refl), Hi. reflexivity. }
  assert (Hwait : wait_while_pending fuel (_poll_resolution (self s)) 0 s
                  = (Return 0%Z, s, [])).
  { destruct fuel; cbn [wait_while_pending];
      rewrite (run_bind_pure _ _ s i Hthe), Hp; reflexivity. }
  rewrite (run_bind_pure _ _ s 0%Z Hwait).
  rewrite (run_bind_pure _ _ s i Hthe), Hr. reflexivity.
Qed.

(** The on-demand path turns that triple into the exception: when the
    instance launched is already in a state that is neither pending nor
    running, [_start_instance] raises
    [LatentBuildSlaveFailedToSubstantiate(instance.id, instance.state)]. *)
Lemma _start_instance_raises_when_not_running fuel (s : State) (img : Image)
      (reservation : Reservation) (svc : Service) (i : Instance) (rest : list Instance) :
  image (self s) = Some img ->
  conn_reply (image_run (image_id img) (launch_params (self s))) (conn s)
  = (inr reservation, svc) ->
  instances reservation = i :: rest ->
  (instance_state i =? PENDING) = false ->
  (instance_state i =? RUNNING) = false ->
  _start_instance fuel s =
  (Raise (LatentBuildSlaveFailedToSubstantiate [instance_id i; instance_state i]),
   {| self := set_instance (Some i) (self s); conn := svc; now := now s |},
   [image_run (image_id img) (launch_params (self s))]).
Proof.
  intros Himg Hreply Hinst Hp Hr. unfold _start_instance.
  assert (Hget : get_image s = (Return img, s, [])).
  { unfold get_image.
    rewrite (run_bind_pure get_self _ s (self s) eq_refl), Himg. reflexivity. }
  rewrite (run_bind_pure _ _ s img Hget).
  rewrite (run_bind_pure get_self _ s (self s) eq_refl).
  rewrite run_bind_call, Hreply. cbn [fst snd]. cbv zeta.
  rewrite Hinst. cbn [item0].
  run_pure.
  rewrite (run_bind_Return (modify_self (set_instance (Some i))) _ _ _ tt [] eq_refl).
  match goal with
  | |- context [bind (_wait_for_instance fuel ?x) ?k ?s1] =>
      rewrite (run_bind_pure _ k s1 _
                 (_wait_for_instance_not_running fuel x s1 i eq_refl Hp Hr))
  end.
  unfold the_instance. run_pure.
  reflexivity.
Qed.

End NeverRunning.

(** On demand: a pending instance that is reported terminated at the first
    refresh makes [_start_instance] raise with its id and state. *)
Example on_demand_never_running_raises :
  outcome_of (_start_instance 10
                (Examples.idle (Examples.stateless Examples.launched_then_terminated)
                               (Examples.svc _) false))
  = Raise (LatentBuildSlaveFailedToSubstantiate ["i-1"; "terminated"]).
Proof. vm_compute. reflexivity. Qed.

(** C4.  The spot path at the same course of events: the request is
    fulfilled, the instance is pending and is reported terminated at the
    first refresh.  [_request_spot_instance] returns the value of
    [_wait_for_instance] as it is, so the task ends with the result
    [(None, None, None)] and raises nothing, while the on-demand path
    raises (see [on_demand_never_running_raises]). *)
Theorem spot_never_running_returns_None_triple :
  outcome_of (fire 10 (deferToThread task_request_spot_instance)
                (Examples.idle (Examples.stateless Examples.fulfilled_then_terminated)
                               (Examples.svc _) true))
  = Return (result_tuple (None, None, None))
  /\ instance (self (state_of
       (fire 10 (deferToThread task_request_spot_instance)
          (Examples.idle (Examples.stateless Examples.fulfilled_then_terminated)
                         (Examples.svc _) true))))
     = Some (Examples.i_1 TERMINATED)
  /\ outcome_of (start_instance
                   (Examples.idle (Examples.stateless Examples.fulfilled_then_terminated)
                                  (Examples.svc _) true))
     = Return (deferToThread task_request_spot_instance).
Proof. vm_compute. repeat split. Qed.

(** ** A spot request that never becomes visible *)

(** C8.  The service answers every query for the spot request with
    [InvalidSpotInstanceRequestID.NotFound] and [_poll_retry] is 10: after
    ten queries the first loop of [_wait_for_request] ends with
    [request_status] unbound, and the poller raises [UnboundLocalError], not
    an [EC2ResponseError]. *)
Theorem request_never_visible_raises_UnboundLocalError :
  outcome_of (_wait_for_request 50 (Examples.sir_1 "pending-evaluation" None)
                (Examples.idle (Examples.stateless Examples.request_never_visible)
                               (Examples.svc _) true))
  = Raise (UnboundLocalError "request_status")
  /\ calls_of (_wait_for_request 50 (Examples.sir_1 "pending-evaluation" None)
                 (Examples.idle (Examples.stateless Examples.request_never_visible)
                                (Examples.svc _) true))
     = repeat (get_all_spot_instance_requests ["sir-1"]) 10
  /\ outcome_of (fire 50 (deferToThread task_request_spot_instance)
                   (Examples.idle (Examples.stateless Examples.request_never_visible)
                                  (Examples.svc _) true))
     = Raise (UnboundLocalError "request_status").
Proof. vm_compute. repeat split. Qed.

(** ** The ordering of candidates and the sort *)

Section Ordering.

Lemma ascii_compare_lt_trans (a b c : ascii) :
  Ascii.compare a b = Lt -> Ascii.compare b c = Lt -> Ascii.compare a c = Lt.
Proof.
  unfold Ascii.compare. rewrite !N.compare_lt_iff. apply N.lt_trans.
Qed.

Lemma string_compare_lt_trans (a b c : string) :
  String.compare a b = Lt -> String.compare b c = Lt -> String.compare a c = Lt.
Proof.
  revert b c. induction a as [| x a IH]; intros [| y b] [| z c]; cbn;
    try discriminate; trivial.
  destruct (Ascii.compare x y) eqn:Exy; try discriminate;
    destruct (Ascii.compare y z) eqn:Eyz; try discriminate; intros Hab Hbc.
  - apply Ascii.compare_eq_iff in Exy, Eyz. subst.
    assert (E : Ascii.compare z z = Eq) by (unfold Ascii.compare; apply N.compare_refl).
    rewrite E. eauto.
  - apply Ascii.compare_eq_iff in Exy. subst. rewrite Eyz. reflexivity.
  - apply Ascii.compare_eq_iff in Eyz. subst. rewrite Exy. reflexivity.
  - rewrite (ascii_compare_lt_trans _ _ _ Exy Eyz). reflexivity.
Qed.

Lemma cmp_antisym (a b : Order.value) : Order.cmp a b = CompOpp (Order.cmp b a).
Proof.
  destruct a, b; cbn; trivial.
  - apply Z.compare_antisym.
  - apply String.compare_antisym.
Qed.

Lemma cmp_eq (a b : Order.value) : Order.cmp a b = Eq -> a = b.
Proof.
  destruct a, b; cbn; try discriminate; trivial; intros H.
  - apply Z.compare_eq in H. congruence.
  - apply String.compare_eq_iff in H. congruence.
Qed.

Lemma cmp_lt_trans (a b c : Order.value) :
  Order.cmp a b = Lt -> Order.cmp b c = Lt -> Order.cmp a c = Lt.
Proof.
  destruct a, b, c; cbn; try discriminate; trivial.
  - rewrite !Z.compare_lt_iff. apply Z.lt_trans.
  - apply string_compare_lt_trans.
Qed.

Lemma cmp_list_antisym (a b : list Order.value) :
  Order.cmp_list a b = CompOpp (Order.cmp_list b a).
Proof.
  revert b. induction a as [| x a IH]; intros [| y b]; cbn; trivial.
  rewrite (cmp_antisym x y). destruct (Order.cmp y x); cbn; auto.
Qed.

Lemma cmp_list_eq (a b : list Order.value) : Order.cmp_list a b = Eq -> a = b.
Proof.
  revert b. induction a as [| x a IH]; intros [| y b]; cbn; try discriminate; trivial.
  destruct (Order.cmp x y) eqn:E; try discriminate.
  intros H. apply cmp_eq in E. apply IH in H. congruence.
Qed.

Lemma cmp_list_refl (a : list Order.value) : Order.cmp_list a a = Eq.
Proof.
  pose proof (cmp_list_antisym a a) as H.
  destruct (Order.cmp_list a a); cbn in H; congruence.
Qed.

Lemma cmp_list_lt_trans (a b c : list Order.value) :
  Order.cmp_list a b = Lt -> Order.cmp_list b c = Lt -> Order.cmp_list a c = Lt.
Proof.
  revert b c. induction a as [| x a IH]; intros [| y b] [| z c]; cbn;
    try discriminate; trivial.
  destruct (Order.cmp x y) eqn:Exy; try discriminate;
    destruct (Order.cmp y z) eqn:Eyz; try discriminate; intros Hab Hbc.
  - apply cmp_eq in Exy, Eyz. subst.
    assert (E : Order.cmp z z = Eq).
    { pose proof (cmp_antisym z z) as H. destruct (Order.cmp z z); cbn in H; congruence. }
    rewrite E. eauto.
  - apply cmp_eq in Exy. subst. rewrite Eyz. reflexivity.
  - apply cmp_eq in Eyz. subst. rewrite Exy. reflexivity.
  - rewrite (cmp_lt_trans _ _ _ Exy Eyz). reflexivity.
Qed.

Lemma cmp_candidate_antisym (a b : Order.candidate) :
  Order.cmp_candidate a b = CompOpp (Order.cmp_candidate b a).
Proof.
  unfold Order.cmp_candidate. rewrite (cmp_list_antisym (fst a) (fst b)).
  destruct (Order.cmp_list (fst b) (fst a)); cbn; trivial.
  apply Z.compare_antisym.
Qed.

Lemma cmp_candidate_eq (a b : Order.candidate) :
  Order.cmp_candidate a b = Eq ->
  fst a = fst b /\ image_pyid (snd a) = image_pyid (snd b).
Proof.
  unfold Order.cmp_candidate.
  destruct (Order.cmp_list (fst a) (fst b)) eqn:E; try discriminate.
  intros H. apply cmp_list_eq in E. apply Z.compare_eq in H. auto.
Qed.

Lemma cmp_candidate_lt_trans (a b c : Order.candidate) :
  Order.cmp_candidate a b = Lt -> Order.cmp_candidate b c = Lt ->
  Order.cmp_candidate a c = Lt.
Proof.
  unfold Order.cmp_candidate.
  destruct (Order.cmp_list (fst a) (fst b)) eqn:Eab; try discriminate;
    destruct (Order.cmp_list (fst b) (fst c)) eqn:Ebc; try discriminate;
    intros Hab Hbc.
  - apply cmp_list_eq in Eab, Ebc. rewrite Eab, Ebc, cmp_list_refl.
    rewrite Z.compare_lt_iff in *. eapply Z.lt_trans; eassumption.
  - apply cmp_list_eq in Eab. rewrite Eab, Ebc. reflexivity.
  - apply cmp_list_eq in Ebc. rewrite <- Ebc, Eab. reflexivity.
  - rewrite (cmp_list_lt_trans _ _ _ Eab Ebc). reflexivity.
Qed.

Lemma le_total (a b : Order.candidate) : Order.le a b = false -> Order.le b a = true.
Proof.
  unfold Order.le. rewrite (cmp_candidate_antisym b a).
  destruct (Order.cmp_candidate a b); cbn; congruence.
Qed.

Lemma le_trans (a b c : Order.candidate) :
  Order.le a b = true -> Order.le b c = true -> Order.le a c = true.
Proof.
  unfold Order.le.
  destruct (Order.cmp_candidate a b) eqn:Eab; try discriminate;
    destruct (Order.cmp_candidate b c) eqn:Ebc; try discriminate; intros _ _.
  - apply cmp_candidate_eq in Eab, Ebc. destruct Eab as [K1 P1], Ebc as [K2 P2].
    unfold Order.cmp_candidate. rewrite K1, K2, cmp_list_refl, P1, P2, Z.compare_refl.
    reflexivity.
  - apply cmp_candidate_eq in Eab. destruct Eab as [K1 P1].
    unfold Order.cmp_candidate in *. rewrite K1, P1. rewrite Ebc. reflexivity.
  - apply cmp_candidate_eq in Ebc. destruct Ebc as [K2 P2].
    unfold Order.cmp_candidate in *. rewrite <- K2, <- P2. rewrite Eab. reflexivity.
  - rewrite (cmp_candidate_lt_trans _ _ _ Eab Ebc). reflexivity.
Qed.

(** A candidate below another in the full order is not above it on the
    scalar fields alone. *)
Lemma le_on_keys (a b : Order.candidate) :
  Order.le a b = true -> Order.cmp_list (fst a) (fst b) <> Gt.
Proof.
  unfold Order.le, Order.cmp_candidate. intros H E. rewrite E in H. discriminate.
Qed.

Lemma insert_permutation (x : Order.candidate) (l : list Order.candidate) :
  Permutation (x :: l) (Order.insert x l).
Proof.
  induction l as [| y l IH]; cbn; [reflexivity |].
  destruct (Order.le x y); [reflexivity |].
  rewrite perm_swap. constructor. exact IH.
Qed.

Lemma sort_permutation (l : list Order.candidate) : Permutation l (Order.sort l).
Proof.
  induction l as [| x l IH]; cbn; [constructor |].
  rewrite <- insert_permutation. constructor. exact IH.
Qed.

Lemma insert_sorted (x : Order.candidate) (l : list Order.candidate) :
  StronglySorted (fun a b => Order.le a b = true) l ->
  StronglySorted (fun a b => Order.le a b = true) (Order.insert x l).
Proof.
  induction l as [| y l IH]; cbn; intros H.
  - repeat constructor.
  - apply StronglySorted_inv in H. destruct H as [Hl Hy].
    destruct (Order.le x y) eqn:E.
    + constructor; [constructor; assumption |].
      constructor; [exact E |].
      eapply Forall_impl; [| exact Hy]. intros z Hz. eapply le_trans; eassumption.
    + constructor; [apply IH, Hl |].
      eapply Permutation_Forall; [apply insert_permutation |].
      constructor; [apply le_total, E | exact Hy].
Qed.

Lemma sort_sorted (l : list Order.candidate) :
  StronglySorted (fun a b => Order.le a b = true) (Order.sort l).
Proof.
  induction l as [| x l IH]; cbn; [constructor | apply insert_sorted, IH].
Qed.

Lemma le_refl (a : Order.candidate) : Order.le a a = true.
Proof.
  unfold Order.le. pose proof (cmp_candidate_antisym a a) as H.
  destruct (Order.cmp_candidate a a); cbn in H; congruence.
Qed.

(** The last element of a sorted list is above every element. *)
Lemma last_of_sorted (l : list Order.candidate) (w : Order.candidate) :
  StronglySorted (fun a b => Order.le a b = true) l ->
  Py.last l = Some w ->
  In w l /\ forall c, In c l -> Order.le c w = true.
Proof.
  induction l as [| x l IH]; intros Hs Hl; [discriminate |].
  apply StronglySorted_inv in Hs. destruct Hs as [Hs Hx].
  destruct l as [| y l].
  - cbn in Hl. inversion Hl; subst. split; [left; reflexivity |].
    intros c [<- | []]. apply le_refl.
  - change (Py.last (x :: y :: l)) with (Py.last (y :: l)) in Hl.
    destruct (IH Hs Hl) as [Hin Hmax]. split; [right; exact Hin |].
    intros c [<- | Hc]; [| apply Hmax, Hc].
    rewrite Forall_forall in Hx. apply Hx, Hin.
Qed.

Lemma last_None {A} (l : list A) : Py.last l = None -> l = [].
Proof.
  induction l as [| x [| y l] IH]; trivial; [discriminate |].
  intros H. apply IH in H. discriminate.
Qed.

(** [choose] on a non-empty list returns the image of a greatest
    candidate. *)
Lemma choose_greatest (options : list Order.candidate) :
  options <> [] ->
  exists w, In w options /\ choose options = inr (snd w)
            /\ forall c, In c options -> Order.le c w = true.
Proof.
  intros Hne. unfold choose.
  destruct (Py.last (Order.sort options)) as [w |] eqn:E.
  - destruct (last_of_sorted _ _ (sort_sorted options) E) as [Hin Hmax].
    exists w. split; [| split; [reflexivity |]].
    + eapply Permutation_in; [symmetry; apply sort_permutation | exact Hin].
    + intros c Hc. apply Hmax.
      eapply Permutation_in; [apply sort_permutation | exact Hc].
  - apply last_None in E.
    pose proof (sort_permutation options) as P. rewrite E in P.
    apply Permutation_sym, Permutation_nil in P. contradiction.
Qed.

End Ordering.

(** ** Image selection *)

Section Selection.

Context {platform : Platform}.

Lemma shape_level_le_2 (g : Group) : Spec.shape_level g <= 2.
Proof.
  destruct g as [| [a |]]; cbn; [lia | | lia]. destruct (py_int a); lia.
Qed.

(** The loop ends at the greatest of the level it starts from and the
    levels the candidates ask for; every tuple it appends has four scalar
    fields, and while the level is 0 each starts with an integer. *)
Lemma scan_images_level pattern images :
  forall l0 opts level options,
    scan_images pattern images l0 opts = inr (level, options) ->
    level = Nat.max l0 (list_max (map Spec.shape_level
                                      (Spec.matched_groups pattern images)))
    /\ (Forall (fun c => List.length (fst c) = 4) opts ->
        Forall (fun c => List.length (fst c) = 4) options)
    /\ (Forall (fun c => exists n rest, fst c = Order.Int n :: rest) opts ->
        level = 0 ->
        Forall (fun c => exists n rest, fst c = Order.Int n :: rest) options).
Proof.
  induction images as [| image rest IH]; intros l0 opts level options H;
    cbn [scan_images Spec.matched_groups] in *.
  - inversion H; subst. cbn. rewrite Nat.max_0_r. auto.
  - destruct (negb (image_state image =? "available")); [apply IH, H |].
    destruct (re_match pattern (image_location image)) as [g |]; [| apply IH, H].
    cbn [map list_max fold_right].
    change (fold_right Nat.max 0 ?l) with (list_max l).
    pose proof (shape_level_le_2 g) as Hg.
    destruct (Nat.ltb_spec l0 2) as [Hl | Hl].
    + destruct g as [| alpha_sort].
      * apply IH in H. destruct H as (Hlev & Hlen & Hint).
        split; [cbn [Spec.shape_level]; lia |]. split.
        -- intros Ho. apply Hlen, Forall_app. split; [exact Ho |].
           repeat constructor.
        -- intros _ E. exfalso. lia.
      * destruct (Nat.eqb_spec l0 0) as [E0 | E0].
        -- destruct alpha_sort as [a |]; [| discriminate].
           cbn [Spec.shape_level] in *.
           destruct (py_int a) as [int_sort |];
             apply IH in H; destruct H as (Hlev & Hlen & Hint).
           ++ split; [lia |]. split.
              ** intros Ho. apply Hlen, Forall_app. split; [exact Ho |].
                 repeat constructor.
              ** intros Ho E. apply Hint; [| exact E].
                 apply Forall_app. split; [exact Ho |]. repeat constructor.
                 cbn. eauto.
           ++ split; [lia |]. split.
              ** intros Ho. apply Hlen, Forall_app. split; [exact Ho |].
                 repeat constructor.
              ** intros _ E. exfalso. lia.
        -- apply IH in H. destruct H as (Hlev & Hlen & Hint).
           assert (Hg1 : Spec.shape_level (group alpha_sort) <= 1)
             by (destruct alpha_sort as [a |]; cbn; [destruct (py_int a) |]; lia).
           split; [lia |]. split.
           ++ intros Ho. apply Hlen, Forall_app. split; [exact Ho |].
              repeat constructor.
           ++ intros _ E. exfalso. lia.
    + apply IH in H. destruct H as (Hlev & Hlen & Hint).
      split; [lia |]. split.
      * intros Ho. apply Hlen, Forall_app. split; [exact Ho |]. repeat constructor.
      * intros _ E. exfalso. lia.
Qed.

(** C7.  With a location pattern, every candidate that is sorted
    has the same fields, those left by one level: [4 - level] scalar fields,
    led by the integer key when the level is 0.  That level is the greatest
    one any candidate asks for by the shape of its first capture group; a
    later candidate raises the level the first one set. *)
Theorem sort_level_is_greatest_shape (c : ascii) (p : string) (images : list Image)
        (options : list Order.candidate) :
  candidates (Some (String c p)) images = inr options ->
  exists level,
    level = list_max (map Spec.shape_level (Spec.matched_groups (String c p) images))
    /\ Forall (fun cand => List.length (fst cand) = 4 - level) options
    /\ (level = 0 ->
        Forall (fun cand => exists n rest, fst cand = Order.Int n :: rest) options).
Proof.
  unfold candidates.
  destruct (scan_images (String c p) images 0 []) as [e | [level opts]] eqn:E;
    [discriminate |].
  intros H. inversion H; subst options; clear H.
  apply scan_images_level in E. destruct E as (Hlev & Hlen & Hint).
  specialize (Hlen (Forall_nil _)). specialize (Hint (Forall_nil _)).
  exists level. split; [rewrite Hlev; apply Nat.max_0_l |].
  assert (Hle : level <= 2).
  { rewrite Hlev, Nat.max_0_l. clear.
    induction (Spec.matched_groups (String c p) images) as [| g l IH]; cbn; [lia |].
    change (fold_right Nat.max 0 ?l) with (list_max l).
    pose proof (shape_level_le_2 g). lia. }
  destruct level as [| level'].
  - split; [| exact Hint]. eapply Forall_impl; [| exact Hlen].
    intros cand Hc. rewrite Hc. reflexivity.
  - split; [| discriminate]. apply Forall_map.
    eapply Forall_impl; [| exact Hlen].
    intros cand Hc. unfold Order.slice. cbn [fst].
    rewrite length_skipn, Hc. reflexivity.
Qed.

End Selection.

(** With the pattern [.-(.+)] and the locations [x-1] and [x-abc], the
    first candidate alone is sorted at level 0, on its integer key; the
    second raises the level to 1, and both are sorted on the captured text. *)
Lemma later_candidate_raises_level :
  Spec.matched_groups (platform := Examples.quiet) ".-(.+)"
    [Examples.image_numeric; Examples.image_textual]
  = [group (Some "1"); group (Some "abc")]
  /\ Spec.shape_level (platform := Examples.quiet) (group (Some "1")) = 0
  /\ candidates (platform := Examples.quiet) (Some ".-(.+)") [Examples.image_numeric]
     = inr [([Order.Int 1; Order.Str "1"; Order.Str "x-1"; Order.Str "ami-n"],
             Examples.image_numeric)]
  /\ scan_images (platform := Examples.quiet) ".-(.+)"
       [Examples.image_numeric; Examples.image_textual] 0 []
     = inr (1,
            [([Order.Int 1; Order.Str "1"; Order.Str "x-1"; Order.Str "ami-n"],
              Examples.image_numeric);
             ([Order.None_; Order.Str "abc"; Order.Str "x-abc"; Order.Str "ami-t"],
              Examples.image_textual)])
  /\ candidates (platform := Examples.quiet) (Some ".-(.+)")
       [Examples.image_numeric; Examples.image_textual]
     = inr [([Order.Str "1"; Order.Str "x-1"; Order.Str "ami-n"],
             Examples.image_numeric);
            ([Order.Str "abc"; Order.Str "x-abc"; Order.Str "ami-t"],
             Examples.image_textual)].
Proof. vm_compute. repeat split. Qed.

Lemma sort_level_is_greatest_shape_witness :
  candidates (platform := Examples.quiet) (Some ".-(.+)")
    [Examples.image_numeric; Examples.image_textual]
  = inr [([Order.Str "1"; Order.Str "x-1"; Order.Str "ami-n"],
          Examples.image_numeric);
         ([Order.Str "abc"; Order.Str "x-abc"; Order.Str "ami-t"],
          Examples.image_textual)]
  /\ exists level,
      level = list_max (map (Spec.shape_level (platform := Examples.quiet))
                            (Spec.matched_groups (platform := Examples.quiet) ".-(.+)"
                               [Examples.image_numeric; Examples.image_textual]))
      /\ Forall (fun cand => List.length (fst cand) = 4 - level)
           [([Order.Str "1"; Order.Str "x-1"; Order.Str "ami-n"],
             Examples.image_numeric);
            ([Order.Str "abc"; Order.Str "x-abc"; Order.Str "ami-t"],
             Examples.image_textual)]
      /\ (level = 0 ->
          Forall (fun cand => exists n rest, fst cand = Order.Int n :: rest)
            [([Order.Str "1"; Order.Str "x-1"; Order.Str "ami-n"],
              Examples.image_numeric);
             ([Order.Str "abc"; Order.Str "x-abc"; Order.Str "ami-t"],
              Examples.image_textual)]).
Proof.
  split; [vm_compute; reflexivity |].
  apply (sort_level_is_greatest_shape (platform := Examples.quiet)
           "."%char "-(.+)" [Examples.image_numeric; Examples.image_textual]).
  vm_compute. reflexivity.
Defined.

Section Choice.

Context {platform : Platform}.

(** The run of [get_image] when it has to select. *)
Lemma get_image_run (s : State) (images : list Image) (svc : Service)
      (options : list Order.candidate) :
  image (self s) = None ->
  (forall p, valid_ami_location_regex (self s) = Some p -> re_compiles p = true) ->
  conn_reply (get_all_images (valid_ami_owners (self s))) (conn s) = (inr images, svc) ->
  candidates (valid_ami_location_regex (self s)) images = inr options ->
  get_image s =
  (match choose options with
   | inl e => Raise e
   | inr img => Return img
   end, with_conn s svc, [get_all_images (valid_ami_owners (self s))]).
Proof.
  intros Himg Hre Hreply Hcands. unfold get_image.
  rewrite (run_bind_pure get_self _ s (self s) eq_refl), Himg.
  assert (Hc : (Py.truthy (valid_ami_location_regex (self s)) &&
                negb (re_compiles match valid_ami_location_regex (self s) with
                                  | Some p => p
                                  | None => ""
                                  end)) = false).
  { destruct (valid_ami_location_regex (self s)) as [p |]; [| reflexivity].
    rewrite (Hre p eq_refl). apply andb_false_r. }
  rewrite Hc. run_pure.
  rewrite run_bind_call, Hreply. cbn [fst snd]. cbv zeta. rewrite Hcands.
  destruct (choose options); reflexivity.
Qed.

Lemma slice_0 (l : list Order.candidate) : map (Order.slice 0) l = l.
Proof.
  induction l as [| [k im] l IH]; [reflexivity |].
  cbn. rewrite IH. reflexivity.
Qed.

(** The tuples the loop appends, cut at the level it ends with, are the
    fields of that level for the images that pass the two filters, in the
    order of the listing. *)
Lemma scan_images_fields pattern images :
  forall l0 opts level options,
    l0 <= 2 ->
    scan_images pattern images l0 opts = inr (level, options) ->
    l0 <= level <= 2
    /\ exists added,
        options = opts ++ added
        /\ map (Order.slice level) added
           = map (fun image => (Spec.sort_fields (Some pattern) level image, image))
                 (filter (fun image =>
                            (image_state image =? "available")
                            && Py.is_not_None (re_match pattern (image_location image)))
                         images).
Proof.
  induction images as [| image rest IH]; intros l0 opts level options Hl0 H;
    cbn [scan_images filter] in *.
  - inversion H; subst. split; [lia |]. exists []. rewrite app_nil_r. auto.
  - destruct (image_state image =? "available"); cbn [negb andb] in *;
      [| apply (IH _ _ _ _ Hl0 H)].
    destruct (re_match pattern (image_location image)) as [g |] eqn:Hm;
      cbn [Py.is_not_None]; [| apply (IH _ _ _ _ Hl0 H)].
    assert (Hstep : forall l1 cand,
               scan_images pattern rest l1 (opts ++ [cand]) = inr (level, options) ->
               l0 <= l1 <= 2 ->
               snd cand = image ->
               (forall L, l1 <= L <= 2 ->
                          skipn L (fst cand) = Spec.sort_fields (Some pattern) L image) ->
               l0 <= level <= 2
               /\ exists added,
                   options = opts ++ added
                   /\ map (Order.slice level) added
                      = (Spec.sort_fields (Some pattern) level image, image)
                        :: map (fun image0 =>
                                  (Spec.sort_fields (Some pattern) level image0, image0))
                               (filter (fun image0 =>
                                          (image_state image0 =? "available")
                                          && Py.is_not_None
                                               (re_match pattern (image_location image0)))
                                       rest)).
    { intros l1 cand Hscan Hl1 Hsnd Hcut.
      apply IH in Hscan; [| lia].
      destruct Hscan as (Hlev & added & -> & Hadded).
      split; [lia |]. exists (cand :: added).
      split; [rewrite <- app_assoc; reflexivity |].
      cbn [map]. rewrite Hadded. f_equal.
      unfold Order.slice. rewrite Hsnd, (Hcut level Hlev). reflexivity. }
    destruct (Nat.ltb_spec l0 2) as [Hlt | Hge].
    + destruct g as [| alpha_sort].
      * apply (Hstep _ _ H); [lia | reflexivity |].
        intros L HL. assert (L = 2) as -> by lia. reflexivity.
      * destruct (Nat.eqb_spec l0 0) as [E0 | E0].
        -- destruct alpha_sort as [a |]; [| discriminate].
           destruct (py_int a) as [int_sort |] eqn:Hint.
           ++ apply (Hstep _ _ H); [lia | reflexivity |].
              intros L HL.
              unfold Spec.sort_fields, Spec.numeric_key, Spec.captured_text.
              rewrite Hm, Hint.
              destruct L as [| [| [| L]]]; [reflexivity .. | lia].
           ++ apply (Hstep _ _ H); [lia | reflexivity |].
              intros L HL.
              unfold Spec.sort_fields, Spec.numeric_key, Spec.captured_text.
              rewrite Hm.
              destruct L as [| [| [| L]]]; [lia | reflexivity .. | lia].
        -- apply (Hstep _ _ H); [lia | reflexivity |].
           intros L HL.
           unfold Spec.sort_fields, Spec.numeric_key, Spec.captured_text.
           rewrite Hm.
           destruct L as [| [| [| L]]]; [lia | | reflexivity | lia].
           destruct alpha_sort; reflexivity.
    + apply (Hstep _ _ H); [lia | reflexivity |].
      intros L HL. assert (L = 2) as -> by lia. reflexivity.
Qed.

(** The candidates [get_image] sorts are the candidate set, each image with
    the fields of the level of the sort. *)
Lemma candidates_fields (regex : option string) (images : list Image)
      (options : list Order.candidate) :
  candidates regex images = inr options ->
  options
  = map (fun image =>
           (Spec.sort_fields regex (Spec.sort_level regex images) image, image))
        (filter (Spec.eligible regex) images).
Proof.
  unfold candidates.
  destruct regex as [[| c p] |].
  - intros H. inversion H; subst. cbn [Spec.eligible Spec.sort_level].
    clear. induction images as [| image rest IH]; [reflexivity |].
    cbn. f_equal. exact IH.
  - destruct (scan_images (String c p) images 0 []) as [e | [level opts]] eqn:E;
      [discriminate |].
    intros H. inversion H; subst options; clear H.
    pose proof (scan_images_level _ _ _ _ _ _ E) as (Hlev & _).
    rewrite Nat.max_0_l in Hlev.
    apply scan_images_fields in E; [| lia].
    destruct E as (_ & added & -> & Hadded). cbn [app].
    unfold Spec.eligible, Spec.sort_level. rewrite <- Hlev, <- Hadded.
    destruct level; [symmetry; apply slice_0 | reflexivity].
  - intros H. inversion H; subst. cbn [Spec.eligible Spec.sort_level].
    clear. induction images as [| image rest IH]; [reflexivity |].
    cbn. f_equal. exact IH.
Qed.

Lemma matched_groups_permutation (pattern : string) (images images' : list Image) :
  Permutation images images' ->
  Permutation (Spec.matched_groups pattern images)
              (Spec.matched_groups pattern images').
Proof.
  induction 1 as [| x l l' _ IH | x y l | l l' l'' _ IH1 _ IH2];
    cbn [Spec.matched_groups].
  - constructor.
  - destruct (negb (image_state x =? "available")); [exact IH |].
    destruct (re_match pattern (image_location x)); [constructor |]; exact IH.
  - destruct (negb (image_state y =? "available")),
             (negb (image_state x =? "available"));
      try reflexivity;
      destruct (re_match pattern (image_location y)),
               (re_match pattern (image_location x));
      try reflexivity.
    apply perm_swap.
  - etransitivity; eassumption.
Qed.

Lemma list_max_permutation (l l' : list nat) :
  Permutation l l' -> list_max l = list_max l'.
Proof.
  induction 1 as [| x l l' _ IH | x y l | l l' l'' _ IH1 _ IH2]; cbn;
    repeat change (fold_right Nat.max 0 ?l) with (list_max l); lia.
Qed.

Lemma sort_level_permutation (regex : option string) (images images' : list Image) :
  Permutation images images' ->
  Spec.sort_level regex images' = Spec.sort_level regex images.
Proof.
  intros P. destruct regex as [[| c p] |]; cbn [Spec.sort_level]; trivial.
  symmetry. apply list_max_permutation, Permutation_map, matched_groups_permutation, P.
Qed.

Lemma filter_permutation {A} (f : A -> bool) (l l' : list A) :
  Permutation l l' -> Permutation (filter f l) (filter f l').
Proof.
  induction 1 as [| x l l' _ IH | x y l | l l' l'' _ IH1 _ IH2]; cbn.
  - constructor.
  - destruct (f x); [constructor |]; exact IH.
  - destruct (f y), (f x); try reflexivity. apply perm_swap.
  - etransitivity; eassumption.
Qed.

(** The fields of two images are equal only if their locations and ids
    are. *)
Lemma sort_fields_tail (regex : option string) (level : nat) (a b : Image) :
  Spec.sort_fields regex level a = Spec.sort_fields regex level b ->
  image_location a = image_location b /\ image_id a = image_id b.
Proof.
  unfold Spec.sort_fields. destruct level as [| [| level]];
    intros H; inversion H; auto.
Qed.

(** The greatest candidates of two orderings of one candidate set are the
    same object. *)
Lemma choose_of_permutation (options options' : list Order.candidate) :
  Permutation options options' ->
  match choose options, choose options' with
  | inr w, inr w' =>
      exists c c',
        In c options /\ In c' options /\ snd c = w /\ snd c' = w'
        /\ fst c' = fst c /\ image_pyid w' = image_pyid w
  | inl e, inl e' => e' = e
  | _, _ => False
  end.
Proof.
  intros P. destruct options as [| c0 options0] eqn:Eo.
  - apply Permutation_nil in P. subst. reflexivity.
  - rewrite <- Eo in *.
    assert (Hne : options <> []) by (rewrite Eo; discriminate).
    assert (Hne' : options' <> []).
    { intros ->. apply Permutation_sym, Permutation_nil in P. contradiction. }
    destruct (choose_greatest options Hne) as (w & Hw & Ew & Mw).
    destruct (choose_greatest options' Hne') as (w' & Hw' & Ew' & Mw').
    rewrite Ew, Ew'.
    assert (Hw'o : In w' options) by (eapply Permutation_in; [symmetry |]; eassumption).
    assert (Hwo' : In w options') by (eapply Permutation_in; eassumption).
    pose proof (Mw w' Hw'o) as L1. pose proof (Mw' w Hwo') as L2.
    assert (Eq' : Order.cmp_candidate w' w = Eq).
    { unfold Order.le in L1, L2. rewrite (cmp_candidate_antisym w w') in L2.
      destruct (Order.cmp_candidate w' w); cbn in *; congruence. }
    apply cmp_candidate_eq in Eq'. destruct Eq' as [Hk Hid].
    exists w, w'. auto 10.
Qed.

(** C3.  When [get_image] has to select and the scan of the listing raises
    nothing, the candidates it sorts are the candidate set (with a pattern
    the available images whose location matches, else every image listed),
    each compared on the fields of the level of the sort: (numeric key,
    captured text, location, id) at level 0, (captured text, location, id)
    at level 1 and (location, id) at level 2 or without a pattern.  With no
    candidate it raises [ValueError('no available images match
    constraints')]; otherwise it returns a candidate that no candidate
    exceeds in the lexicographic order of these fields, and among candidates
    equal on all of them the object that compares greatest.  The winner
    does not depend on the order of the listing: for any reordering of the
    listing whose scan raises nothing either, [get_image] raises the same
    error or returns the same object, an image with the same identity,
    id and location. *)
Theorem get_image_chooses_greatest (s : State) (images : list Image) (svc : Service)
        (options : list Order.candidate) :
  image (self s) = None ->
  (forall p, valid_ami_location_regex (self s) = Some p -> re_compiles p = true) ->
  conn_reply (get_all_images (valid_ami_owners (self s))) (conn s) = (inr images, svc) ->
  candidates (valid_ami_location_regex (self s)) images = inr options ->
  let regex := valid_ami_location_regex (self s) in
  let fields := Spec.sort_fields regex (Spec.sort_level regex images) in
  let pool := filter (Spec.eligible regex) images in
  options = map (fun image => (fields image, image)) pool
  /\ (pool = [] ->
      get_image s =
      (Raise (ValueError "no available images match constraints"), with_conn s svc,
       [get_all_images (valid_ami_owners (self s))]))
  /\ (pool <> [] ->
      exists w,
        In w pool
        /\ get_image s =
           (Return w, with_conn s svc, [get_all_images (valid_ami_owners (self s))])
        /\ forall c,
            In c pool ->
            Order.cmp_list (fields c) (fields w) <> Gt
            /\ (Order.cmp_list (fields c) (fields w) = Eq ->
                (image_pyid c <= image_pyid w)%Z))
  /\ (forall (s' : State) (images' : list Image) (svc' : Service)
             (options' : list Order.candidate),
         self s' = self s ->
         conn_reply (get_all_images (valid_ami_owners (self s))) (conn s')
         = (inr images', svc') ->
         Permutation images images' ->
         candidates regex images' = inr options' ->
         match outcome_of (get_image s), outcome_of (get_image s') with
         | Return w, Return w' =>
             image_pyid w' = image_pyid w
             /\ image_id w' = image_id w
             /\ image_location w' = image_location w
             /\ ((forall a b, In a images -> In b images ->
                              image_pyid a = image_pyid b -> a = b) ->
                 w' = w)
         | Raise e, Raise e' => e' = e
         | _, _ => False
         end).
Proof.
  intros Himg Hre Hreply Hcands regex fields pool.
  pose proof (get_image_run s images svc options Himg Hre Hreply Hcands) as Hrun.
  pose proof (candidates_fields _ _ _ Hcands) as Hopts.
  fold regex in Hopts. fold fields in Hopts. fold pool in Hopts.
  split; [exact Hopts |]. split; [| split].
  - intros E. rewrite Hrun, Hopts, E. reflexivity.
  - intros Hne.
    assert (Hne' : options <> []).
    { rewrite Hopts. destruct pool; [contradiction | discriminate]. }
    destruct (choose_greatest options Hne') as (w & Hin & Hw & Hmax).
    rewrite Hopts in Hin. apply in_map_iff in Hin.
    destruct Hin as (im & <- & Him). cbn [snd] in Hw.
    exists im. split; [exact Him |]. split; [rewrite Hrun, Hw; reflexivity |].
    intros c Hc.
    assert (Hle : Order.le (fields c, c) (fields im, im) = true).
    { apply Hmax. rewrite Hopts. apply in_map_iff. exists c. auto. }
    split; [apply (le_on_keys _ _ Hle) |].
    intros E. unfold Order.le, Order.cmp_candidate in Hle. cbn [fst snd] in Hle.
    rewrite E in Hle. apply Z.compare_le_iff. intros G. rewrite G in Hle.
    discriminate.
  - intros s' images' svc' options' Hself Hreply' P Hcands'.
    assert (Himg' : image (self s') = None) by (rewrite Hself; exact Himg).
    assert (Hre' : forall p, valid_ami_location_regex (self s') = Some p ->
                             re_compiles p = true)
      by (rewrite Hself; exact Hre).
    rewrite <- Hself in Hreply'. unfold regex in Hcands'. rewrite <- Hself in Hcands'.
    pose proof (get_image_run s' images' svc' options' Himg' Hre' Hreply' Hcands')
      as Hrun'.
    rewrite Hself in Hcands'. apply candidates_fields in Hcands'.
    fold regex in Hcands'. rewrite (sort_level_permutation regex _ _ P) in Hcands'.
    fold fields in Hcands'.
    assert (Popts : Permutation options options').
    { rewrite Hopts, Hcands'. apply Permutation_map, filter_permutation, P. }
    pose proof (choose_of_permutation _ _ Popts) as Hch.
    rewrite Hrun, Hrun'. unfold outcome_of. cbn [fst].
    destruct (choose options) as [e | w], (choose options') as [e' | w'];
      try exact Hch.
    destruct Hch as (c & c' & Hc & Hc' & <- & <- & Hk & Hid).
    rewrite Hopts in Hc, Hc'. apply in_map_iff in Hc, Hc'.
    destruct Hc as (im & <- & Him), Hc' as (im' & <- & Him').
    cbn [fst snd] in *. apply sort_fields_tail in Hk. destruct Hk as [Hloc Hi].
    repeat split; trivial.
    intros Hinj. apply Hinj; trivial.
    + apply filter_In in Him'. apply Him'.
    + apply filter_In in Him. apply Him.
Qed.

End Choice.

(** Two images match [.-(\d+)] with captures [1] and [01]: both have the
    integer key 1, and the captured text decides for [a-1]. *)
Lemma get_image_chooses_greatest_witness :
  candidates (platform := Examples.stateless
                            (Examples.listing [Examples.image_a; Examples.image_b]))
    (Some ".-(\d+)") [Examples.image_a; Examples.image_b]
  = inr [([Order.Int 1; Order.Str "1"; Order.Str "a-1"; Order.Str "ami-a"],
          Examples.image_a);
         ([Order.Int 1; Order.Str "01"; Order.Str "b-01"; Order.Str "ami-b"],
          Examples.image_b)]
  /\ get_image
       {| self := Examples.selecting ".-(\d+)" false;
          conn := Examples.svc (Examples.listing [Examples.image_a; Examples.image_b]);
          now := 0 |}
     = (Return Examples.image_a,
        with_conn
          {| self := Examples.selecting ".-(\d+)" false;
             conn := Examples.svc
                       (Examples.listing [Examples.image_a; Examples.image_b]);
             now := 0 |}
          (Examples.svc _),
        [get_all_images (Some [42%Z])])
  /\ outcome_of
       (get_image
          {| self := Examples.selecting ".-(\d+)" false;
             conn := Examples.svc
                       (Examples.listing [Examples.image_b; Examples.image_a]);
             now := 0 |})
     = Return Examples.image_a.
Proof.
  split; [vm_compute; reflexivity |].
  destruct (get_image_chooses_greatest
              (platform := Examples.stateless
                             (Examples.listing [Examples.image_a; Examples.image_b]))
              {| self := Examples.selecting ".-(\d+)" false;
                 conn := Examples.svc _; now := 0 |}
              [Examples.image_a; Examples.image_b] (Examples.svc _) _
              eq_refl (fun p _ => eq_refl) eq_refl eq_refl)
    as (_ & _ & Hwin & _).
  split; [| vm_compute; reflexivity].
  destruct Hwin as (w & Hin & Hrun & _); [discriminate |].
  rewrite Hrun. vm_compute in Hrun. inversion Hrun. reflexivity.
Defined.

(** The same listing against the ordering by (sort key, location, id) with
    the integer as the only sort key: [get_image] returns [ami-a], whose
    candidate is below the candidate of [ami-b] in that ordering, since
    [a-1] sorts before [b-01]. *)
Lemma get_image_not_greatest_by_claimed_key :
  outcome_of
    (get_image
       {| self := Examples.selecting ".-(\d+)" false;
          conn := Examples.svc (Examples.listing [Examples.image_a; Examples.image_b]);
          now := 0 |})
  = Return Examples.image_a
  /\ candidates (platform := Examples.stateless
                               (Examples.listing [Examples.image_a; Examples.image_b]))
       (Some ".-(\d+)") [Examples.image_a; Examples.image_b]
     = inr [([Order.Int 1; Order.Str "1"; Order.Str "a-1"; Order.Str "ami-a"],
             Examples.image_a);
            ([Order.Int 1; Order.Str "01"; Order.Str "b-01"; Order.Str "ami-b"],
             Examples.image_b)]
  /\ Spec.claimed_key
       ([Order.Int 1; Order.Str "1"; Order.Str "a-1"; Order.Str "ami-a"],
        Examples.image_a)
     = [Order.Int 1; Order.Str "a-1"; Order.Str "ami-a"]
  /\ Spec.claimed_key
       ([Order.Int 1; Order.Str "01"; Order.Str "b-01"; Order.Str "ami-b"],
        Examples.image_b)
     = [Order.Int 1; Order.Str "b-01"; Order.Str "ami-b"]
  /\ Order.cmp_list [Order.Int 1; Order.Str "b-01"; Order.Str "ami-b"]
                    [Order.Int 1; Order.Str "a-1"; Order.Str "ami-a"]
     = Gt.
Proof. vm_compute. repeat split. Qed.

(** The order of the listing decides whether the scan raises: with the
    pattern [x-([a-z]+)?], [x-1] matches with a group that took no part.
    Listed after [x-abc] it is a candidate at level 1, and [x-abc] wins;
    listed first it meets [int(None)] at level 0. *)
Example listing_order_decides_TypeError :
  outcome_of
    (get_image
       (platform := Examples.optional_letters
                      [Examples.image_textual; Examples.image_numeric])
       {| self := Examples.selecting "x-([a-z]+)?" false;
          conn := Examples.letters_svc _; now := 0 |})
  = Return Examples.image_textual
  /\ outcome_of
       (get_image
          (platform := Examples.optional_letters
                         [Examples.image_numeric; Examples.image_textual])
          {| self := Examples.selecting "x-([a-z]+)?" false;
             conn := Examples.letters_svc _; now := 0 |})
     = Raise TypeError.
Proof. split; vm_compute; reflexivity. Qed.

(** ** The retry ceiling, for any service *)

Section RetryCeiling.

Context {platform : Platform}.

(** The service never shows the spot request. *)
Hypothesis never_visible :
  forall ids svc,
    exists e svc',
      conn_reply (get_all_spot_instance_requests ids) svc = (inl e, svc')
      /\ error_code e = "InvalidSpotInstanceRequestID.NotFound".

(** Then the first loop gives up once [attempts] reaches [_poll_retry],
    with nothing bound. *)
Lemma find_request_gives_up fuel interval reservation :
  forall attempts (s : State),
    (_poll_retry (self s) - attempts <= Z.of_nat fuel)%Z ->
    outcome_of (find_request fuel interval attempts reservation s) = Return None
    /\ self (state_of (find_request fuel interval attempts reservation s)) = self s.
Proof.
  induction fuel as [| fuel IH]; intros attempts s Hfuel; cbn [find_request];
    rewrite (run_bind_pure get_self _ s (self s) eq_refl).
  - destruct (Z.ltb_spec attempts (_poll_retry (self s))); [lia |].
    split; reflexivity.
  - destruct (Z.ltb_spec attempts (_poll_retry (self s))); [| split; reflexivity].
    destruct (never_visible [request_id reservation] (conn s))
      as (e & svc' & Hreply & Hcode).
    match goal with
    | |- context [bind (try_except ?m ?h) ?k s] =>
        assert (Htry : try_except m h s =
                       (Return None,
                        {| self := self s; conn := svc'; now := (now s + interval)%Z |},
                        [get_all_spot_instance_requests [request_id reservation]]))
    end.
    { unfold try_except. rewrite run_bind_call, Hreply. cbn [fst snd].
      rewrite Hcode. reflexivity. }
    rewrite (run_bind_Return _ _ _ _ _ _ Htry).
    cbn [outcome_of state_of fst snd].
    match goal with
    | |- context [find_request fuel interval ?a reservation ?s1] =>
        destruct (IH a s1) as [Ho Hs]; [cbn [self]; lia |]
    end.
    split; assumption.
Qed.

(** And [_wait_for_request] raises [UnboundLocalError]. *)
Lemma _wait_for_request_gives_up fuel reservation (s : State) :
  (_poll_retry (self s) <= Z.of_nat fuel)%Z ->
  outcome_of (_wait_for_request fuel reservation s)
  = Raise (UnboundLocalError "request_status").
Proof.
  intros Hfuel. unfold _wait_for_request.
  rewrite (run_bind_pure get_self _ s (self s) eq_refl). cbv zeta.
  destruct (find_request_gives_up fuel (_poll_resolution (self s)) reservation 0 s)
    as [Ho _]; [lia |].
  rewrite run_bind.
  destruct (find_request fuel (_poll_resolution (self s)) 0 reservation s)
    as [[o s1] t1].
  cbn in Ho. subst o. reflexivity.
Qed.

End RetryCeiling.

(** The service of the example is one that never shows the request. *)
Example request_never_visible_gives_up (fuel : nat) :
  (10 <= Z.of_nat fuel)%Z ->
  outcome_of (_wait_for_request fuel (Examples.sir_1 "pending-evaluation" None)
                (Examples.idle (Examples.stateless Examples.request_never_visible)
                               (Examples.svc _) true))
  = Raise (UnboundLocalError "request_status").
Proof.
  intros H.
  apply (_wait_for_request_gives_up
           (platform := Examples.stateless Examples.request_never_visible)).
  - intros ids svc. exists Examples.not_found, svc. split; reflexivity.
  - exact H.
Qed.

(** * Further properties of the module *)

(** ** create_block_device_mapping *)

Section BlockDevices.

Context {platform : Platform}.

Lemma modified_device_properties_find (device_properties : Dict.t DeviceProperty)
      (k : string) :
  Dict.find k (modified_device_properties device_properties)
  = match Dict.find k device_properties with
    | Some v => Some v
    | None => if k =? "delete_on_termination" then Some (PropBool true) else None
    end.
Proof.
  unfold modified_device_properties. rewrite DictFacts.mem_find_b.
  destruct (Dict.find "delete_on_termination" device_properties) as [v |] eqn:E.
  - destruct (Dict.find k device_properties) eqn:Ek; [reflexivity |].
    destruct (String.eqb_spec k "delete_on_termination") as [-> | _]; congruence.
  - rewrite DictFacts.add_o.
    destruct (String_as_OT.eq_dec "delete_on_termination" k) as [<- | Hne].
    + rewrite E. reflexivity.
    + destruct (String.eqb_spec k "delete_on_termination") as [-> | _];
        [contradiction Hne; reflexivity |].
      destruct (Dict.find k device_properties); reflexivity.
Qed.

(** The keys of a dict are the first components of its items. *)
Lemma In_elements {elt} (m : Dict.t elt) (k : string) :
  Dict.In k m <-> In k (map fst (Dict.elements m)).
Proof.
  split.
  - intros [e He]. apply DictFacts.elements_mapsto_iff in He.
    apply InA_alt in He. destruct He as ([k' e'] & [Hk _] & Hin).
    cbn in Hk. subst k'. apply (in_map fst) in Hin. exact Hin.
  - intros Hin. apply in_map_iff in Hin. destruct Hin as ([k' e] & <- & Hin).
    exists e. apply DictFacts.elements_mapsto_iff. apply InA_alt.
    exists (k', e). split; [split; reflexivity | exact Hin].
Qed.

(** [BlockDeviceType] called with the keywords [kwargs] succeeds exactly when every keyword is
    taken. *)
Lemma new_BlockDeviceType_cases (kwargs : Dict.t DeviceProperty) :
  (new_BlockDeviceType kwargs = inr {| bdt_kwargs := kwargs |}
   /\ forall k, Dict.In k kwargs -> BlockDeviceType_takes k = true)
  \/ (new_BlockDeviceType kwargs = inl TypeError
      /\ exists k, Dict.In k kwargs /\ BlockDeviceType_takes k = false).
Proof.
  unfold new_BlockDeviceType.
  destruct (forallb BlockDeviceType_takes (map fst (Dict.elements kwargs))) eqn:E.
  - left. split; [reflexivity |]. intros k Hk.
    rewrite forallb_forall in E. apply E, In_elements, Hk.
  - right. split; [reflexivity |].
    assert (Hex : existsb (fun k => negb (BlockDeviceType_takes k))
                    (map fst (Dict.elements kwargs)) = true).
    { clear -E. induction (map fst (Dict.elements kwargs)) as [| k l IH];
        [discriminate |].
      cbn in *. destruct (BlockDeviceType_takes k); cbn in *; auto. }
    apply existsb_exists in Hex. destruct Hex as (k & Hin & Hk).
    exists k. split; [apply In_elements, Hin |].
    destruct (BlockDeviceType_takes k); [discriminate | reflexivity].
Qed.

(** Once a device is refused the loop keeps that exception. *)
Lemma build_mapping_raised (items : list (string * Dict.t DeviceProperty)) (e : Exn) :
  fold_left
    (fun acc item =>
       match acc with
       | inl e => inl e
       | inr result =>
           match new_BlockDeviceType (modified_device_properties (snd item)) with
           | inl e => inl e
           | inr device => inr (Dict.add (fst item) device result)
           end
       end)
    items (inl e : Exn + BlockDeviceMapping) = inl e.
Proof. induction items as [| item items IH]; [reflexivity | exact IH]. Qed.

(** The loop from any [result], over items with distinct device names. *)
Lemma build_mapping_from (items : list (string * Dict.t DeviceProperty)) :
  NoDup (map fst items) ->
  forall result0 : BlockDeviceMapping,
    match
      fold_left
        (fun acc item =>
           match acc with
           | inl e => inl e
           | inr result =>
               match new_BlockDeviceType (modified_device_properties (snd item)) with
               | inl e => inl e
               | inr device => inr (Dict.add (fst item) device result)
               end
           end)
        items (inr result0)
    with
    | inl e =>
        e = TypeError
        /\ exists device_name device_properties k,
            In (device_name, device_properties) items
            /\ Dict.In k (modified_device_properties device_properties)
            /\ BlockDeviceType_takes k = false
    | inr result =>
        forall device_name,
          (forall device_properties,
              In (device_name, device_properties) items ->
              Dict.find device_name result
              = Some {| bdt_kwargs := modified_device_properties device_properties |}
              /\ forall k, Dict.In k (modified_device_properties device_properties) ->
                           BlockDeviceType_takes k = true)
          /\ (~ In device_name (map fst items) ->
              Dict.find device_name result = Dict.find device_name result0)
    end.
Proof.
  induction items as [| [d props] items IH]; intros Hnd result0; cbn [fold_left].
  - intros device_name. split; [intros ? [] | reflexivity].
  - cbn [map fst snd] in *. inversion Hnd as [| ? ? Hd Hnd']; subst.
    destruct (new_BlockDeviceType_cases (modified_device_properties props))
      as [[-> Htakes] | [-> (k0 & Hin & Hk0)]].
    + specialize (IH Hnd' (Dict.add d {| bdt_kwargs := modified_device_properties props |}
                                     result0)).
      destruct (fold_left _ items _) as [e | result].
      * destruct IH as (-> & d' & props' & k & Hin & Hk & Hbad).
        split; [reflexivity |]. exists d', props', k.
        split; [right; exact Hin | auto].
      * intros device_name. destruct (IH device_name) as [Hin Hout]. split.
        -- intros props' [E | Hin'].
           ++ inversion E; subst. split; [| exact Htakes].
              rewrite (Hout Hd). rewrite DictFacts.add_eq_o; reflexivity.
           ++ apply Hin, Hin'.
        -- intros Hnotin. rewrite Hout by (intros G; apply Hnotin; right; exact G).
           rewrite DictFacts.add_neq_o; [reflexivity |].
           intros <-. apply Hnotin. left. reflexivity.
    + rewrite build_mapping_raised. split; [reflexivity |].
      exists d, props, k0. split; [left; reflexivity | auto].
Qed.

(** The items of a dict, and any reordering of them. *)
Lemma items_of_dict {elt} (m : Dict.t elt) (items : list (string * elt)) :
  Permutation items (Dict.elements m) ->
  NoDup (map fst items)
  /\ forall k e, In (k, e) items <-> Dict.find k m = Some e.
Proof.
  intros P. split.
  - eapply Permutation_NoDup; [symmetry; apply Permutation_map, P |].
    assert (Hkeys : forall l : list (string * elt),
               NoDupA (Dict.eq_key (elt:=elt)) l -> NoDup (map fst l)).
    { induction 1 as [| [k e] l Hnotin _ IH]; cbn; constructor; [| exact IH].
      intros Hin. apply Hnotin. apply in_map_iff in Hin.
      destruct Hin as ([k' e'] & Hk & Hin). cbn in Hk. subst k'.
      apply InA_alt. exists (k, e'). split; [reflexivity | exact Hin]. }
    apply Hkeys, Dict.elements_3w.
  - intros k e. rewrite <- DictFacts.find_mapsto_iff, DictFacts.elements_mapsto_iff.
    rewrite InA_alt. split.
    + intros Hin. exists (k, e). split; [split; reflexivity |].
      eapply Permutation_in; eassumption.
    + intros ([k' e'] & [Hk He] & Hin). cbn in Hk, He. subst k' e'.
      eapply Permutation_in; [symmetry |]; eassumption.
Qed.

(** The loop of [create_block_device_mapping], in whatever order the items
    of the dict come: a result has the device built from the modified
    properties of each device name, and the loop fails exactly on a keyword
    that is not taken. *)
Lemma build_mapping_of_dict (defs : MappingDefinitions)
      (items : list (string * Dict.t DeviceProperty)) :
  Permutation items (Dict.elements defs) ->
  match build_mapping items with
  | inl e =>
      e = TypeError
      /\ exists device_name device_properties k,
          Dict.find device_name defs = Some device_properties
          /\ Dict.In k (modified_device_properties device_properties)
          /\ BlockDeviceType_takes k = false
  | inr result =>
      forall device_name,
        match Dict.find device_name defs with
        | Some device_properties =>
            Dict.find device_name result
            = Some {| bdt_kwargs := modified_device_properties device_properties |}
            /\ forall k, Dict.In k (modified_device_properties device_properties) ->
                         BlockDeviceType_takes k = true
        | None => Dict.find device_name result = None
        end
  end.
Proof.
  intros P. destruct (items_of_dict defs items P) as [Hnd Hitems].
  pose proof (build_mapping_from items Hnd (Dict.empty BlockDeviceType)) as H.
  unfold build_mapping. destruct (fold_left _ items _) as [e | result].
  - destruct H as (-> & d & props & k & Hin & Hk & Hbad).
    split; [reflexivity |]. exists d, props, k. split; [apply Hitems, Hin | auto].
  - intros device_name. destruct (H device_name) as [Hin Hout].
    destruct (Dict.find device_name defs) as [props |] eqn:E.
    + apply Hin, Hitems, E.
    + rewrite Hout; [apply DictFacts.empty_o |].
      intros G. apply in_map_iff in G. destruct G as ([k e] & Hk & G).
      cbn in Hk. subst k. apply Hitems in G. congruence.
Qed.

(** X1.  [create_block_device_mapping] gives [None] for no map or an empty
    one.  For any other map it either returns a mapping, and then every
    device name of the argument, and no other, has the [BlockDeviceType]
    built from its properties, with [delete_on_termination=True] added when
    they do not say it and nothing else changed, all of them keywords the
    constructor takes; or it raises [TypeError], and then some device has a
    property that [BlockDeviceType] does not take.  The order in which the
    items of the dict come is immaterial: the loop over any reordering of
    them raises as well, or builds a mapping with the same devices. *)
Theorem create_block_device_mapping_defaults (defs : MappingDefinitions) :
  create_block_device_mapping None = inr None
  /\ (Dict.is_empty defs = true ->
      create_block_device_mapping (Some defs) = inr None)
  /\ (Dict.is_empty defs = false ->
      match create_block_device_mapping (Some defs) with
      | inr None => False
      | inr (Some result) =>
          forall device_name,
            match Dict.find device_name defs with
            | Some device_properties =>
                exists device,
                  Dict.find device_name result = Some device
                  /\ (forall k,
                         Dict.find k (bdt_kwargs device)
                         = match Dict.find k device_properties with
                           | Some v => Some v
                           | None => if k =? "delete_on_termination"
                                     then Some (PropBool true) else None
                           end)
                  /\ forall k, Dict.In k (bdt_kwargs device) ->
                               BlockDeviceType_takes k = true
            | None => Dict.find device_name result = None
            end
      | inl e =>
          e = TypeError
          /\ exists device_name device_properties k,
              Dict.find device_name defs = Some device_properties
              /\ (k = "delete_on_termination" \/ Dict.In k device_properties)
              /\ BlockDeviceType_takes k = false
      end)
  /\ (forall items,
         Permutation items (Dict.elements defs) ->
         match build_mapping items, build_mapping (Dict.elements defs) with
         | inl e, inl e' => e = e'
         | inr result, inr result' => Dict.Equal result result'
         | _, _ => False
         end).
Proof.
  split; [reflexivity |]. split; [| split].
  - intros E. unfold create_block_device_mapping. rewrite E. reflexivity.
  - intros E. unfold create_block_device_mapping. rewrite E.
    pose proof (build_mapping_of_dict defs _ (Permutation_refl _)) as H.
    destruct (build_mapping (Dict.elements defs)) as [e | result].
    + destruct H as (-> & d & props & k & Hd & Hk & Htakes).
      split; [reflexivity |]. exists d, props, k. repeat split; trivial.
      apply DictFacts.in_find_iff in Hk.
      rewrite modified_device_properties_find in Hk.
      destruct (Dict.find k props) eqn:Ek.
      * right. apply DictFacts.in_find_iff. congruence.
      * destruct (String.eqb_spec k "delete_on_termination"); [left | ]; congruence.
    + intros device_name. specialize (H device_name).
      destruct (Dict.find device_name defs) as [props |]; [| exact H].
      destruct H as [Hfind Htakes].
      exists {| bdt_kwargs := modified_device_properties props |}.
      split; [exact Hfind |]. split; [| exact Htakes].
      intros k. apply modified_device_properties_find.
  - intros items P.
    pose proof (build_mapping_of_dict defs items P) as H.
    pose proof (build_mapping_of_dict defs _ (Permutation_refl _)) as H'.
    destruct (build_mapping items) as [e | result],
             (build_mapping (Dict.elements defs)) as [e' | result'].
    + destruct H as [-> _], H' as [-> _]. reflexivity.
    + destruct H as (_ & d & props & k & Hd & Hk & Hbad).
      specialize (H' d). rewrite Hd in H'. destruct H' as [_ Htakes].
      rewrite (Htakes k Hk) in Hbad. discriminate.
    + destruct H' as (_ & d & props & k & Hd & Hk & Hbad).
      specialize (H d). rewrite Hd in H. destruct H as [_ Htakes].
      rewrite (Htakes k Hk) in Hbad. discriminate.
    + intros d. specialize (H d). specialize (H' d).
      destruct (Dict.find d defs); [destruct H as [-> _], H' as [-> _] |];
        congruence.
Qed.

End BlockDevices.

Lemma create_block_device_mapping_defaults_witness :
  Dict.is_empty Examples.two_devices = false
  /\ (exists result,
         create_block_device_mapping (platform := Examples.quiet)
           (Some Examples.two_devices) = inr (Some result)
         /\ option_map (fun device => Dict.elements (bdt_kwargs device))
              (Dict.find "/dev/sdb" result)
            = Some [("delete_on_termination", PropBool true); ("size", PropInt 10)]
         /\ option_map (fun device => Dict.elements (bdt_kwargs device))
              (Dict.find "/dev/sdc" result)
            = Some [("delete_on_termination", PropBool false); ("size", PropInt 20)]
         /\ Dict.find "/dev/sdd" result = None)
  /\ create_block_device_mapping (platform := Examples.quiet)
       (Some Examples.misspelt_device) = inl TypeError.
Proof.
  split; [reflexivity |]. split.
  - pose proof (proj1 (proj2 (proj2 (create_block_device_mapping_defaults
                                       (platform := Examples.quiet)
                                       Examples.two_devices)))
                      eq_refl) as H.
    destruct (create_block_device_mapping (Some Examples.two_devices))
      as [e | [result |]] eqn:E.
    + vm_compute in E. discriminate E.
    + exists result. split; [reflexivity |].
      vm_compute in E. inversion E; subst result; clear E.
      repeat split; vm_compute; reflexivity.
    + destruct H.
  - pose proof (proj1 (proj2 (proj2 (create_block_device_mapping_defaults
                                       (platform := Examples.quiet)
                                       Examples.misspelt_device)))
                      eq_refl) as H.
    destruct (create_block_device_mapping (Some Examples.misspelt_device))
      as [e | [result |]] eqn:E.
    + destruct H as [-> _]. reflexivity.
    + vm_compute in E. discriminate E.
    + destruct H.
Defined.

(** ** The constructor, beyond the image arguments *)

(** The handle and the identity of the instance compose like the other
    relations. *)
Section MoreRelations.

Context {platform : Platform}.

#[global] Instance same_handle_compositional : Compositional same_handle.
Proof. split; unfold same_handle; [reflexivity | intros; congruence]. Qed.

#[global] Instance same_instance_id_compositional : Compositional same_instance_id.
Proof. split; unfold same_instance_id; [reflexivity | intros; congruence]. Qed.

#[global] Instance no_terminate_compositional : Compositional no_terminate.
Proof.
  split; unfold no_terminate.
  - constructor.
  - intros. apply Forall_app. auto.
Qed.

Lemma call_same_handle (c : Call) : respects same_handle (call c).
Proof. intros s. rewrite run_call. reflexivity. Qed.

Lemma sleep_same_handle (dt : Z) : respects same_handle (sleep dt).
Proof. intros s. reflexivity. Qed.

Lemma modify_same_handle (f : Self -> Self) :
  (forall o, handle_of (f o) = handle_of o) -> respects same_handle (modify_self f).
Proof. intros H s. unfold same_handle. cbn. apply H. Qed.

Lemma call_same_instance_id (c : Call) : respects same_instance_id (call c).
Proof. intros s. rewrite run_call. reflexivity. Qed.

Lemma sleep_same_instance_id (dt : Z) : respects same_instance_id (sleep dt).
Proof. intros s. reflexivity. Qed.

Lemma modify_same_instance_id (f : Self -> Self) :
  (forall o, instance (f o) = instance o) ->
  respects same_instance_id (modify_self f).
Proof. intros H s. unfold same_instance_id. cbn. rewrite H. reflexivity. Qed.

Lemma call_no_terminate (c : Call) :
  is_terminate c = false -> respects no_terminate (call c).
Proof.
  intros H s. rewrite run_call. unfold no_terminate, calls_of. cbn. auto.
Qed.

Lemma modify_no_terminate (f : Self -> Self) : respects no_terminate (modify_self f).
Proof. intros s. constructor. Qed.

Lemma sleep_no_terminate (dt : Z) : respects no_terminate (sleep dt).
Proof. intros s. constructor. Qed.

End MoreRelations.

#[global] Hint Extern 1 (respects same_handle (call ?c)) =>
  exact (call_same_handle c) : respects.
#[global] Hint Extern 1 (respects same_handle (sleep _)) =>
  apply sleep_same_handle : respects.
#[global] Hint Extern 1 (respects same_handle (modify_self _)) =>
  apply modify_same_handle; reflexivity : respects.
#[global] Hint Extern 1 (respects same_instance_id (call ?c)) =>
  exact (call_same_instance_id c) : respects.
#[global] Hint Extern 1 (respects same_instance_id (sleep _)) =>
  apply sleep_same_instance_id : respects.
#[global] Hint Extern 1 (respects same_instance_id (modify_self _)) =>
  apply modify_same_instance_id; reflexivity : respects.
#[global] Hint Extern 1 (respects no_terminate (call ?c)) =>
  exact (call_no_terminate c eq_refl) : respects.
#[global] Hint Extern 1 (respects no_terminate (sleep _)) =>
  apply sleep_no_terminate : respects.
#[global] Hint Extern 1 (respects no_terminate (modify_self _)) =>
  apply modify_no_terminate : respects.

Section Constructor.

Context {platform : Platform}.

#[local] Hint Resolve get_image_no_launch : respects.

Lemma __init___no_launch (cfg : Config) (os : Os) : respects no_launch (__init__ cfg os).
Proof. unfold __init__. respects_auto. Qed.

(** X2.  The constructor never launches: none of its calls is [image.run]
    or [request_spot_instances], whatever the arguments and the service. *)
Theorem constructor_never_launches (cfg : Config) (os : Os) (svc : Service) (t : Z) :
  Forall (fun c => is_launch c = false) (calls_of (EC2LatentBuildSlave cfg os svc t)).
Proof.
  unfold EC2LatentBuildSlave.
  pose proof (__init___no_launch cfg os
                {| self := EC2LatentBuildSlave_class; conn := svc; now := t |}) as H.
  destruct (__init__ cfg os _) as [[o s] calls]. exact H.
Qed.

Lemma get_image_same_handle : respects same_handle get_image.
Proof. unfold get_image. respects_auto. Qed.
#[local] Hint Resolve get_image_same_handle : respects.

Lemma __init___same_handle (cfg : Config) (os : Os) :
  respects same_handle (__init__ cfg os).
Proof. unfold __init__. respects_auto. Qed.

(** X3.  A controller the constructor returns owns no instance and has no
    console output; its [dns] is [None], its polling parameters are the
    class defaults 5 and 10, [start_instance] on it is accepted and
    [stop_instance] is the no-op. *)
Theorem constructed_owns_no_instance (cfg : Config) (os : Os) (svc : Service) (t t' : Z)
        (o : Self) (fast : bool) :
  outcome_of (EC2LatentBuildSlave cfg os svc t) = Return o ->
  instance o = None /\ output o = None /\ dns o = None
  /\ _poll_resolution o = 5%Z /\ _poll_retry o = 10%Z
  /\ start_instance {| self := o; conn := svc; now := t' |}
     = (Return (deferToThread (if spot_instance o then task_request_spot_instance
                               else task_start_instance)),
        {| self := o; conn := svc; now := t' |}, [])
  /\ stop_instance fast {| self := o; conn := svc; now := t' |}
     = (Return succeed_None, {| self := o; conn := svc; now := t' |}, []).
Proof.
  unfold EC2LatentBuildSlave. intros H.
  pose proof (__init___same_handle cfg os
                {| self := EC2LatentBuildSlave_class; conn := svc; now := t |}) as Hh.
  destruct (__init__ cfg os _) as [[[[] | e |] s] calls]; cbn in H; try discriminate.
  inversion H; subst o; clear H.
  unfold same_handle, handle_of in Hh. cbn in Hh. inversion Hh as [[Hi Ho Hr Hp]].
  unfold dns, start_instance, stop_instance. rewrite !run_bind. cbn.
  rewrite Hi. cbn. destruct (spot_instance (self s)); auto 10.
Qed.

End Constructor.

(** Running [__init__] through the checks of lines 78-104 once the
    arguments are known to pass them. *)
Ltac init_enter cfg H :=
  let Hsec := fresh "Hsec" in
  let Hone := fresh "Hone" in
  let Howners := fresh "Howners" in
  let Hregex := fresh "Hregex" in
  destruct H as (Hsec & Hone & Howners & Hregex);
  unfold __init__; rewrite Hsec; run_pure;
  unfold Spec.exactly_one, Spec.explicit_image, Spec.selection_constraints in Hone;
  rewrite Hone; cbn [negb]; run_pure;
  unfold accepted_owners in Howners;
  destruct (cfg_valid_ami_owners cfg) as [[? | ?] |];
  try match type of Howners with
      | context [owner_ints ?l] => destruct (owner_ints l)
      end;
  inversion Howners; subst; clear Howners; run_pure;
  unfold accepted_regex in Hregex;
  destruct (cfg_valid_ami_location_regex cfg) as [[? | ] |];
  try match type of Hregex with
      | context [re_compiles ?p] => destruct (re_compiles p)
      end;
  inversion Hregex; subst; clear Hregex; run_pure;
  cbv zeta;
  rewrite (run_bind_Return (modify_self _) _ _ _ tt [] eq_refl).

Section ConstructorChecks.

Context {platform : Platform}.

(** X4.  A classic security group name together with a subnet id is
    refused with [ValueError] before any call. *)
Theorem classic_group_in_vpc_is_refused (cfg : Config) (os : Os) (svc : Service) (t : Z) :
  Py.truthy (cfg_security_name cfg) = true ->
  Py.truthy (cfg_subnet_id cfg) = true ->
  EC2LatentBuildSlave cfg os svc t =
  (Raise (ValueError
            "security_name (EC2 classic security groups) is not supported in a VPC.  Use security_group_ids instead."),
   svc, []).
Proof.
  intros H1 H2. unfold EC2LatentBuildSlave, __init__. rewrite H1, H2. cbn [andb].
  erewrite run_bind_Raise by reflexivity. reflexivity.
Qed.

(** X5.  Past the two checks on combinations, a [valid_ami_owners] with an
    element that is no integer, and a [valid_ami_location_regex] that is no
    string, are refused with [ValueError]; a pattern that does not compile
    raises the error of [re.compile], which is no [ValueError].  All three
    happen before any call. *)
Theorem owners_and_pattern_are_validated (cfg : Config) (os : Os) (svc : Service)
        (t : Z) :
  (Py.truthy (cfg_security_name cfg) && Py.truthy (cfg_subnet_id cfg)) = false ->
  Spec.exactly_one cfg = true ->
  (accepted_owners (cfg_valid_ami_owners cfg) = None ->
   EC2LatentBuildSlave cfg os svc t =
   (Raise (ValueError "valid_ami_owners should be int or iterable of ints"), svc, []))
  /\ (forall owners,
         accepted_owners (cfg_valid_ami_owners cfg) = Some owners ->
         (cfg_valid_ami_location_regex cfg = Some regex_other ->
          EC2LatentBuildSlave cfg os svc t =
          (Raise (ValueError "valid_ami_location_regex should be a string"), svc, []))
         /\ (forall p, cfg_valid_ami_location_regex cfg = Some (regex_basestring p) ->
                       re_compiles p = false ->
                       EC2LatentBuildSlave cfg os svc t = (Raise re_error, svc, []))).
Proof.
  intros Hsec Hone.
  unfold Spec.exactly_one, Spec.explicit_image, Spec.selection_constraints in Hone.
  split.
  - intros Ho. unfold EC2LatentBuildSlave, __init__.
    rewrite Hsec. run_pure. rewrite Hone. cbn [negb]. run_pure.
    unfold accepted_owners in Ho.
    destruct (cfg_valid_ami_owners cfg) as [[n | l] |]; try discriminate.
    destruct (owner_ints l); try discriminate.
    erewrite run_bind_Raise by reflexivity. reflexivity.
  - intros owners Ho. split.
    + intros Hr. unfold EC2LatentBuildSlave, __init__.
      rewrite Hsec. run_pure. rewrite Hone. cbn [negb]. run_pure.
      unfold accepted_owners in Ho.
      destruct (cfg_valid_ami_owners cfg) as [[n | l] |];
        try destruct (owner_ints l); try discriminate;
        run_pure; rewrite Hr;
        erewrite run_bind_Raise by reflexivity; reflexivity.
    + intros p Hr Hc. unfold EC2LatentBuildSlave, __init__.
      rewrite Hsec. run_pure. rewrite Hone. cbn [negb]. run_pure.
      unfold accepted_owners in Ho.
      destruct (cfg_valid_ami_owners cfg) as [[n | l] |];
        try destruct (owner_ints l); try discriminate;
        run_pure; rewrite Hr, Hc;
        erewrite run_bind_Raise by reflexivity; reflexivity.
Qed.


(** The three ways the credentials can be given wrongly. *)
Lemma credentials_partial (cfg : Config) (os : Os) :
  (cfg_identifier cfg = None /\ cfg_secret_identifier cfg <> None)
  \/ (cfg_identifier cfg <> None
      /\ (cfg_aws_id_file_path cfg <> None \/ cfg_secret_identifier cfg = None)) ->
  exists msg, credentials cfg os = inl (AssertionError msg).
Proof.
  unfold credentials.
  intros [[Hi Hs] | [Hi [Hf | Hs]]].
  - rewrite Hi. destruct (cfg_secret_identifier cfg); [eauto | contradiction].
  - destruct (cfg_identifier cfg); [| contradiction].
    destruct (cfg_aws_id_file_path cfg); [eauto | contradiction].
  - destruct (cfg_identifier cfg); [| contradiction].
    rewrite Hs. destruct (cfg_aws_id_file_path cfg); eauto.
Qed.

(** X6.  With arguments that pass the checks: a secret without an
    identifier, an identifier without a secret, or an identifier together
    with a credentials file fails an assertion before any call; so does any
    other failure to resolve the credentials (no [HOME], an unreadable
    file), with its own exception. *)
Theorem credentials_are_resolved_before_connecting
        (cfg : Config) (os : Os) (svc : Service) (t : Z)
        (owners : option (list Z)) (regex : option string) :
  arguments_accepted cfg owners regex ->
  (forall e, credentials cfg os = inl e ->
             EC2LatentBuildSlave cfg os svc t = (Raise e, svc, []))
  /\ ((cfg_identifier cfg = None /\ cfg_secret_identifier cfg <> None)
      \/ (cfg_identifier cfg <> None
          /\ (cfg_aws_id_file_path cfg <> None \/ cfg_secret_identifier cfg = None)) ->
      exists msg,
        EC2LatentBuildSlave cfg os svc t = (Raise (AssertionError msg), svc, [])).
Proof.
  intros Hacc.
  assert (Hraise : forall e, credentials cfg os = inl e ->
                             EC2LatentBuildSlave cfg os svc t = (Raise e, svc, [])).
  { intros e He. unfold EC2LatentBuildSlave.
    init_enter cfg Hacc; rewrite He; cbn [of_sum];
      erewrite run_bind_Raise by reflexivity; reflexivity. }
  split; [exact Hraise |].
  intros Hpartial. destruct (credentials_partial cfg os Hpartial) as [msg Hmsg].
  exists msg. apply Hraise, Hmsg.
Qed.

(** X7.  With arguments that pass the checks and credentials that resolve:
    a region name that is not among the regions the service lists is refused
    with [ValueError] after that one listing, and no connection is made. *)
Theorem unknown_region_is_refused
        (cfg : Config) (os : Os) (svc svc' : Service) (t : Z)
        (owners : option (list Z)) (regex : option string)
        (identifier secret_identifier : option string) (region : string)
        (listed : list string) :
  arguments_accepted cfg owners regex ->
  credentials cfg os = inr (identifier, secret_identifier) ->
  cfg_region cfg = Some region ->
  conn_reply (regions identifier secret_identifier) svc = (inr listed, svc') ->
  existsb (String.eqb region) listed = false ->
  EC2LatentBuildSlave cfg os svc t =
  (Raise (ValueError "The specified region does not exist"), svc',
   [regions identifier secret_identifier]).
Proof.
  intros Hacc Hcred Hregion Hreply Hnot. unfold EC2LatentBuildSlave.
  init_enter cfg Hacc; rewrite Hcred; cbn [of_sum]; run_pure;
    rewrite Hregion;
    match goal with
    | |- context [bind (bind (call (regions ?i ?x)) ?k1) ?k2 ?s1] =>
        assert (Hr : bind (call (regions i x)) k1 s1 =
                     (Raise (ValueError "The specified region does not exist"),
                      with_conn s1 svc', [regions i x]))
          by (rewrite run_bind_call; cbn [conn]; rewrite Hreply; cbn [fst snd];
              cbv zeta; rewrite Hnot; reflexivity);
        rewrite (run_bind_Raise _ k2 s1 _ _ _ Hr)
    end;
    reflexivity.
Qed.

End ConstructorChecks.

Lemma constructed_owns_no_instance_witness :
  outcome_of (EC2LatentBuildSlave
                (platform := Examples.stateless Examples.selection_then_spot)
                Examples.constraints_only Examples.no_files (Examples.svc _) 0)
  = Return (Examples.selecting ".-(\d+)" true)
  /\ instance (Examples.selecting ".-(\d+)" true) = None
  /\ output (Examples.selecting ".-(\d+)" true) = None.
Proof.
  split; [vm_compute; reflexivity |].
  pose proof (constructed_owns_no_instance
                (platform := Examples.stateless Examples.selection_then_spot)
                Examples.constraints_only Examples.no_files (Examples.svc _) 0 0
                (Examples.selecting ".-(\d+)" true) true) as H.
  split; apply H; vm_compute; reflexivity.
Defined.

Lemma classic_group_in_vpc_is_refused_witness :
  Py.truthy (Some "builders") = true
  /\ Py.truthy (Some "subnet-1") = true
  /\ outcome_of
       (EC2LatentBuildSlave (platform := Examples.quiet)
          (Examples.config (Some "ami-1") None None (Some "builders") (Some "subnet-1")
                           None (Some "id") (Some "secret") None None)
          Examples.no_files (Examples.svc _) 0)
     = Raise (ValueError
                "security_name (EC2 classic security groups) is not supported in a VPC.  Use security_group_ids instead.").
Proof.
  split; [reflexivity |]. split; [reflexivity |].
  rewrite (classic_group_in_vpc_is_refused (platform := Examples.quiet)
             (Examples.config (Some "ami-1") None None (Some "builders")
                              (Some "subnet-1") None (Some "id") (Some "secret")
                              None None)
             Examples.no_files (Examples.svc _) 0 eq_refl eq_refl).
  reflexivity.
Defined.

Lemma owners_and_pattern_are_validated_witness :
  accepted_owners (Some (owners_iterable [owner_int 42; owner_other])) = None
  /\ EC2LatentBuildSlave (platform := Examples.quiet)
       (Examples.config None (Some (owners_iterable [owner_int 42; owner_other])) None
                        None None None (Some "id") (Some "secret") None None)
       Examples.no_files (Examples.svc _) 0
     = (Raise (ValueError "valid_ami_owners should be int or iterable of ints"),
        Examples.svc _, []).
Proof.
  split; [reflexivity |].
  apply (proj1 (owners_and_pattern_are_validated (platform := Examples.quiet)
                  (Examples.config None
                     (Some (owners_iterable [owner_int 42; owner_other])) None
                     None None None (Some "id") (Some "secret") None None)
                  Examples.no_files (Examples.svc _) 0 eq_refl eq_refl)).
  reflexivity.
Defined.

Lemma credentials_are_resolved_before_connecting_witness :
  arguments_accepted (platform := Examples.quiet)
    (Examples.config (Some "ami-1") None None None None None (Some "id") None None None)
    None None
  /\ exists msg,
      EC2LatentBuildSlave (platform := Examples.quiet)
        (Examples.config (Some "ami-1") None None None None None (Some "id") None
                         None None)
        Examples.no_files (Examples.svc _) 0
      = (Raise (AssertionError msg), Examples.svc _, []).
Proof.
  assert (H : arguments_accepted (platform := Examples.quiet)
                (Examples.config (Some "ami-1") None None None None None (Some "id")
                                 None None None) None None)
    by (repeat split).
  split; [exact H |].
  apply (proj2 (credentials_are_resolved_before_connecting
                  (platform := Examples.quiet) _ Examples.no_files (Examples.svc _) 0
                  None None H)).
  right. split; [discriminate | right; reflexivity].
Defined.

Lemma unknown_region_is_refused_witness :
  arguments_accepted (platform := Examples.quiet)
    (Examples.config (Some "ami-1") None None None None (Some "mars-1") (Some "id")
                     (Some "secret") None None)
    None None
  /\ EC2LatentBuildSlave (platform := Examples.quiet)
       (Examples.config (Some "ami-1") None None None None (Some "mars-1") (Some "id")
                        (Some "secret") None None)
       Examples.no_files (Examples.svc _) 0
     = (Raise (ValueError "The specified region does not exist"), Examples.svc _,
        [regions (Some "id") (Some "secret")]).
Proof.
  assert (H : arguments_accepted (platform := Examples.quiet)
                (Examples.config (Some "ami-1") None None None None (Some "mars-1")
                                 (Some "id") (Some "secret") None None) None None)
    by (repeat split).
  split; [exact H |].
  apply (unknown_region_is_refused (platform := Examples.quiet) _ Examples.no_files
           (Examples.svc _) (Examples.svc _) 0 None None (Some "id") (Some "secret")
           "mars-1" [] H eq_refl eq_refl eq_refl eq_refl).
Defined.

(** ** get_image, beyond the choice *)

Section MoreSelection.

Context {platform : Platform}.

(** X8.  [get_image] writes nothing: the image it selects is not kept in
    [self.image].  With [self.image] set it returns that image without a
    call; otherwise every invocation either stops at a pattern that does not
    compile or lists the images again, with the one call
    [get_all_images(owners=self.valid_ami_owners)]. *)
Theorem get_image_lists_each_time (s : State) :
  self (state_of (get_image s)) = self s
  /\ now (state_of (get_image s)) = now s
  /\ match image (self s) with
     | Some img => get_image s = (Return img, s, [])
     | None =>
         get_image s = (Raise re_error, s, [])
         \/ calls_of (get_image s) = [get_all_images (valid_ami_owners (self s))]
     end.
Proof.
  unfold get_image. rewrite (run_bind_pure get_self _ s (self s) eq_refl).
  destruct (image (self s)) as [img |]; [repeat split |].
  destruct (Py.truthy (valid_ami_location_regex (self s)) && _).
  - erewrite run_bind_Raise by reflexivity. repeat split. left. reflexivity.
  - run_pure. rewrite run_bind_call.
    destruct (fst (conn_reply _ (conn s))) as [e | images]; [repeat split; auto |].
    cbv zeta.
    destruct (candidates _ images) as [e | options]; [repeat split; auto |].
    destruct (choose options); repeat split; auto.
Qed.

(** A candidate with a smaller integer key is below. *)
Lemma int_key_le (m n : Z) (r r' : list Order.value) :
  Order.cmp_list (Order.Int m :: r') (Order.Int n :: r) <> Gt -> (m <= n)%Z.
Proof.
  cbn. destruct (Z.compare_spec m n); intros Hgt; [lia | lia | congruence].
Qed.

(** X9.  When every candidate's first capture group is an integer (level
    0), the image chosen is one whose integer is the greatest: captures
    compare as numbers, not as text. *)
Theorem greatest_integer_is_chosen (c : ascii) (p : string) (images : list Image)
        (options : list Order.candidate) (img : Image) :
  candidates (Some (String c p)) images = inr options ->
  list_max (map Spec.shape_level (Spec.matched_groups (String c p) images)) = 0 ->
  choose options = inr img ->
  exists n rest,
    In (Order.Int n :: rest, img) options
    /\ forall cand, In cand options ->
                    exists m rest', fst cand = Order.Int m :: rest' /\ (m <= n)%Z.
Proof.
  unfold candidates.
  destruct (scan_images (String c p) images 0 []) as [e | [level opts]] eqn:E;
    [discriminate |].
  intros H Hmax Hchoose.
  apply scan_images_level in E. destruct E as (Hlev & _ & Hint).
  rewrite Hmax in Hlev. cbn in Hlev. subst level.
  inversion H; subst options; clear H.
  specialize (Hint (Forall_nil _) eq_refl). rewrite Forall_forall in Hint.
  assert (Hne : opts <> []) by (intros ->; discriminate).
  destruct (choose_greatest opts Hne) as (w & Hin & Hw & Hgreatest).
  rewrite Hw in Hchoose. inversion Hchoose; subst img; clear Hchoose.
  destruct (Hint w Hin) as (n & rest & Hkey).
  exists n, rest. split.
  - rewrite <- Hkey. destruct w. exact Hin.
  - intros cand Hc. destruct (Hint cand Hc) as (m & rest' & Hm).
    exists m, rest'. split; [exact Hm |].
    apply (int_key_le m n rest rest'). rewrite <- Hm, <- Hkey.
    apply le_on_keys, Hgreatest, Hc.
Qed.

Lemma scan_images_app pattern (pre post : list Image) :
  forall level options,
    scan_images pattern (pre ++ post) level options =
    match scan_images pattern pre level options with
    | inl e => inl e
    | inr (level', options') => scan_images pattern post level' options'
    end.
Proof.
  induction pre as [| image pre IH]; intros level options; cbn [app scan_images];
    [reflexivity |].
  destruct (negb (image_state image =? "available")); [apply IH |].
  destruct (re_match pattern (image_location image)) as [[| alpha] |]; [| | apply IH].
  - destruct (level <? 2)%nat; apply IH.
  - destruct (level <? 2)%nat; [| apply IH].
    destruct (level =? 0)%nat; [| apply IH].
    destruct alpha as [a |]; [| reflexivity].
    destruct (py_int a); apply IH.
Qed.

(** X10.  An available image that matches the pattern while its first
    group took no part in the match: met while the level is still 0, it
    makes the selection raise [TypeError] (from [int(None)]); met after a
    capture that is no integer has raised the level to 1, it is a candidate
    with [None] for its captured text. *)
Theorem unmatched_group_depends_on_level (c : ascii) (p : string)
        (pre post : list Image) (image : Image) (level : nat)
        (options : list Order.candidate) :
  scan_images (String c p) pre 0 [] = inr (level, options) ->
  image_state image = "available" ->
  re_match (String c p) (image_location image) = Some (group None) ->
  (level = 0 ->
   candidates (Some (String c p)) (pre ++ image :: post) = inl TypeError)
  /\ (level = 1 ->
      scan_images (String c p) (pre ++ [image]) 0 [] =
      inr (1, options ++ [([Order.None_; Order.None_;
                            Order.Str (image_location image);
                            Order.Str (image_id image)], image)])).
Proof.
  intros Hpre Hstate Hmatch. split; intros ->.
  - unfold candidates. rewrite scan_images_app, Hpre. cbn [scan_images].
    rewrite Hstate, Hmatch. reflexivity.
  - rewrite scan_images_app, Hpre. cbn [scan_images].
    rewrite Hstate, Hmatch. reflexivity.
Qed.

End MoreSelection.

(** Captures 1, 2 and 10: the image with 10 is chosen, though as text it
    would sort before 2. *)
Lemma greatest_integer_is_chosen_witness :
  candidates (platform := Examples.quiet) (Some ".-(\d+)")
    [Examples.image_10; Examples.image_2; Examples.image_1]
  = inr [([Order.Int 10; Order.Str "10"; Order.Str "x-10"; Order.Str "ami-10"],
          Examples.image_10);
         ([Order.Int 2; Order.Str "2"; Order.Str "x-2"; Order.Str "ami-2"],
          Examples.image_2);
         ([Order.Int 1; Order.Str "1"; Order.Str "x-1"; Order.Str "ami-1"],
          Examples.image_1)]
  /\ choose [([Order.Int 10; Order.Str "10"; Order.Str "x-10"; Order.Str "ami-10"],
              Examples.image_10);
             ([Order.Int 2; Order.Str "2"; Order.Str "x-2"; Order.Str "ami-2"],
              Examples.image_2);
             ([Order.Int 1; Order.Str "1"; Order.Str "x-1"; Order.Str "ami-1"],
              Examples.image_1)]
     = inr Examples.image_10
  /\ String.compare "10" "2" = Lt
  /\ exists n rest,
      In (Order.Int n :: rest, Examples.image_10)
         [([Order.Int 10; Order.Str "10"; Order.Str "x-10"; Order.Str "ami-10"],
           Examples.image_10);
          ([Order.Int 2; Order.Str "2"; Order.Str "x-2"; Order.Str "ami-2"],
           Examples.image_2);
          ([Order.Int 1; Order.Str "1"; Order.Str "x-1"; Order.Str "ami-1"],
           Examples.image_1)]
      /\ forall cand,
          In cand
             [([Order.Int 10; Order.Str "10"; Order.Str "x-10"; Order.Str "ami-10"],
               Examples.image_10);
              ([Order.Int 2; Order.Str "2"; Order.Str "x-2"; Order.Str "ami-2"],
               Examples.image_2);
              ([Order.Int 1; Order.Str "1"; Order.Str "x-1"; Order.Str "ami-1"],
               Examples.image_1)] ->
          exists m rest', fst cand = Order.Int m :: rest' /\ (m <= n)%Z.
Proof.
  split; [vm_compute; reflexivity |]. split; [vm_compute; reflexivity |].
  split; [reflexivity |].
  apply (greatest_integer_is_chosen (platform := Examples.quiet) "."%char "-(\d+)"
           [Examples.image_10; Examples.image_2; Examples.image_1]);
    vm_compute; reflexivity.
Defined.

(** With the pattern [.-(\d+)?]: [x-plain] listed first raises [TypeError]. *)
Lemma unmatched_group_depends_on_level_witness :
  scan_images (platform := Examples.optional_group) ".-(\d+)?" [] 0 [] = inr (0, [])
  /\ image_state Examples.image_plain = "available"
  /\ re_match (Platform := Examples.optional_group) ".-(\d+)?"
       (image_location Examples.image_plain) = Some (group None)
  /\ candidates (platform := Examples.optional_group) (Some ".-(\d+)?")
       [Examples.image_plain; Examples.image_1] = inl TypeError.
Proof.
  split; [reflexivity |]. split; [reflexivity |]. split; [reflexivity |].
  apply (proj1 (unmatched_group_depends_on_level (platform := Examples.optional_group)
                  "."%char "-(\d+)?" [] [Examples.image_1] Examples.image_plain 0 []
                  eq_refl eq_refl eq_refl)).
  reflexivity.
Defined.

(** ** Which exceptions leave a procedure *)

Section Raises.

Context {platform : Platform}.
Variable P : Exn -> Prop.

Lemma raises_ret {A} (a : A) : raises_only P (ret a).
Proof. intros s e H. discriminate. Qed.

Lemma raises_raise {A} (e : Exn) : P e -> raises_only P (@raise _ A e).
Proof. intros He s e' H. cbn in H. congruence. Qed.

Lemma raises_diverge {A} : raises_only P (@diverge _ A).
Proof. intros s e H. discriminate. Qed.

Lemma raises_get_self : raises_only P get_self.
Proof. intros s e H. discriminate. Qed.

Lemma raises_time_time : raises_only P time_time.
Proof. intros s e H. discriminate. Qed.

Lemma raises_modify_self (f : Self -> Self) : raises_only P (modify_self f).
Proof. intros s e H. discriminate. Qed.

Lemma raises_sleep (dt : Z) : raises_only P (sleep dt).
Proof. intros s e H. discriminate. Qed.

Lemma raises_call (c : Call) :
  (forall e, P (EC2Error e)) -> raises_only P (call c).
Proof.
  intros HP s e H. rewrite run_call in H. cbn in H.
  destruct (fst (conn_reply c (conn s))); inversion H. apply HP.
Qed.

Lemma raises_item0 {A} (l : list A) : P IndexError -> raises_only P (item0 l).
Proof. intros HP. destruct l; [apply raises_raise, HP | apply raises_ret]. Qed.

Lemma raises_of_sum {A} (r : Exn + A) :
  (forall e, r = inl e -> P e) -> raises_only P (of_sum r).
Proof.
  intros HP. destruct r; [apply raises_raise, HP; reflexivity | apply raises_ret].
Qed.

Lemma raises_bind {A B} (m : M A) (k : A -> M B) :
  raises_only P m -> (forall a, raises_only P (k a)) -> raises_only P (bind m k).
Proof.
  intros Hm Hk s e H. rewrite run_bind in H. specialize (Hm s).
  unfold outcome_of in *.
  destruct (m s) as [[[a | e' |] s1] t1]; cbn in *.
  - specialize (Hk a s1). unfold outcome_of in Hk.
    destruct (k a s1) as [[o s2] t2]. cbn in *. exact (Hk e H).
  - inversion H; subst. exact (Hm e eq_refl).
  - discriminate.
Qed.

Lemma raises_the_instance : P AttributeError -> raises_only P the_instance.
Proof.
  intros HP. apply raises_bind; [apply raises_get_self | intros o].
  destruct (instance o); [apply raises_ret | apply raises_raise, HP].
Qed.

Lemma raises_try_except {A} (m : M A) (h : EC2ResponseError -> M A) :
  raises_only P m -> (forall e, raises_only P (h e)) ->
  raises_only P (try_except m h).
Proof.
  intros Hm Hh s e H. unfold try_except in H. specialize (Hm s).
  unfold outcome_of in *.
  destruct (m s) as [[[a | e' |] s1] t1]; cbn in *; try discriminate.
  destruct e'; try (inversion H; subst; exact (Hm _ eq_refl)).
  specialize (Hh e0 s1). unfold outcome_of in Hh.
  destruct (h e0 s1) as [[o s2] t2]. cbn in *. exact (Hh e H).
Qed.

End Raises.

Create HintDb raises.

(** One structural step of a [raises_only] goal. *)
Ltac raises_step :=
  first
    [ assumption
    | solve [ auto 1 with raises nocore ]
    | progress cbv zeta
    | apply raises_ret
    | apply raises_diverge
    | apply raises_get_self
    | apply raises_time_time
    | apply raises_modify_self
    | apply raises_sleep
    | apply raises_raise; exact I
    | apply raises_item0; exact I
    | apply raises_the_instance; exact I
    | match goal with
      | |- raises_only ?P (call ?c) => exact (raises_call P c (fun _ => I))
      end
    | apply raises_bind; [ | intros ]
    | apply raises_try_except; [ | intros ]
    | match goal with
      | |- raises_only _ (match ?x with _ => _ end) => destruct x
      | |- raises_only _ (if ?b then _ else _) => destruct b
      end ].

Ltac raises_auto := repeat raises_step.

(** ** _stop_instance *)

Section Teardown.

Context {platform : Platform}.

Lemma wait_until_goal_raises fuel interval goal i :
  raises_only is_EC2Error (wait_until_goal fuel interval goal i).
Proof.
  revert i. induction fuel as [| fuel IH]; intros i; cbn [wait_until_goal];
    raises_auto.
Qed.
#[local] Hint Resolve wait_until_goal_raises : raises.

(** X11.  The teardown raises nothing of its own: an exception that leaves
    [_stop_instance] is an [EC2ResponseError] of the service. *)
Theorem _stop_instance_raises_only_service_errors fuel (i : Instance) (fast : bool)
        (s : State) (e : Exn) :
  outcome_of (_stop_instance fuel i fast s) = Raise e ->
  exists err, e = EC2Error err.
Proof.
  intros H.
  assert (Hr : raises_only is_EC2Error (_stop_instance fuel i fast))
    by (unfold _stop_instance; raises_auto).
  specialize (Hr s e H). destruct e; try contradiction. eauto.
Qed.


Lemma wait_until_goal_no_terminate fuel interval goal i :
  respects no_terminate (wait_until_goal fuel interval goal i).
Proof.
  revert i. induction fuel as [| fuel IH]; intros i; cbn [wait_until_goal];
    respects_auto.
Qed.
#[local] Hint Resolve wait_until_goal_no_terminate : respects.

(** X12.  Without an elastic address: when the refresh of the instance
    fails with [InvalidInstanceID.NotFound], the teardown returns at once
    and terminates nothing; with any other error code it raises that error.
    Either way the refresh is its only call. *)
Theorem teardown_of_vanished_instance fuel (i : Instance) (fast : bool) (s : State)
        (e : EC2ResponseError) (svc : Service) :
  elastic_ip (self s) = None ->
  conn_reply (instance_update (instance_id i)) (conn s) = (inl e, svc) ->
  _stop_instance fuel i fast s =
  (if error_code e =? "InvalidInstanceID.NotFound"
   then Return tt else Raise (EC2Error e),
   with_conn s svc, [instance_update (instance_id i)]).
Proof.
  intros Hip Hreply. unfold _stop_instance.
  rewrite (run_bind_pure get_self _ s (self s) eq_refl), Hip. run_pure.
  match goal with
  | |- context [bind (try_except ?m ?h) ?k s] =>
      assert (Htry : try_except m h s =
                     (if error_code e =? "InvalidInstanceID.NotFound"
                      then Return None else Raise (EC2Error e),
                      with_conn s svc, [instance_update (instance_id i)]))
  end.
  { unfold try_except. rewrite run_bind_call, Hreply. cbn [fst snd].
    destruct (error_code e =? "InvalidInstanceID.NotFound"); reflexivity. }
  rewrite run_bind, Htry.
  destruct (error_code e =? "InvalidInstanceID.NotFound"); reflexivity.
Qed.

(** X13.  With an elastic address, its disassociation is the first call of
    the teardown, and when it fails its error is the outcome and nothing
    else is called. *)
Theorem elastic_address_is_released_first fuel (i : Instance) (fast : bool) (s : State)
        (ip : Address) :
  elastic_ip (self s) = Some ip ->
  exists rest,
    calls_of (_stop_instance fuel i fast s) =
    disassociate_address (public_ip ip) :: rest
    /\ (forall e,
           fst (conn_reply (disassociate_address (public_ip ip)) (conn s)) = inl e ->
           outcome_of (_stop_instance fuel i fast s) = Raise (EC2Error e)
           /\ rest = []).
Proof.
  intros Hip. unfold _stop_instance.
  rewrite (run_bind_pure get_self _ s (self s) eq_refl), Hip.
  match goal with
  | |- context [bind (bind (call ?c) ?k1) ?k2 s] =>
      destruct (fst (conn_reply c (conn s))) as [e | b] eqn:Hreply;
      [ assert (Hfirst : bind (call c) k1 s =
                         (Raise (EC2Error e), with_conn s (snd (conn_reply c (conn s))),
                          [c]))
          by (rewrite run_bind_call, Hreply; reflexivity);
        rewrite (run_bind_Raise _ k2 s _ _ _ Hfirst)
      | assert (Hfirst : bind (call c) k1 s =
                         (Return tt, with_conn s (snd (conn_reply c (conn s))), [c]))
          by (rewrite run_bind_call, Hreply; reflexivity);
        rewrite (run_bind_Return _ k2 s _ _ _ Hfirst) ]
  end.
  - exists []. split; [reflexivity |]. intros e' He. inversion He. auto.
  - eexists. split; [reflexivity |]. intros e He. discriminate.
Qed.

(** X14.  Without an elastic address, when the refresh reports the instance
    shutting down or terminated: no [terminate] is issued; and a fast
    teardown whose second refresh reports such a state again returns after
    these two refreshes, without sleeping. *)
Theorem teardown_of_stopping_instance fuel (i : Instance) (fast : bool) (s : State)
        (st : InstanceStatus) (svc : Service) :
  elastic_ip (self s) = None ->
  conn_reply (instance_update (instance_id i)) (conn s) = (inr st, svc) ->
  Py.str_in (reported_state st) [SHUTTINGDOWN; TERMINATED] = true ->
  Forall (fun c => is_terminate c = false) (calls_of (_stop_instance fuel i fast s))
  /\ (fast = true ->
      forall st2 svc2,
        conn_reply (instance_update (instance_id i)) svc = (inr st2, svc2) ->
        Py.str_in (reported_state st2) [SHUTTINGDOWN; TERMINATED] = true ->
        _stop_instance fuel i fast s =
        (Return tt, with_conn s svc2,
         [instance_update (instance_id i); instance_update (instance_id i)])).
Proof.
  intros Hip Hreply Hstate. unfold _stop_instance.
  rewrite (run_bind_pure get_self _ s (self s) eq_refl), Hip. run_pure.
  match goal with
  | |- context [bind (try_except ?m ?h) ?k s] =>
      assert (Htry : try_except m h s =
                     (Return (Some (refreshed i st)), with_conn s svc,
                      [instance_update (instance_id i)]))
        by (unfold try_except; rewrite run_bind_call, Hreply; reflexivity);
      rewrite (run_bind_Return _ k s _ _ _ Htry)
  end.
  cbn [refreshed instance_state instance_id]. rewrite Hstate. cbn [negb].
  split.
  - cbn [calls_of snd]. constructor; [reflexivity |].
    match goal with
    | |- Forall _ (calls_of (?m ?s1)) =>
        assert (Hm : respects no_terminate m) by respects_auto; apply (Hm s1)
    end.
  - intros -> st2 svc2 Hreply2 Hstate2.
    run_pure. rewrite run_bind.
    rewrite run_bind_call. cbn [conn with_conn refreshed instance_id].
    rewrite Hreply2. cbn [fst snd].
    cbv zeta. cbn [ret Monad_M unit_M outcome_of state_of calls_of fst snd].
    destruct fuel; cbn [wait_until_goal refreshed instance_state];
      rewrite Hstate2; reflexivity.
Qed.

(** The wait of the teardown. *)
Lemma wait_until_goal_returns fuel interval goal :
  forall (i i' : Instance) (s s' : State) (t : list Call),
    wait_until_goal fuel interval goal i s = (Return i', s', t) ->
    Py.str_in (instance_state i') goal = true
    /\ instance_id i' = instance_id i
    /\ self s' = self s
    /\ exists n,
        t = repeat (instance_update (instance_id i)) n
        /\ now s' = (now s + interval * Z.of_nat n)%Z.
Proof.
  induction fuel as [| fuel IH]; intros i i' s s' t H; cbn [wait_until_goal] in H;
    destruct (Py.str_in (instance_state i) goal) eqn:Hgoal; cbn [negb] in H;
    try discriminate;
    try (inversion H; subst; repeat split; trivial; exists 0%nat; split;
         [reflexivity | cbn; lia]).
  apply bind_Return_inv in H. destruct H as ([] & s1 & t1 & t1' & Hsleep & H & ->).
  inversion Hsleep; subst s1 t1; clear Hsleep.
  apply bind_Return_inv in H. destruct H as (st & s2 & t2 & t2' & Hcall & H & ->).
  rewrite run_call in Hcall. inversion Hcall as [[Ho Hs Ht]]. subst s2 t2.
  apply IH in H. destruct H as (Hg & Hid & Hself & n & Ht & Hnow).
  repeat split; trivial.
  exists (S n). split.
  - cbn. rewrite Ht. reflexivity.
  - rewrite Hnow. cbn [now with_conn]. lia.
Qed.

(** X15.  The wait of the teardown returns only once a refresh has put the
    instance in a state of the goal; until then it sleeps one poll interval
    and refreshes the same instance once per turn, and writes nothing to
    [self]. *)
Theorem teardown_wait_ends_in_goal fuel interval (goal : list string)
        (i i' : Instance) (s s' : State) (t : list Call) :
  wait_until_goal fuel interval goal i s = (Return i', s', t) ->
  Py.str_in (instance_state i') goal = true
  /\ instance_id i' = instance_id i
  /\ self s' = self s
  /\ t = repeat (instance_update (instance_id i)) (List.length t)
  /\ now s' = (now s + interval * Z.of_nat (List.length t))%Z.
Proof.
  intros H. apply wait_until_goal_returns in H.
  destruct H as (Hg & Hid & Hself & n & Ht & Hnow).
  repeat split; trivial; subst t; rewrite repeat_length; trivial.
Qed.

End Teardown.

Lemma _stop_instance_raises_only_service_errors_witness :
  outcome_of (_stop_instance 10 (Examples.i_1 RUNNING) false
                (Examples.idle (Examples.stateless Examples.refresh_refused)
                               (Examples.svc _) false))
  = Raise (EC2Error Examples.auth_failure)
  /\ exists err, EC2Error Examples.auth_failure = EC2Error err.
Proof.
  split; [vm_compute; reflexivity |].
  apply (_stop_instance_raises_only_service_errors
           (platform := Examples.stateless Examples.refresh_refused)
           10 (Examples.i_1 RUNNING) false (Examples.idle _ (Examples.svc _) false)).
  vm_compute. reflexivity.
Defined.

Lemma teardown_of_vanished_instance_witness :
  elastic_ip (Examples.slave false) = None
  /\ _stop_instance 10 (Examples.i_1 RUNNING) false
       (Examples.idle (Examples.stateless Examples.instance_vanished)
                      (Examples.svc _) false)
     = (Return tt,
        Examples.idle (Examples.stateless Examples.instance_vanished)
                      (Examples.svc _) false,
        [instance_update "i-1"]).
Proof.
  split; [reflexivity |].
  apply (teardown_of_vanished_instance
           (platform := Examples.stateless Examples.instance_vanished)
           10 (Examples.i_1 RUNNING) false (Examples.idle _ (Examples.svc _) false)
           Examples.instance_not_found (Examples.svc _) eq_refl eq_refl).
Defined.

Lemma elastic_address_is_released_first_witness :
  elastic_ip Examples.slave_with_ip = Some {| public_ip := "203.0.113.7" |}
  /\ exists rest,
      calls_of (_stop_instance 10 (Examples.i_1 RUNNING) true
                  {| self := Examples.slave_with_ip;
                     conn := Examples.svc Examples.shutting_down; now := 0 |})
      = disassociate_address "203.0.113.7" :: rest
      /\ forall e,
          fst (@conn_reply (Examples.stateless Examples.shutting_down)
                 (disassociate_address "203.0.113.7")
                 (Examples.svc Examples.shutting_down)) = inl e ->
          outcome_of (_stop_instance 10 (Examples.i_1 RUNNING) true
                        {| self := Examples.slave_with_ip;
                           conn := Examples.svc Examples.shutting_down; now := 0 |})
          = Raise (EC2Error e)
          /\ rest = [].
Proof.
  split; [reflexivity |].
  apply (elastic_address_is_released_first
           (platform := Examples.stateless Examples.shutting_down)
           10 (Examples.i_1 RUNNING) true
           {| self := Examples.slave_with_ip;
              conn := Examples.svc Examples.shutting_down; now := 0 |}
           {| public_ip := "203.0.113.7" |} eq_refl).
Defined.

(** A fast stop of an instance that is shutting down: two refreshes, no
    terminate, no sleep. *)
Lemma teardown_of_stopping_instance_witness :
  elastic_ip (Examples.slave false) = None
  /\ Py.str_in SHUTTINGDOWN [SHUTTINGDOWN; TERMINATED] = true
  /\ _stop_instance 10 (Examples.i_1 RUNNING) true
       (Examples.idle (Examples.stateless Examples.shutting_down)
                      (Examples.svc _) false)
     = (Return tt,
        Examples.idle (Examples.stateless Examples.shutting_down)
                      (Examples.svc _) false,
        [instance_update "i-1"; instance_update "i-1"]).
Proof.
  split; [reflexivity |]. split; [reflexivity |].
  apply (proj2 (teardown_of_stopping_instance
                  (platform := Examples.stateless Examples.shutting_down)
                  10 (Examples.i_1 RUNNING) true
                  (Examples.idle _ (Examples.svc _) false)
                  {| reported_state := SHUTTINGDOWN; reported_dns := "" |}
                  (Examples.svc _) eq_refl eq_refl eq_refl)
           eq_refl
           {| reported_state := SHUTTINGDOWN; reported_dns := "" |}
           (Examples.svc _) eq_refl eq_refl).
Defined.

Lemma teardown_wait_ends_in_goal_witness :
  wait_until_goal 10 5 [TERMINATED] (Examples.i_1 SHUTTINGDOWN)
    (Examples.idle Examples.quiet (Examples.svc _) false)
  = (Return (Examples.i_1 TERMINATED),
     {| self := Examples.slave false; conn := Examples.svc Examples.quiet_reply;
        now := 1000005 |},
     [instance_update "i-1"])
  /\ Py.str_in (instance_state (Examples.i_1 TERMINATED)) [TERMINATED] = true
  /\ (1000005 = 1000000 + 5 * Z.of_nat 1)%Z.
Proof.
  assert (H : wait_until_goal 10 5 [TERMINATED] (Examples.i_1 SHUTTINGDOWN)
                (Examples.idle Examples.quiet (Examples.svc _) false)
              = (Return (Examples.i_1 TERMINATED),
                 {| self := Examples.slave false;
                    conn := Examples.svc Examples.quiet_reply; now := 1000005 |},
                 [instance_update "i-1"]))
    by (vm_compute; reflexivity).
  split; [exact H |].
  pose proof (teardown_wait_ends_in_goal (platform := Examples.quiet)
                _ _ _ _ _ _ _ _ H) as (Hg & _ & _ & _ & Hnow).
  split; [exact Hg | exact Hnow].
Defined.

(** ** Waiting for the instance, and what the on-demand path returns *)

Section Readiness.

Context {platform : Platform}.

Lemma the_instance_run (s : State) (i : Instance) :
  instance (self s) = Some i -> the_instance s = (Return i, s, []).
Proof.
  intros H. unfold the_instance.
  rewrite (run_bind_pure get_self _ s (self s) eq_refl), H. reflexivity.
Qed.

Lemma the_instance_Return (s s' : State) (i : Instance) (t : list Call) :
  the_instance s = (Return i, s', t) ->
  instance (self s) = Some i /\ s' = s /\ t = [].
Proof.
  unfold the_instance. rewrite (run_bind_pure get_self _ s (self s) eq_refl).
  destruct (instance (self s)); intros H; inversion H; subst. auto.
Qed.

(** One refresh inside the wait: one call, the clock and the id of the
    instance stay. *)
Lemma refresh_step (s s2 : State) (t2 : list Call) (i : Instance) :
  try_except update_self_instance
    (fun e => if error_code e =? "InvalidInstanceID.NotFound" then ret tt
              else raise (EC2Error e)) s = (Return tt, s2, t2) ->
  instance (self s) = Some i ->
  t2 = [instance_update (instance_id i)]
  /\ now s2 = now s
  /\ exists i2, instance (self s2) = Some i2 /\ instance_id i2 = instance_id i.
Proof.
  intros H Hi. unfold try_except, update_self_instance in H.
  rewrite (run_bind_pure _ _ s i (the_instance_run s i Hi)) in H.
  rewrite run_bind_call in H.
  destruct (fst (conn_reply (instance_update (instance_id i)) (conn s)))
    as [e | st].
  - destruct (error_code e =? "InvalidInstanceID.NotFound");
      inversion H; subst; clear H.
    split; [reflexivity |]. split; [reflexivity |]. exists i. auto.
  - cbv zeta in H. inversion H; subst; clear H.
    split; [reflexivity |]. split; [reflexivity |].
    exists (refreshed i st). auto.
Qed.

Lemma wait_while_pending_returns fuel interval :
  forall (d0 d : Z) (s s' : State) (t : list Call),
    wait_while_pending fuel interval d0 s = (Return d, s', t) ->
    exists i i' n,
      instance (self s) = Some i
      /\ instance (self s') = Some i'
      /\ instance_id i' = instance_id i
      /\ (instance_state i' =? PENDING) = false
      /\ t = repeat (instance_update (instance_id i)) n
      /\ d = (d0 + interval * Z.of_nat n)%Z
      /\ now s' = (now s + interval * Z.of_nat n)%Z.
Proof.
  induction fuel as [| fuel IH]; intros d0 d s s' t H; cbn [wait_while_pending] in H;
    apply bind_Return_inv in H; destruct H as (i & s1 & t1 & t1' & Hthe & H & ->);
    apply the_instance_Return in Hthe; destruct Hthe as (Hi & -> & ->);
    destruct (instance_state i =? PENDING) eqn:Hp; try discriminate;
    try (inversion H; subst; exists i, i, 0%nat; repeat split; trivial; cbn; lia).
  apply bind_Return_inv in H. destruct H as ([] & sa & ta & ta' & Hsleep & H & ->).
  inversion Hsleep; subst sa ta; clear Hsleep.
  apply bind_Return_inv in H. destruct H as ([] & s2 & t2 & t2' & Hrefresh & H & ->).
  eapply refresh_step in Hrefresh; [| exact Hi].
  destruct Hrefresh as (-> & Hnow2 & i2 & Hi2 & Hid2).
  apply IH in H.
  destruct H as (j & i' & n & Hj & Hi' & Hid' & Hp' & Ht & Hd & Hnow).
  assert (j = i2) by congruence. subst j.
  exists i, i', (S n). repeat split; trivial.
  - congruence.
  - cbn. rewrite Ht, Hid2. reflexivity.
  - rewrite Hd. lia.
  - rewrite Hnow, Hnow2. cbn [now]. lia.
Qed.

(** X16.  The wait for the instance returns only once the instance is no
    longer pending.  Until then it sleeps one poll interval and refreshes
    the instance once per turn (a refresh that finds no instance counts as a
    turn), so the duration it returns, and the time that has passed, is the
    interval times the number of refreshes; the instance owned keeps its
    id. *)
Theorem readiness_wait_ends_not_pending fuel interval (d : Z) (s s' : State)
        (t : list Call) :
  wait_while_pending fuel interval 0 s = (Return d, s', t) ->
  exists i i',
    instance (self s) = Some i
    /\ instance (self s') = Some i'
    /\ instance_id i' = instance_id i
    /\ instance_state i' <> PENDING
    /\ t = repeat (instance_update (instance_id i)) (List.length t)
    /\ d = (interval * Z.of_nat (List.length t))%Z
    /\ now s' = (now s + d)%Z.
Proof.
  intros H. apply wait_while_pending_returns in H.
  destruct H as (i & i' & n & Hi & Hi' & Hid & Hp & Ht & Hd & Hnow).
  exists i, i'. subst t. rewrite repeat_length.
  repeat split; trivial; try lia.
  intros E. rewrite E in Hp. discriminate.
Qed.

(** What [_wait_for_instance] returns. *)
Lemma _wait_for_instance_returns fuel (x : string) (s s' : State) (t : list Call)
      (i0 : Instance) (r : option string * option string * option string) :
  _wait_for_instance fuel x s = (Return r, s', t) ->
  instance (self s) = Some i0 ->
  r = (None, None, None)
  \/ exists start, r = (Some (instance_id i0), Some x, Some start).
Proof.
  intros H Hi0. unfold _wait_for_instance in H.
  rewrite (run_bind_pure get_self _ s (self s) eq_refl) in H. cbv zeta in H.
  apply bind_Return_inv in H. destruct H as (d & s1 & t1 & t1' & Hwait & H & ->).
  apply wait_while_pending_returns in Hwait.
  destruct Hwait as (i & i' & n & Hi & Hi' & Hid & _).
  assert (i = i0) by congruence. subst i.
  rewrite (run_bind_pure _ _ s1 i' (the_instance_run s1 i' Hi')) in H.
  destruct (instance_state i' =? RUNNING).
  - right.
    apply bind_Return_inv in H. destruct H as (out & s2 & t2 & t2' & _ & H & _).
    apply bind_Return_inv in H. destruct H as ([] & s3 & t3 & t3' & _ & H & _).
    apply bind_Return_inv in H. destruct H as ([] & s4 & t4 & t4' & _ & H & _).
    apply bind_Return_inv in H. destruct H as ([] & s5 & t5 & t5' & _ & H & _).
    apply bind_Return_inv in H. destruct H as ([] & s6 & t6 & t6' & _ & H & _).
    inversion H; subst. rewrite Hid. eauto.
  - left. inversion H. reflexivity.
Qed.

(** X17.  With [self.image] set, when [image.run] has answered with a
    reservation, a result of [_start_instance] is the list of the id of the
    reservation's first instance, the id of the reservation (it is the
    reservation that is passed where [_wait_for_instance] reads [image.id])
    and the start time. *)
Theorem on_demand_result_names_the_reservation fuel (s : State) (img : Image)
        (reservation : Reservation) (svc : Service) (i0 : Instance)
        (rest : list Instance) (res : Result) :
  image (self s) = Some img ->
  conn_reply (image_run (image_id img) (launch_params (self s))) (conn s)
  = (inr reservation, svc) ->
  instances reservation = i0 :: rest ->
  outcome_of (_start_instance fuel s) = Return res ->
  exists start,
    res = result_list [instance_id i0; reservation_id reservation; start].
Proof.
  intros Himg Hreply Hinst Hres. unfold _start_instance in Hres.
  assert (Hget : get_image s = (Return img, s, [])).
  { unfold get_image.
    rewrite (run_bind_pure get_self _ s (self s) eq_refl), Himg. reflexivity. }
  rewrite (run_bind_pure _ _ s img Hget) in Hres.
  rewrite (run_bind_pure get_self _ s (self s) eq_refl) in Hres.
  rewrite run_bind_call, Hreply in Hres. cbn [fst snd] in Hres. cbv zeta in Hres.
  rewrite Hinst in Hres. cbn [item0] in Hres.
  unfold outcome_of at 1 in Hres. cbn [fst] in Hres.
  match type of Hres with
  | outcome_of (bind ?m ?k ?s1) = _ =>
      let Hret := fresh "Hret" in
      assert (Hret : m s1 = (Return i0, s1, [])) by reflexivity;
      rewrite (run_bind_pure m k s1 i0 Hret) in Hres; clear Hret
  end.
  rewrite (run_bind_Return (modify_self (set_instance (Some i0))) _ _ _ tt []
             eq_refl) in Hres.
  unfold outcome_of at 1 in Hres. cbn [fst] in Hres.
  rewrite run_bind in Hres.
  match type of Hres with
  | context [_wait_for_instance fuel ?x ?s1] =>
      destruct (_wait_for_instance fuel x s1) as [[[r | e |] s2] t2] eqn:Hwait;
      [ apply (_wait_for_instance_returns fuel x s1 s2 t2 i0) in Hwait;
        [| reflexivity]
      | discriminate Hres
      | discriminate Hres ]
  end.
  destruct Hwait as [-> | [start ->]].
  - exfalso. cbn iota beta in Hres. rewrite run_bind in Hres.
    unfold the_instance in Hres.
    rewrite (run_bind_pure get_self _ s2 (self s2) eq_refl) in Hres.
    destruct (instance (self s2)); cbn in Hres; discriminate.
  - exists start. cbn in Hres. inversion Hres. reflexivity.
Qed.


Lemma start_instance_while_active_aux (s : State) (i : Instance) :
  instance (self s) = Some i ->
  start_instance s = (Raise (ValueError "instance active"), s, []).
Proof.
  intros H. unfold start_instance.
  rewrite (run_bind_pure get_self _ s (self s) eq_refl), H. reflexivity.
Qed.

Lemma update_self_instance_same_instance_id :
  respects same_instance_id update_self_instance.
Proof.
  intros s. unfold same_instance_id, update_self_instance.
  destruct (instance (self s)) as [i |] eqn:Hi.
  - rewrite (run_bind_pure _ _ s i (the_instance_run s i Hi)).
    rewrite run_bind_call.
    destruct (fst (conn_reply (instance_update (instance_id i)) (conn s)));
      cbn; rewrite ?Hi; reflexivity.
  - unfold the_instance. rewrite run_bind.
    rewrite (run_bind_pure get_self _ s (self s) eq_refl), Hi. cbn.
    rewrite Hi. reflexivity.
Qed.
#[local] Hint Resolve update_self_instance_same_instance_id : respects.

Lemma _handle_delete_on_term_same_instance_id :
  respects same_instance_id _handle_delete_on_term.
Proof. unfold _handle_delete_on_term. respects_auto. Qed.
#[local] Hint Resolve _handle_delete_on_term_same_instance_id : respects.

Lemma wait_for_volume_same_instance_id fuel interval new_vol vol :
  respects same_instance_id (wait_for_volume fuel interval new_vol vol).
Proof.
  revert vol. induction fuel as [| fuel IH]; intros vol; cbn [wait_for_volume];
    respects_auto.
Qed.
#[local] Hint Resolve wait_for_volume_same_instance_id : respects.

Lemma _create_volumes_loop_same_instance_id fuel todo :
  respects same_instance_id (_create_volumes_loop fuel todo).
Proof.
  induction todo as [| [[device_node volume_size] region] todo IH];
    cbn [_create_volumes_loop]; respects_auto.
Qed.
#[local] Hint Resolve _create_volumes_loop_same_instance_id : respects.

Lemma _attach_volumes_loop_same_instance_id todo :
  respects same_instance_id (_attach_volumes_loop todo).
Proof.
  induction todo as [| [vol device_node] todo IH];
    cbn [_attach_volumes_loop]; respects_auto.
Qed.
#[local] Hint Resolve _attach_volumes_loop_same_instance_id : respects.

Lemma _handle_volumes_same_instance_id fuel :
  respects same_instance_id (_handle_volumes fuel).
Proof.
  unfold _handle_volumes, _create_volumes, _attach_volumes. respects_auto.
Qed.
#[local] Hint Resolve _handle_volumes_same_instance_id : respects.

Lemma wait_while_pending_same_instance_id fuel interval duration :
  respects same_instance_id (wait_while_pending fuel interval duration).
Proof.
  revert duration. induction fuel as [| fuel IH]; intros duration;
    cbn [wait_while_pending]; respects_auto.
Qed.
#[local] Hint Resolve wait_while_pending_same_instance_id : respects.

Lemma _wait_for_instance_same_instance_id fuel x :
  respects same_instance_id (_wait_for_instance fuel x).
Proof. unfold _wait_for_instance. respects_auto. Qed.
#[local] Hint Resolve _wait_for_instance_same_instance_id : respects.

(** X18.  With [self.image] set, once [image.run] has answered with a
    reservation, the controller owns its first instance when
    [_start_instance] ends, whatever the outcome (a result, an exception or
    still waiting): after a failed start too, [start_instance] raises
    ['instance active'] until [stop_instance] has cleared the instance. *)
Theorem launched_instance_stays_owned fuel (s : State) (img : Image)
        (reservation : Reservation) (svc : Service) (i0 : Instance)
        (rest : list Instance) :
  image (self s) = Some img ->
  conn_reply (image_run (image_id img) (launch_params (self s))) (conn s)
  = (inr reservation, svc) ->
  instances reservation = i0 :: rest ->
  (exists i, instance (self (state_of (_start_instance fuel s))) = Some i
             /\ instance_id i = instance_id i0)
  /\ outcome_of (start_instance (state_of (_start_instance fuel s)))
     = Raise (ValueError "instance active").
Proof.
  intros Himg Hreply Hinst.
  assert (Howned : exists i,
             instance (self (state_of (_start_instance fuel s))) = Some i
             /\ instance_id i = instance_id i0).
  { unfold _start_instance.
    assert (Hget : get_image s = (Return img, s, [])).
    { unfold get_image.
      rewrite (run_bind_pure get_self _ s (self s) eq_refl), Himg. reflexivity. }
    rewrite (run_bind_pure _ _ s img Hget).
    rewrite (run_bind_pure get_self _ s (self s) eq_refl).
    rewrite run_bind_call, Hreply. cbn [fst snd]. cbv zeta.
    rewrite Hinst. cbn [item0].
    unfold state_of at 1. cbn [fst snd].
    match goal with
    | |- context [state_of (bind ?m ?k ?s1)] =>
        let Hret := fresh "Hret" in
        assert (Hret : m s1 = (Return i0, s1, [])) by reflexivity;
        rewrite (run_bind_pure m k s1 i0 Hret); clear Hret
    end.
    rewrite (run_bind_Return (modify_self (set_instance (Some i0))) _ _ _ tt []
               eq_refl).
    unfold state_of at 1. cbn [fst snd].
    match goal with
    | |- context [state_of (?m ?s1)] =>
        assert (Hm : respects same_instance_id m) by respects_auto;
        specialize (Hm s1); unfold same_instance_id in Hm; cbn [self instance] in Hm
    end.
    match type of Hm with
    | option_map _ ?x = _ => destruct x as [i |]; [| discriminate Hm]
    end.
    exists i. split; [reflexivity |]. cbn in Hm. congruence. }
  split; [exact Howned |].
  destruct Howned as (i & Hi & _).
  rewrite (start_instance_while_active_aux _ i Hi). reflexivity.
Qed.

End Readiness.

Lemma readiness_wait_ends_not_pending_witness :
  wait_while_pending 10 5 0
    (Examples.waiting (Examples.stateless Examples.launched_then_running)
                      (Examples.svc _))
  = (Return 5%Z,
     {| self := set_instance (Some (Examples.i_1 RUNNING)) (Examples.slave false);
        conn := Examples.svc Examples.launched_then_running; now := 1000005 |},
     [instance_update "i-1"])
  /\ exists i i',
      instance (self (Examples.waiting
                        (Examples.stateless Examples.launched_then_running)
                        (Examples.svc _))) = Some i
      /\ instance (set_instance (Some (Examples.i_1 RUNNING)) (Examples.slave false))
         = Some i'
      /\ instance_id i' = instance_id i
      /\ instance_state i' <> PENDING
      /\ [instance_update "i-1"] = repeat (instance_update (instance_id i)) 1
      /\ (5 = 5 * Z.of_nat 1)%Z
      /\ (1000005 = 1000000 + 5)%Z.
Proof.
  assert (H : wait_while_pending 10 5 0
                (Examples.waiting (Examples.stateless Examples.launched_then_running)
                                  (Examples.svc _))
              = (Return 5%Z,
                 {| self := set_instance (Some (Examples.i_1 RUNNING))
                                         (Examples.slave false);
                    conn := Examples.svc Examples.launched_then_running;
                    now := 1000005 |},
                 [instance_update "i-1"]))
    by (vm_compute; reflexivity).
  split; [exact H |].
  exact (readiness_wait_ends_not_pending
           (platform := Examples.stateless Examples.launched_then_running)
           _ _ _ _ _ _ H).
Defined.

Lemma on_demand_result_names_the_reservation_witness :
  outcome_of (_start_instance 10
                (Examples.idle (Examples.stateless Examples.launched_then_running)
                               (Examples.svc _) false))
  = Return (result_list ["i-1"; "r-1"; "00:00:05"])
  /\ image_id Examples.ami_1 = "ami-1"
  /\ exists start,
      result_list ["i-1"; "r-1"; "00:00:05"] = result_list ["i-1"; "r-1"; start].
Proof.
  split; [vm_compute; reflexivity |]. split; [reflexivity |].
  apply (on_demand_result_names_the_reservation
           (platform := Examples.stateless Examples.launched_then_running)
           10 (Examples.idle _ (Examples.svc _) false) Examples.ami_1
           {| reservation_id := "r-1"; instances := [Examples.i_1 PENDING] |}
           (Examples.svc _) (Examples.i_1 PENDING) [] _ eq_refl eq_refl eq_refl).
  vm_compute. reflexivity.
Defined.

(** After the start that fails because the instance is terminated, the
    instance is still owned. *)
Lemma launched_instance_stays_owned_witness :
  outcome_of (_start_instance 10
                (Examples.idle (Examples.stateless Examples.launched_then_terminated)
                               (Examples.svc _) false))
  = Raise (LatentBuildSlaveFailedToSubstantiate ["i-1"; "terminated"])
  /\ outcome_of
       (start_instance
          (state_of (_start_instance 10
                       (Examples.idle
                          (Examples.stateless Examples.launched_then_terminated)
                          (Examples.svc _) false))))
     = Raise (ValueError "instance active").
Proof.
  split; [vm_compute; reflexivity |].
  apply (launched_instance_stays_owned
           (platform := Examples.stateless Examples.launched_then_terminated)
           10 (Examples.idle _ (Examples.svc _) false) Examples.ami_1
           {| reservation_id := "r-1"; instances := [Examples.i_1 PENDING] |}
           (Examples.svc _) (Examples.i_1 PENDING) [] eq_refl eq_refl eq_refl).
Defined.

(** ** The spot request poller, and what the launch paths raise *)

Section Poller.

Context {platform : Platform}.

Lemma raises_weaken (P Q : Exn -> Prop) {A} (m : M A) :
  (forall e, P e -> Q e) -> raises_only P m -> raises_only Q m.
Proof. intros HPQ Hm s e H. apply HPQ, (Hm s e H). Qed.

Lemma find_request_raises fuel interval attempts reservation :
  raises_only from_service (find_request fuel interval attempts reservation).
Proof.
  revert attempts. induction fuel as [| fuel IH]; intros attempts;
    cbn [find_request]; raises_auto.
Qed.

Lemma wait_while_request_pending_raises fuel interval duration request :
  raises_only from_service (wait_while_request_pending fuel interval duration request).
Proof.
  revert duration request. induction fuel as [| fuel IH]; intros duration request;
    cbn [wait_while_request_pending]; raises_auto.
Qed.

(** One query inside the second loop: one call, the clock and [self] stay. *)
Lemma query_step (request r2 : SpotInstanceRequest) (s s2 : State) (t2 : list Call) :
  try_except
    (requests <- call (get_all_spot_instance_requests [request_id request]) ;;
     item0 requests)
    (fun e => if error_code e =? "InvalidSpotInstanceRequestID.NotFound"
              then ret request else raise (EC2Error e)) s = (Return r2, s2, t2) ->
  t2 = [get_all_spot_instance_requests [request_id request]]
  /\ now s2 = now s /\ self s2 = self s.
Proof.
  unfold try_except. rewrite run_bind_call.
  destruct (fst (conn_reply _ (conn s))) as [e | requests].
  - destruct (error_code e =? "InvalidSpotInstanceRequestID.NotFound");
      intros H; inversion H; subst. auto.
  - cbv zeta. destruct requests as [| r requests]; intros H; inversion H; subst.
    auto.
Qed.

Lemma wait_while_request_pending_returns fuel interval :
  forall (d d' : Z) (request r' : SpotInstanceRequest) (s s' : State) (t : list Call),
    wait_while_request_pending fuel interval d request s = (Return (r', d'), s', t) ->
    Py.str_in (status_code r') SPOT_REQUEST_PENDING_STATES = false
    /\ self s' = self s
    /\ d' = (d + interval * Z.of_nat (List.length t))%Z
    /\ now s' = (now s + interval * Z.of_nat (List.length t))%Z.
Proof.
  induction fuel as [| fuel IH]; intros d d' request r' s s' t H;
    cbn [wait_while_request_pending] in H;
    destruct (Py.str_in (status_code request) SPOT_REQUEST_PENDING_STATES) eqn:Hp;
    try discriminate;
    try (inversion H; subst; repeat split; trivial; cbn; lia).
  apply bind_Return_inv in H. destruct H as ([] & sa & ta & ta' & Hsleep & H & ->).
  inversion Hsleep; subst sa ta; clear Hsleep.
  apply bind_Return_inv in H. destruct H as (r2 & s2 & t2 & t2' & Hq & H & ->).
  apply query_step in Hq. destruct Hq as (-> & Hnow2 & Hself2).
  apply IH in H. destruct H as (Hp' & Hself & Hd & Hnow).
  repeat split; trivial.
  - rewrite Hself, Hself2. reflexivity.
  - rewrite Hd. cbn [app List.length]. lia.
  - rewrite Hnow, Hnow2. cbn [now app List.length]. lia.
Qed.

(** The outcomes of the poller. *)
Lemma poller_returns_only_fulfilled_aux fuel (reservation : SpotInstanceRequest)
        (s : State) :
  match outcome_of (_wait_for_request fuel reservation s) with
  | Return r => status_code r = FULFILLED
  | Raise (LatentBuildSlaveFailedToSubstantiate args) =>
      exists r,
        args = [request_id r; status_code r]
        /\ status_code r <> FULFILLED
        /\ Py.str_in (status_code r) SPOT_REQUEST_PENDING_STATES = false
  | _ => True
  end.
Proof.
  unfold _wait_for_request.
  rewrite (run_bind_pure get_self _ s (self s) eq_refl). cbv zeta.
  rewrite run_bind.
  pose proof (find_request_raises fuel (_poll_resolution (self s)) 0 reservation s)
    as Hf.
  destruct (find_request fuel (_poll_resolution (self s)) 0 reservation s)
    as [[[[r0 |] | e |] s1] t1]; cbn in Hf.
  - rewrite run_bind.
    pose proof (wait_while_request_pending_raises
                  fuel (_poll_resolution (self s)) 0 r0 s1) as Hw.
    destruct (wait_while_request_pending fuel (_poll_resolution (self s)) 0 r0 s1)
      as [[[[r' d'] | e |] s2] t2] eqn:Hrun; cbn in Hw.
    + apply wait_while_request_pending_returns in Hrun. destruct Hrun as (Hp & _).
      destruct (String.eqb_spec (status_code r') FULFILLED) as [E | E];
        [cbn; exact E |].
      destruct (status_code r' =? PRICE_TOO_LOW); cbn; exists r'; auto.
    + specialize (Hw e eq_refl). cbn. destruct e; try exact I; contradiction.
    + exact I.
  - exact I.
  - specialize (Hf e eq_refl). cbn. destruct e; try exact I; contradiction.
  - exact I.
Qed.


(** X19.  [_wait_for_request] returns only a request whose status is
    [fulfilled].  When it raises [LatentBuildSlaveFailedToSubstantiate],
    the exception carries the id and the status code of a request that is
    neither pending nor fulfilled. *)
Theorem poller_returns_only_fulfilled fuel (reservation : SpotInstanceRequest)
        (s : State) :
  match outcome_of (_wait_for_request fuel reservation s) with
  | Return r => status_code r = FULFILLED
  | Raise (LatentBuildSlaveFailedToSubstantiate args) =>
      exists r,
        args = [request_id r; status_code r]
        /\ status_code r <> FULFILLED
        /\ Py.str_in (status_code r) SPOT_REQUEST_PENDING_STATES = false
  | _ => True
  end.
Proof. apply poller_returns_only_fulfilled_aux. Qed.

Lemma scan_images_inl pattern images :
  forall level options e,
    scan_images pattern images level options = inl e -> e = TypeError.
Proof.
  induction images as [| image rest IH]; intros level options e H;
    cbn [scan_images] in H; [discriminate |].
  destruct (negb (image_state image =? "available")); [eapply IH, H |].
  destruct (re_match pattern (image_location image)) as [[| alpha] |];
    [| | eapply IH, H].
  - destruct (level <? 2)%nat; eapply IH, H.
  - destruct (level <? 2)%nat; [| eapply IH, H].
    destruct (level =? 0)%nat; [| eapply IH, H].
    destruct alpha as [a |]; [| congruence].
    destruct (py_int a); eapply IH, H.
Qed.

(** The exceptions of [get_image]: of the service, of the pattern, the
    [TypeError] of an unmatched group, or the [ValueError] of an empty
    choice. *)
Lemma get_image_raises (s : State) (e : Exn) :
  outcome_of (get_image s) = Raise e ->
  (exists err, e = EC2Error err) \/ e = re_error \/ e = TypeError
  \/ e = ValueError "no available images match constraints".
Proof.
  unfold get_image. rewrite (run_bind_pure get_self _ s (self s) eq_refl).
  destruct (image (self s)) as [img |]; [discriminate |].
  destruct (Py.truthy (valid_ami_location_regex (self s)) && _).
  - erewrite run_bind_Raise by reflexivity. intros H. inversion H. auto.
  - run_pure. rewrite run_bind_call.
    destruct (fst (conn_reply _ (conn s))) as [err | images];
      [intros H; inversion H; eauto |].
    cbv zeta. destruct (candidates _ images) as [e0 | options] eqn:Ec.
    + intros H. inversion H; subst. right. right. left.
      unfold candidates in Ec.
      destruct (valid_ami_location_regex (self s)) as [[| c p] |]; try discriminate.
      destruct (scan_images (String c p) images 0 []) as [e1 | [l o]] eqn:Es;
        [| discriminate].
      inversion Ec; subst. eapply scan_images_inl, Es.
    + unfold choose. destruct (Py.last (Order.sort options));
        intros H; inversion H. auto.
Qed.

Lemma get_image_no_substantiation_failure :
  raises_only no_substantiation_failure get_image.
Proof.
  intros s e H. apply get_image_raises in H.
  destruct H as [[err ->] | [-> | [-> | ->]]]; exact I.
Qed.

Lemma update_self_instance_raises :
  raises_only from_service_or_no_instance update_self_instance.
Proof. unfold update_self_instance. raises_auto. Qed.
#[local] Hint Resolve update_self_instance_raises : raises.

Lemma _handle_delete_on_term_raises :
  raises_only from_service_or_no_instance _handle_delete_on_term.
Proof. unfold _handle_delete_on_term. raises_auto. Qed.
#[local] Hint Resolve _handle_delete_on_term_raises : raises.

Lemma wait_for_volume_raises fuel interval new_vol vol :
  raises_only from_service_or_no_instance (wait_for_volume fuel interval new_vol vol).
Proof.
  revert vol. induction fuel as [| fuel IH]; intros vol; cbn [wait_for_volume];
    raises_auto.
Qed.
#[local] Hint Resolve wait_for_volume_raises : raises.

Lemma _create_volumes_loop_raises fuel todo :
  raises_only from_service_or_no_instance (_create_volumes_loop fuel todo).
Proof.
  induction todo as [| [[device_node volume_size] region] todo IH];
    cbn [_create_volumes_loop]; raises_auto.
Qed.
#[local] Hint Resolve _create_volumes_loop_raises : raises.

Lemma _attach_volumes_loop_raises todo :
  raises_only from_service_or_no_instance (_attach_volumes_loop todo).
Proof.
  induction todo as [| [vol device_node] todo IH];
    cbn [_attach_volumes_loop]; raises_auto.
Qed.
#[local] Hint Resolve _attach_volumes_loop_raises : raises.

Lemma _handle_volumes_raises fuel :
  raises_only from_service_or_no_instance (_handle_volumes fuel).
Proof.
  unfold _handle_volumes, _create_volumes, _attach_volumes. raises_auto.
Qed.
#[local] Hint Resolve _handle_volumes_raises : raises.

Lemma wait_while_pending_raises fuel interval duration :
  raises_only from_service_or_no_instance (wait_while_pending fuel interval duration).
Proof.
  revert duration. induction fuel as [| fuel IH]; intros duration;
    cbn [wait_while_pending]; raises_auto.
Qed.
#[local] Hint Resolve wait_while_pending_raises : raises.

(** The wait for the instance raises nothing of its own. *)
Lemma _wait_for_instance_raises fuel x :
  raises_only from_service_or_no_instance (_wait_for_instance fuel x).
Proof. unfold _wait_for_instance. raises_auto. Qed.

#[local] Instance no_instance_call_compositional : Compositional no_instance_call.
Proof.
  split; unfold no_instance_call.
  - constructor.
  - intros. apply Forall_app. auto.
Qed.

Lemma call_no_instance_call (c : Call) :
  is_instance_call c = false -> respects no_instance_call (call c).
Proof.
  intros H s. rewrite run_call. unfold no_instance_call, calls_of. cbn. auto.
Qed.

Lemma sleep_no_instance_call (dt : Z) : respects no_instance_call (sleep dt).
Proof. intros s. constructor. Qed.

#[local] Hint Extern 1 (respects no_instance_call (call ?c)) =>
  exact (call_no_instance_call c eq_refl) : respects.
#[local] Hint Extern 1 (respects no_instance_call (sleep _)) =>
  apply sleep_no_instance_call : respects.

Lemma find_request_no_instance_call fuel interval attempts reservation :
  respects no_instance_call (find_request fuel interval attempts reservation).
Proof.
  revert attempts. induction fuel as [| fuel IH]; intros attempts;
    cbn [find_request]; respects_auto.
Qed.
#[local] Hint Resolve find_request_no_instance_call : respects.

Lemma wait_while_request_pending_no_instance_call fuel interval duration request :
  respects no_instance_call
           (wait_while_request_pending fuel interval duration request).
Proof.
  revert duration request. induction fuel as [| fuel IH]; intros duration request;
    cbn [wait_while_request_pending]; respects_auto.
Qed.
#[local] Hint Resolve wait_while_request_pending_no_instance_call : respects.


Lemma find_request_same_self fuel interval attempts reservation :
  respects same_self (find_request fuel interval attempts reservation).
Proof.
  revert attempts. induction fuel as [| fuel IH]; intros attempts;
    cbn [find_request]; respects_auto.
Qed.
#[local] Hint Resolve find_request_same_self : respects.

Lemma wait_while_request_pending_same_self fuel interval duration request :
  respects same_self (wait_while_request_pending fuel interval duration request).
Proof.
  revert duration request. induction fuel as [| fuel IH]; intros duration request;
    cbn [wait_while_request_pending]; respects_auto.
Qed.
#[local] Hint Resolve wait_while_request_pending_same_self : respects.








(** A [bind] raises when its first part does, or when its second part does
    after the first has returned. *)
Lemma bind_Raise_inv {A B} (m : M A) (k : A -> M B) (s s2 : State) e t :
  bind m k s = (Raise e, s2, t) ->
  m s = (Raise e, s2, t)
  \/ exists a s1 t1 t2,
      m s = (Return a, s1, t1) /\ k a s1 = (Raise e, s2, t2) /\ t = t1 ++ t2.
Proof.
  rewrite run_bind. destruct (m s) as [[[a | e' |] s1] t1]; try discriminate.
  - destruct (k a s1) as [[o s2'] t2] eqn:Hk. intros H. inversion H; subst.
    right. exists a, s1, t1, t2. auto.
  - intros H. inversion H; subst. left. reflexivity.
Qed.


Lemma get_image_after_request :
  raises_only no_substantiation_failure get_image.
Proof. exact get_image_no_substantiation_failure. Qed.
#[local] Hint Resolve get_image_after_request : raises.

Lemma _wait_for_instance_no_substantiation_failure fuel x :
  raises_only no_substantiation_failure (_wait_for_instance fuel x).
Proof.
  apply (raises_weaken from_service_or_no_instance);
    [intros []; cbn; tauto | apply _wait_for_instance_raises].
Qed.
#[local] Hint Resolve _wait_for_instance_no_substantiation_failure : raises.



(** What [_wait_for_instance] returns, and the instance it leaves when it
    returns nothing. *)
Lemma _wait_for_instance_shape fuel (x : string) (s s' : State) (t : list Call)
      (r : option string * option string * option string) :
  _wait_for_instance fuel x s = (Return r, s', t) ->
  (r = (None, None, None)
   /\ exists i, instance (self s') = Some i
                /\ instance_state i <> RUNNING /\ instance_state i <> PENDING)
  \/ exists a b c, r = (Some a, Some b, Some c).
Proof.
  intros H. unfold _wait_for_instance in H.
  rewrite (run_bind_pure get_self _ s (self s) eq_refl) in H. cbv zeta in H.
  apply bind_Return_inv in H. destruct H as (d & s1 & t1 & t1' & Hwait & H & ->).
  apply wait_while_pending_returns in Hwait.
  destruct Hwait as (i & i' & n & Hi & Hi' & Hid & Hp & _).
  rewrite (run_bind_pure _ _ s1 i' (the_instance_run s1 i' Hi')) in H.
  destruct (String.eqb_spec (instance_state i') RUNNING) as [Hr | Hr].
  - right.
    apply bind_Return_inv in H. destruct H as (out & s2 & t2 & t2' & _ & H & _).
    apply bind_Return_inv in H. destruct H as ([] & s3 & t3 & t3' & _ & H & _).
    apply bind_Return_inv in H. destruct H as ([] & s4 & t4 & t4' & _ & H & _).
    apply bind_Return_inv in H. destruct H as ([] & s5 & t5 & t5' & _ & H & _).
    apply bind_Return_inv in H. destruct H as ([] & s6 & t6 & t6' & _ & H & _).
    inversion H; subst. eauto.
  - left. inversion H; subst. split; [reflexivity |].
    exists i'. repeat split; trivial.
    intros E. rewrite E in Hp. discriminate.
Qed.

Lemma _start_instance_failure fuel (s s' : State) (t : list Call)
      (args : list string) :
  _start_instance fuel s = (Raise (LatentBuildSlaveFailedToSubstantiate args), s', t) ->
  exists i,
    instance (self s') = Some i
    /\ args = [instance_id i; instance_state i]
    /\ instance_state i <> RUNNING /\ instance_state i <> PENDING.
Proof.
  intros H. unfold _start_instance in H.
  apply bind_Raise_inv in H.
  destruct H as [H | (img & s1 & t1 & t1' & _ & H & _)].
  { apply (f_equal outcome_of) in H.
    destruct (get_image_no_substantiation_failure s _ H). }
  rewrite (run_bind_pure get_self _ s1 (self s1) eq_refl) in H.
  apply bind_Raise_inv in H.
  destruct H as [H | (reservation & s2 & t2 & t2' & _ & H & _)].
  { rewrite run_call in H. destruct (fst (conn_reply _ (conn s1))); discriminate. }
  apply bind_Raise_inv in H.
  destruct H as [H | (i0 & s3 & t3 & t3' & _ & H & _)].
  { destruct (instances reservation); discriminate. }
  apply bind_Raise_inv in H.
  destruct H as [H | ([] & s4 & t4 & t4' & _ & H & _)]; [discriminate |].
  apply bind_Raise_inv in H.
  destruct H as [H | (r & s5 & t5 & t5' & Hwait & H & _)].
  { apply (f_equal outcome_of) in H.
    destruct (_wait_for_instance_raises fuel _ s4 _ H). }
  apply _wait_for_instance_shape in Hwait.
  destruct Hwait as [(-> & i & Hi & Hr & Hp) | (a & b & c & ->)]; [| discriminate].
  cbn iota beta in H.
  rewrite (run_bind_pure _ _ s5 i (the_instance_run s5 i Hi)) in H.
  inversion H; subst. exists i. auto.
Qed.

(** X21.  When [_start_instance] raises
    [LatentBuildSlaveFailedToSubstantiate], the exception carries the id and
    the state of the instance the controller then owns, and that state is
    neither [running] nor [pending]. *)
Theorem on_demand_failure_names_the_instance fuel (s : State) (args : list string) :
  outcome_of (_start_instance fuel s)
  = Raise (LatentBuildSlaveFailedToSubstantiate args) ->
  exists i,
    instance (self (state_of (_start_instance fuel s))) = Some i
    /\ args = [instance_id i; instance_state i]
    /\ instance_state i <> RUNNING /\ instance_state i <> PENDING.
Proof.
  intros H. destruct (_start_instance fuel s) as [[o s'] t] eqn:Hrun.
  cbn in H. subst o. apply _start_instance_failure in Hrun. exact Hrun.
Qed.

(** The calls of the loop of [_attach_volumes]. *)
Lemma _attach_volumes_loop_calls (i : Instance) (todo : list (string * string)) :
  forall s : State,
    instance (self s) = Some i ->
    self (state_of (_attach_volumes_loop todo s)) = self s
    /\ (exists n,
          calls_of (_attach_volumes_loop todo s)
          = firstn n (map (fun v => attach_volume (fst v) (instance_id i) (snd v))
                          todo))
    /\ (outcome_of (_attach_volumes_loop todo s) = Return tt ->
        calls_of (_attach_volumes_loop todo s)
        = map (fun v => attach_volume (fst v) (instance_id i) (snd v)) todo).
Proof.
  induction todo as [| [vol device_node] todo IH]; intros s Hi;
    cbn [_attach_volumes_loop].
  - repeat split; trivial. exists 0%nat. reflexivity.
  - rewrite (run_bind_pure _ _ s i (the_instance_run s i Hi)).
    rewrite run_bind_call.
    destruct (fst (conn_reply _ (conn s))) as [e | v].
    + repeat split; try discriminate. exists 1%nat. reflexivity.
    + cbv zeta. cbn [outcome_of state_of calls_of fst snd map].
      destruct (IH (with_conn s (snd (conn_reply
                     (attach_volume vol (instance_id i) device_node) (conn s)))) Hi)
        as (Hself & (n & Hn) & Hret).
      repeat split.
      * exact Hself.
      * exists (S n). cbn [firstn]. f_equal. exact Hn.
      * intros H. f_equal. exact (Hret H).
Qed.

(** X22.  With an instance owned, [_attach_volumes] attaches the volumes of
    [self.volumes] to that instance one by one, in the order declared and
    with the device declared: its calls are a prefix of that list, the whole
    list when it returns, and it writes nothing to [self]. *)
Theorem volumes_are_attached_in_order (s : State) (i : Instance) :
  instance (self s) = Some i ->
  self (state_of (_attach_volumes s)) = self s
  /\ (exists n,
        calls_of (_attach_volumes s)
        = firstn n (map (fun v => attach_volume (fst v) (instance_id i) (snd v))
                        (volumes (self s))))
  /\ (outcome_of (_attach_volumes s) = Return tt ->
      calls_of (_attach_volumes s)
      = map (fun v => attach_volume (fst v) (instance_id i) (snd v))
            (volumes (self s))).
Proof.
  intros Hi. unfold _attach_volumes.
  rewrite (run_bind_pure get_self _ s (self s) eq_refl).
  apply _attach_volumes_loop_calls, Hi.
Qed.

End Poller.


Lemma on_demand_failure_names_the_instance_witness :
  outcome_of (_start_instance 10
                (Examples.idle (Examples.stateless Examples.launched_then_terminated)
                               (Examples.svc _) false))
  = Raise (LatentBuildSlaveFailedToSubstantiate ["i-1"; TERMINATED])
  /\ exists i,
      instance (self (state_of
                        (_start_instance 10
                           (Examples.idle
                              (Examples.stateless Examples.launched_then_terminated)
                              (Examples.svc _) false)))) = Some i
      /\ ["i-1"; TERMINATED] = [instance_id i; instance_state i]
      /\ instance_state i <> RUNNING /\ instance_state i <> PENDING.
Proof.
  split; [vm_compute; reflexivity |].
  apply (on_demand_failure_names_the_instance
           (platform := Examples.stateless Examples.launched_then_terminated)
           10 (Examples.idle _ (Examples.svc _) false)).
  vm_compute. reflexivity.
Defined.

Lemma volumes_are_attached_in_order_witness :
  instance (self (Examples.attaching Examples.quiet (Examples.svc _)))
  = Some (Examples.i_1 RUNNING)
  /\ calls_of (_attach_volumes (Examples.attaching Examples.quiet (Examples.svc _)))
     = [attach_volume "vol-1" "i-1" "/dev/sdf"; attach_volume "vol-2" "i-1" "/dev/sdg"]
  /\ self (state_of (_attach_volumes
                       (Examples.attaching Examples.quiet (Examples.svc _))))
     = Examples.slave_with_volumes.
Proof.
  split; [reflexivity |].
  destruct (volumes_are_attached_in_order
              (platform := Examples.quiet)
              (Examples.attaching Examples.quiet (Examples.svc _))
              (Examples.i_1 RUNNING) eq_refl) as (Hself & _ & Hcalls).
  split; [exact (Hcalls eq_refl) | exact Hself].
Defined.

(** ** The constructor and classic security groups *)

Section SecurityGroups.

Context {platform : Platform}.

#[local] Instance no_group_call_compositional : Compositional no_group_call.
Proof.
  split; unfold no_group_call.
  - constructor.
  - intros. apply Forall_app. auto.
Qed.

#[local] Instance same_security_name_compositional : Compositional same_security_name.
Proof. split; unfold same_security_name; [reflexivity | intros; congruence]. Qed.

Lemma call_no_group_call (c : Call) :
  is_group_call c = false -> respects no_group_call (call c).
Proof.
  intros H s. rewrite run_call. unfold no_group_call, calls_of. cbn. auto.
Qed.

Lemma modify_no_group_call (f : Self -> Self) : respects no_group_call (modify_self f).
Proof. intros s. constructor. Qed.

Lemma call_same_security_name (c : Call) : respects same_security_name (call c).
Proof. intros s. rewrite run_call. reflexivity. Qed.

Lemma modify_same_security_name (f : Self -> Self) :
  (forall o, security_name (f o) = security_name o) ->
  respects same_security_name (modify_self f).
Proof. intros H s. unfold same_security_name. cbn. apply H. Qed.

#[local] Hint Extern 1 (respects no_group_call (call ?c)) =>
  exact (call_no_group_call c eq_refl) : respects.
#[local] Hint Extern 1 (respects no_group_call (modify_self _)) =>
  apply modify_no_group_call : respects.
#[local] Hint Extern 1 (respects same_security_name (call ?c)) =>
  exact (call_same_security_name c) : respects.
#[local] Hint Extern 1 (respects same_security_name (modify_self _)) =>
  apply modify_same_security_name; reflexivity : respects.

Lemma get_image_no_group_call : respects no_group_call get_image.
Proof. unfold get_image. respects_auto. Qed.
#[local] Hint Resolve get_image_no_group_call : respects.

Lemma get_image_same_security_name : respects same_security_name get_image.
Proof. unfold get_image. respects_auto. Qed.
#[local] Hint Resolve get_image_same_security_name : respects.

(** In a VPC and without a group name the constructor makes no call on
    security groups. *)
Lemma __init___no_group_call (cfg : Config) (os : Os) :
  cfg_security_name cfg = None ->
  Py.truthy (cfg_subnet_id cfg) = true ->
  respects no_group_call (__init__ cfg os).
Proof.
  intros Hsec Hsub. unfold __init__. rewrite Hsec, Hsub.
  cbn [negb andb Py.truthy]. respects_auto.
Qed.

(** One step of [__init__] that leaves [self.security_name] alone. *)
Ltac keep_name Hm Hn :=
  match type of Hm with
  | ?m ?s = _ =>
      assert (Hn : respects same_security_name m) by respects_auto;
      specialize (Hn s); rewrite Hm in Hn;
      unfold same_security_name in Hn; cbn [state_of fst snd] in Hn
  end.

(** What [__init__] leaves of the group name when none is given. *)
Lemma __init___security (cfg : Config) (os : Os) (s s' : State) (calls : list Call) :
  __init__ cfg os s = (Return tt, s', calls) ->
  cfg_security_name cfg = None ->
  security_name (self s')
  = (if Py.truthy (cfg_subnet_id cfg) then None else Some "latent_buildbot_slave")
  /\ classic_security_groups (self s')
     = (if Py.truthy (cfg_subnet_id cfg) then None
        else Some ["latent_buildbot_slave"])
  /\ subnet_id (self s') = cfg_subnet_id cfg.
Proof.
  unfold __init__. intros H Hsec. rewrite Hsec in H.
  apply bind_Return_inv in H. destruct H as (_ & s1 & t1 & t1' & _ & H & _).
  apply bind_Return_inv in H. destruct H as (_ & s2 & t2 & t2' & _ & H & _).
  apply bind_Return_inv in H. destruct H as (owners & s3 & t3 & t3' & _ & H & _).
  apply bind_Return_inv in H. destruct H as (regex & s4 & t4 & t4' & _ & H & _).
  cbv zeta in H.
  apply bind_Return_inv in H. destruct H as ([] & s5 & t5 & t5' & Hset & H & _).
  unfold modify_self in Hset. inversion Hset; subst s5 t5; clear Hset.
  apply bind_Return_inv in H.
  destruct H as ([identifier secret_identifier] & s6 & t6 & t6' & H6 & H & _).
  apply bind_Return_inv in H. destruct H as (x7 & s7 & t7 & t7' & H7 & H & _).
  apply bind_Return_inv in H. destruct H as (x8 & s8 & t8 & t8' & H8 & H & _).
  apply bind_Return_inv in H. destruct H as (x9 & s9 & t9 & t9' & H9 & H & _).
  apply bind_Return_inv in H. destruct H as (x10 & s10 & t10 & t10' & H10 & H & _).
  apply bind_Return_inv in H. destruct H as (ip & s11 & t11 & t11' & H11 & H & _).
  apply bind_Return_inv in H. destruct H as ([] & s12 & t12 & t12' & H12 & H & _).
  apply bind_Return_inv in H. destruct H as (bdm & s13 & t13 & t13' & H13 & H & _).
  keep_name H6 N6. keep_name H7 N7. keep_name H8 N8. keep_name H9 N9.
  keep_name H10 N10. keep_name H11 N11.
  unfold modify_self in H12. inversion H12; subst s12 t12; clear H12.
  assert (s13 = with_self s11 (assign_rest cfg ip (self s11))) as ->.
  { destruct (create_block_device_mapping (cfg_block_device_map cfg));
      inversion H13. reflexivity. }
  unfold modify_self in H. inversion H; subst s'; clear H.
  assert (Hname : security_name (self s11)
                  = (if Py.truthy (cfg_subnet_id cfg) then None
                     else Some "latent_buildbot_slave")).
  { rewrite N11, N10, N9, N8, N7, N6. cbn [self security_name assign_arguments].
    destruct (Py.truthy (cfg_subnet_id cfg)); reflexivity. }
  cbn [self with_self security_name classic_security_groups subnet_id assign_rest
       set_block_device_map].
  rewrite Hname. destruct (Py.truthy (cfg_subnet_id cfg)); auto.
Qed.

(** X23.  Built without [security_name]: with a subnet id the controller
    has no classic security group, launches carry none, and the constructor
    made no call on security groups; without a subnet id the launches carry
    the default group [latent_buildbot_slave]. *)
Theorem vpc_controller_has_no_classic_group (cfg : Config) (os : Os)
        (svc : Service) (t : Z) (o : Self) :
  cfg_security_name cfg = None ->
  outcome_of (EC2LatentBuildSlave cfg os svc t) = Return o ->
  subnet_id o = cfg_subnet_id cfg
  /\ if Py.truthy (cfg_subnet_id cfg)
     then security_name o = None
          /\ lp_security_groups (launch_params o) = None
          /\ Forall (fun c => is_group_call c = false)
                    (calls_of (EC2LatentBuildSlave cfg os svc t))
     else lp_security_groups (launch_params o) = Some ["latent_buildbot_slave"].
Proof.
  intros Hsec Ho.
  pose proof (fun Hsub => __init___no_group_call cfg os Hsec Hsub
                {| self := EC2LatentBuildSlave_class; conn := svc; now := t |})
    as Hcalls.
  unfold EC2LatentBuildSlave, outcome_of, calls_of in *.
  unfold no_group_call, calls_of in Hcalls.
  destruct (__init__ cfg os _) as [[[[] | e |] s1] calls] eqn:Hinit;
    cbn in Ho; try discriminate.
  inversion Ho; subst o; clear Ho.
  destruct (__init___security cfg os _ s1 calls Hinit Hsec) as (Hname & Hgroups & Hsub).
  split; [exact Hsub |].
  cbn [launch_params lp_security_groups snd].
  destruct (Py.truthy (cfg_subnet_id cfg)).
  - repeat split; trivial. apply Hcalls. reflexivity.
  - exact Hgroups.
Qed.

End SecurityGroups.

Lemma vpc_controller_has_no_classic_group_witness :
  outcome_of (EC2LatentBuildSlave (platform := Examples.quiet)
                Examples.vpc_config Examples.no_files (Examples.svc _) 0)
  = Return Examples.slave_in_vpc
  /\ lp_security_groups (launch_params Examples.slave_in_vpc) = None
  /\ calls_of (EC2LatentBuildSlave (platform := Examples.quiet)
                 Examples.vpc_config Examples.no_files (Examples.svc _) 0)
     = [connect_ec2 (Some "id") (Some "secret");
        get_all_key_pairs "latent_buildbot_slave"; conn_get_image "ami-1"]
  /\ Forall (fun c => is_group_call c = false)
            (calls_of (EC2LatentBuildSlave (platform := Examples.quiet)
                         Examples.vpc_config Examples.no_files (Examples.svc _) 0)).
Proof.
  split; [vm_compute; reflexivity |].
  split; [reflexivity |].
  split; [vm_compute; reflexivity |].
  pose proof (vpc_controller_has_no_classic_group
                (platform := Examples.quiet)
                Examples.vpc_config Examples.no_files (Examples.svc _) 0
                Examples.slave_in_vpc eq_refl) as H.
  apply H. vm_compute. reflexivity.
Defined.
